(** * dav-backup: a shallow embedding of [index.js] and its verification

    The program archives directories and database dumps, streams them to a
    WebDAV store and prunes old backups.  Everything the program asks of the
    outside (the WebDAV client, the spawned producer piped into the PUT
    request, the clock) is answered by a [World]: a record of oracles that
    see the whole history of the run so far.  The program itself is written
    in a small monad that threads that history, collects the actions the
    program performs and distinguishes a returned value, a thrown error and
    a call of [process.exit]. *)

From Stdlib Require Import List String Ascii ZArith Bool Arith Lia DecimalString.
Import ListNotations.

Local Open Scope list_scope.

Infix "+++" := String.append (right associativity, at level 60).

(** ** Values of the program *)

(** A JavaScript [Error] with the dynamically attached fields the program
    reads: [status] (errors of the webdav client), [statusCode] (errors of
    the request stream) and [backupFilename] (attached by the producers). *)
Record JsError := mkError {
  message : string;
  status : option Z;
  statusCode : option Z;
  backupFilename : option string
}.

(** An entry of a directory listing, with the fields the pruner destructures. *)
Record DirEntry := mkEntry {
  type : string;
  lastmod : string;
  filename : string;
  basename : string
}.

(** The numbers [daysToKeep] can hold: yargs parses it as a number, the
    default is [Infinity]. *)
Inductive JsNumber :=
| Num (z : Z)
| PosInfinity
| NegInfinity
| NaN.

(** [moment()]: the local time fields that [format] prints and the epoch
    milliseconds that [isBefore] compares. *)
Record Moment := mkMoment {
  year : nat;
  month : nat;
  day : nat;
  hour : nat;
  minute : nat;
  second : nat;
  millisecond : nat;
  valueOf : Z
}.

Record Options := mkOptions {
  dirs : option (list string);
  name : string;
  daysToKeep : JsNumber;
  retries : Z;
  dav : string;
  davDir : string;
  mysqlDb : option string;
  mongoDb : option string
}.

(** The three artifact producers. *)
Inductive Producer := Tar | Mysql | Mongo.

(** What the child process and the request stream deliver to the handlers
    registered in the promise executor of a producer. *)
Inductive StreamEvent :=
| ProcessError (err : JsError)
| ProcessExit (code : option Z)
| RequestError (err : JsError)
| RequestResponse (code : Z) (statusMessage : string).

Inductive DavReply (A : Type) :=
| DavOk (a : A)
| DavErr (err : JsError).
Arguments DavOk {A} a.
Arguments DavErr {A} err.

Inductive LogArg :=
| Str (s : string)
| Obj (err : JsError).

(** One interaction of the program with the outside, with the answer it
    got.  [Upload] stands for the spawned producer piped into the PUT
    request, together with the events this pair then delivered. *)
Inductive Action :=
| GetDirectoryContents (path : string) (reply : DavReply (list DirEntry))
| CreateDirectory (path : string) (reply : DavReply unit)
| DeleteFile (path : string) (reply : DavReply unit)
| Upload (fn : Producer) (file : string) (events : list StreamEvent)
| Delay (ms : Z)
| ConsoleLog (s : string)
| ConsoleWarn (a : LogArg)
| ConsoleError (err : JsError).

Definition Trace := list Action.

(** The outside world.  Every oracle receives the history of the run up to
    the call, so an answer may depend on anything that happened before. *)
Record World := mkWorld {
  getDirectoryContents : Trace -> string -> DavReply (list DirEntry);
  createDirectory : Trace -> string -> DavReply unit;
  deleteFile : Trace -> string -> DavReply unit;
  streamEvents : Trace -> Producer -> list StreamEvent;
  clock : Trace -> Moment;
  momentParse : string -> option Z
}.

(** ** Constants *)

Definition TIMEOUT : Z := 12 * 60 * 60 * 1000.
Definition REQUEST_TIMEOUT : Z := 4 * 60 * 60 * 1000.
Definition RETRY_DELAY : Z := 10 * 1000.

Definition DAV_BASE_URLS (davType : string) : option string :=
  if String.eqb davType "box" then Some "https://dav.box.com/dav"%string
  else if String.eqb davType "yandex" then Some "https://webdav.yandex.com"%string
  else None.

(** ** The monad of the generator body *)

Inductive result (A : Type) :=
| Ret (a : A)
| Throw (err : JsError)
| Exit (code : Z).
Arguments Ret {A} a.
Arguments Throw {A} err.
Arguments Exit {A} code.

(** A computation reads the history and answers with its result and the
    actions it performed itself. *)
Definition M (A : Type) := Trace -> result A * Trace.

Definition ret {A} (a : A) : M A := fun _ => (Ret a, []).

Definition bind {A B} (m : M A) (f : A -> M B) : M B := fun h =>
  match m h with
  | (Ret a, t) => let (r, t') := f a (h ++ t) in (r, t ++ t')
  | (Throw err, t) => (Throw err, t)
  | (Exit code, t) => (Exit code, t)
  end.

Definition throw {A} (err : JsError) : M A := fun _ => (Throw err, []).

Definition process_exit {A} (code : Z) : M A := fun _ => (Exit code, []).

Definition try_catch {A} (m : M A) (handler : JsError -> M A) : M A := fun h =>
  match m h with
  | (Throw err, t) => let (r, t') := handler err (h ++ t) in (r, t ++ t')
  | other => other
  end.

Definition emit (a : Action) : M unit := fun _ => (Ret tt, [a]).

Notation "x <- m ;; k" := (bind m (fun x => k))
  (at level 61, m at next level, right associativity).
Notation "m ;; k" := (bind m (fun _ => k))
  (at level 61, right associativity).

Definition console_log (s : string) : M unit := emit (ConsoleLog s).
Definition console_warn (a : LogArg) : M unit := emit (ConsoleWarn a).

(** ** JavaScript helpers *)

(** Truthiness of a string-valued option ([undefined] and [''] are falsy). *)
Definition truthy (o : option string) : bool :=
  match o with
  | Some s => negb (String.eqb s "")
  | None => false
  end.

(** [err.status === n] *)
Definition status_is (o : option Z) (n : Z) : bool :=
  match o with
  | Some z => Z.eqb z n
  | None => false
  end.

(** [s.split(sep)] for a one-character separator. *)
Fixpoint split (sep : ascii) (s : string) : list string :=
  match s with
  | EmptyString => [EmptyString]
  | String c s' =>
      if Ascii.eqb c sep then EmptyString :: split sep s'
      else match split sep s' with
           | [] => [String c EmptyString]
           | x :: xs => String c x :: xs
           end
  end.

Definition nonempty (s : string) : bool := negb (String.eqb s "").

Definition toString (z : Z) : string := NilZero.string_of_int (Z.to_int z).

(** Comparisons of [daysToKeep] as the guard of the pruner writes them. *)
Definition gt_zero (n : JsNumber) : bool :=
  match n with
  | Num z => Z.ltb 0 z
  | PosInfinity => true
  | NegInfinity | NaN => false
  end.

Definition lt_Infinity (n : JsNumber) : bool :=
  match n with
  | Num _ | NegInfinity => true
  | PosInfinity | NaN => false
  end.

(** [moment.duration(n, 'days').asMilliseconds()] for a finite whole [n]. *)
Definition asMilliseconds (n : JsNumber) : Z :=
  match n with
  | Num z => z * 86400000
  | _ => 0
  end.

(** ** Regular expressions

    The fragment of JavaScript regular expressions that
    [BACKUP_FILENAME_REGEXP] uses, with the backtracking matcher written in
    continuation-passing style: alternatives are tried left to right, a lazy
    [+?] tries the rest of the pattern before it takes one more character,
    and the first complete match is the answer.  Strings are sequences of
    8-bit code units. *)
Module Regex.

Inductive regex :=
| Empty
| Lit (s : string)
| Class (p : ascii -> bool)
| Seq (r1 r2 : regex)
| Alt (r1 r2 : regex)
| Group (n : nat) (r : regex)
| LazyPlus (p : ascii -> bool)
| Eos.

Definition Captures := list (nat * string).

Fixpoint strip_prefix (l s : list ascii) : option (list ascii) :=
  match l with
  | [] => Some s
  | a :: l' =>
      match s with
      | c :: s' => if Ascii.eqb a c then strip_prefix l' s' else None
      | [] => None
      end
  end.

Fixpoint lazy_plus {R} (p : ascii -> bool) (s : list ascii)
    (k : list ascii -> option R) : option R :=
  match s with
  | [] => None
  | c :: s' =>
      if p c then
        match k s' with
        | Some r => Some r
        | None => lazy_plus p s' k
        end
      else None
  end.

Fixpoint rmatch (r : regex) (s : list ascii) (caps : Captures)
    (k : list ascii -> Captures -> option Captures) : option Captures :=
  match r with
  | Empty => k s caps
  | Lit l =>
      match strip_prefix (list_ascii_of_string l) s with
      | Some s' => k s' caps
      | None => None
      end
  | Class p =>
      match s with
      | c :: s' => if p c then k s' caps else None
      | [] => None
      end
  | Seq r1 r2 => rmatch r1 s caps (fun s' caps' => rmatch r2 s' caps' k)
  | Alt r1 r2 =>
      match rmatch r1 s caps k with
      | Some c => Some c
      | None => rmatch r2 s caps k
      end
  | Group n r' =>
      rmatch r' s caps (fun s' caps' =>
        k s' ((n, string_of_list_ascii (firstn (List.length s - List.length s') s)) :: caps'))
  | LazyPlus p => lazy_plus p s (fun s' => k s' caps)
  | Eos =>
      match s with
      | [] => k s caps
      | _ :: _ => None
      end
  end.

(** [re.exec(s)] for a pattern that starts with [^]: the only start
    position that can match is 0. *)
Definition exec (r : regex) (s : string) : option Captures :=
  rmatch r (list_ascii_of_string s) [] (fun _ caps => Some caps).

(** [re.test(s)] *)
Definition test (r : regex) (s : string) : bool :=
  match exec r s with
  | Some _ => true
  | None => false
  end.

Fixpoint capture (n : nat) (caps : Captures) : option string :=
  match caps with
  | [] => None
  | (m, s) :: rest => if Nat.eqb m n then Some s else capture n rest
  end.

(** [r{n}] *)
Fixpoint rep (n : nat) (r : regex) : regex :=
  match n with
  | O => Empty
  | S n' => Seq r (rep n' r)
  end.

(** [\d] *)
Definition is_digit (c : ascii) : bool :=
  let n := nat_of_ascii c in (48 <=? n)%nat && (n <=? 57)%nat.

(** [.]: any character but a line terminator. *)
Definition is_dot (c : ascii) : bool :=
  negb (Ascii.eqb c "010") && negb (Ascii.eqb c "013").

End Regex.
Import Regex.

(** The parts of the pattern of backup filenames. *)

(** [\d{4}-\d{2}-\d{2}] *)
Definition datePattern : regex :=
  let d := Class is_digit in
  Seq (rep 4 d) (Seq (Lit "-") (Seq (rep 2 d) (Seq (Lit "-") (rep 2 d)))).

(** [\d{2}-\d{2}-\d{2}-\d{3}] *)
Definition timePattern : regex :=
  let d := Class is_digit in
  Seq (rep 2 d) (Seq (Lit "-") (Seq (rep 2 d) (Seq (Lit "-")
      (Seq (rep 2 d) (Seq (Lit "-") (rep 3 d)))))).

(** [(mysql|mongo)-.+?_], the first alternative of the optional kind tag. *)
Definition kindPattern : regex :=
  Seq (Group 1 (Alt (Lit "mysql") (Lit "mongo")))
      (Seq (Lit "-") (Seq (LazyPlus is_dot) (Lit "_"))).

(** [(?:\.tgz|\.tar(?:\.gz|)|\.sql(?:\.gz|))] *)
Definition extPattern : regex :=
  Alt (Lit ".tgz")
      (Alt (Seq (Lit ".tar") (Alt (Lit ".gz") Empty))
           (Seq (Lit ".sql") (Alt (Lit ".gz") Empty))).

(** [(\d{4}-\d{2}-\d{2})_(\d{2}-\d{2}-\d{2}-\d{3})(?:...)$], what follows
    the kind tag. *)
Definition stampPattern : regex :=
  Seq (Group 2 datePattern)
      (Seq (Lit "_") (Seq (Group 3 timePattern) (Seq extPattern Eos))).

(** [^backup-${name}_(?:(mysql|mongo)-.+?_|)(\d{4}-\d{2}-\d{2})_(\d{2}-\d{2}-\d{2}-\d{3})(?:\.tgz|\.tar(?:\.gz|)|\.sql(?:\.gz|))$]

    [name] is interpolated into the pattern source; it is taken literally
    here, which is what the pattern does for the alphanumeric names the
    option check admits. *)
Definition BACKUP_FILENAME_REGEXP (name : string) : regex :=
  Seq (Lit ("backup-" +++ name +++ "_"))
      (Seq (Alt kindPattern Empty) stampPattern).

(** ** Filenames of the producers *)

Definition digit (d : nat) : ascii := ascii_of_nat (48 + d).

(** Zero-filled decimal fields of [moment().format]. *)
Definition pad2 (n : nat) : string :=
  String (digit (n / 10)) (String (digit (n mod 10)) EmptyString).
Definition pad3 (n : nat) : string :=
  String (digit (n / 100)) (pad2 (n mod 100)).
Definition pad4 (n : nat) : string :=
  String (digit (n / 1000)) (pad3 (n mod 1000)).

Definition format_date (m : Moment) : string :=
  pad4 (year m) +++ "-" +++ pad2 (month m) +++ "-" +++ pad2 (day m).
Definition format_time (m : Moment) : string :=
  pad2 (hour m) +++ "-" +++ pad2 (minute m) +++ "-" +++ pad2 (second m)
    +++ "-" +++ pad3 (millisecond m).

(** [moment().format('YYYY-MM-DD_HH-mm-ss-SSS')] *)
Definition format (m : Moment) : string :=
  format_date m +++ "_" +++ format_time m.

(** The fields of a moment that [format] prints with their usual width. *)
Definition valid_moment (m : Moment) : Prop :=
  (year m < 10 * 1000 /\ 1 <= month m <= 12 /\ 1 <= day m <= 31 /\ hour m <= 23 /\
   minute m <= 59 /\ second m <= 59 /\ millisecond m < 1000)%nat.

Definition tarFilename (name : string) (m : Moment) : string :=
  "backup-" +++ name +++ "_" +++ format m +++ ".tgz".
Definition mysqlFilename (name db : string) (m : Moment) : string :=
  "backup-" +++ name +++ "_mysql-" +++ db +++ "_" +++ format m +++ ".sql.gz".
Definition mongoFilename (name db : string) (m : Moment) : string :=
  "backup-" +++ name +++ "_mongo-" +++ db +++ "_" +++ format m +++ ".sql.gz".

(** ** The program *)

Section Program.

Variable w : World.
Variable options : Options.

Definition davBaseUrl : string :=
  match DAV_BASE_URLS (dav options) with
  | Some url => url
  | None => dav options
  end.

(** *** The WebDAV client: each call is awaited with [yield], so a rejected
    promise is thrown into the generator. *)

Definition settle_reply {A} (reply : DavReply A) : result A :=
  match reply with
  | DavOk a => Ret a
  | DavErr err => Throw err
  end.

Definition dav_getDirectoryContents (path : string) : M (list DirEntry) := fun h =>
  let reply := getDirectoryContents w h path in
  (settle_reply reply, [GetDirectoryContents path reply]).

Definition dav_createDirectory (path : string) : M unit := fun h =>
  let reply := createDirectory w h path in
  (settle_reply reply, [CreateDirectory path reply]).

Definition dav_deleteFile (path : string) : M unit := fun h =>
  let reply := deleteFile w h path in
  (settle_reply reply, [DeleteFile path reply]).

(** [moment()] *)
Definition moment : M Moment := fun h => (Ret (clock w h), []).

(** *** The producers

    The promise of a producer is settled by the first handler that calls
    [resolve] or [reject]; a settled promise ignores every later call.  The
    handler of the request stream leaves the process on status code 507.
    [settle] reads the events up to the one that decides what the generator
    sees; what the handlers do on the events after it is [lateExit], in the
    last part of the definitions. *)

Inductive Settlement :=
| Pending
| Resolved
| Rejected (err : JsError)
| Exited (code : Z).

(** What one handler does with its event: nothing, or the settlement it
    causes.  [exitFails] is the test of the ['exit'] handler on the code. *)
Definition react (exitFails : option Z -> bool)
    (exitMessage : option Z -> string) (uploadMessage : Z -> string -> string)
    (file : string) (ev : StreamEvent) : Settlement :=
  match ev with
  | ProcessError err => Rejected err
  | ProcessExit code =>
      if exitFails code
      then Rejected (mkError (exitMessage code) None None (Some file))
      else Pending
  | RequestError err =>
      if status_is (statusCode err) 507 then Exited 1 else Rejected err
  | RequestResponse code statusMessage =>
      if Z.eqb code 201 then Resolved
      else Rejected (mkError (uploadMessage code statusMessage) None None (Some file))
  end.

Fixpoint settle (handler : StreamEvent -> Settlement) (events : list StreamEvent)
    : Settlement :=
  match events with
  | [] => Pending
  | ev :: rest =>
      match handler ev with
      | Pending => settle handler rest
      | settled => settled
      end
  end.

Definition showCode (code : option Z) : string :=
  match code with
  | Some z => toString z
  | None => "null"
  end.

(** [code > 1] of backupTar; a [null] code compares as 0. *)
Definition tarExitFails (code : option Z) : bool :=
  match code with
  | Some z => Z.ltb 1 z
  | None => false
  end.

(** [if (code)] of backupMysql and backupMongo. *)
Definition dbExitFails (code : option Z) : bool :=
  match code with
  | Some z => negb (Z.eqb z 0)
  | None => false
  end.

Definition handlers (fn : Producer) (file : string) : StreamEvent -> Settlement :=
  match fn with
  | Tar =>
      react tarExitFails
        (fun code => "Directory backup failed with code " +++ showCode code)
        (fun code msg => "Directory backup upload failed with " +++ toString code +++ " " +++ msg)
        file
  | Mysql | Mongo =>
      react dbExitFails
        (fun code => "Database backup failed with code " +++ showCode code)
        (fun code msg => "Database backup upload failed with " +++ toString code +++ " " +++ msg)
        file
  end.

Definition putUrl (file : string) : string :=
  davBaseUrl +++ davDir options +++ "/" +++ file.

Definition uploading (file : string) : Action :=
  ConsoleLog ("Uploading: " +++ putUrl file).

(** The events the world delivers for the attempt started after [h]. *)
Definition delivered (fn : Producer) (file : string) (h : Trace) : list StreamEvent :=
  streamEvents w (h ++ [uploading file]) fn.

(** The promise a producer returns, awaited by [backup].  A promise that no
    event settles stays pending until the watchdog of [TIMEOUT] warns and
    leaves the process.  This is the generator as it runs when nothing
    reaches the process from outside of it; the events that follow the one
    that settles the promise, and the watchdog during the other waits, are
    the subject of [process] below. *)
Definition upload (fn : Producer) (file : string) : M unit := fun h =>
  let events := delivered fn file h in
  let piped := [uploading file; Upload fn file events] in
  match settle (handlers fn file) events with
  | Resolved => (Ret tt, piped)
  | Rejected err => (Throw err, piped)
  | Exited code => (Exit code, piped ++ [ConsoleWarn (Str "Not enough storage space")])
  | Pending => (Exit 1, piped ++ [ConsoleWarn (Str "Timeout")])
  end.

(** [${x}] in a template literal. *)
Definition interpolate (o : option string) : string :=
  match o with
  | Some s => s
  | None => "undefined"
  end.

Definition backupTar : M unit :=
  m <- moment ;;
  upload Tar (tarFilename (name options) m).

Definition backupMysql : M unit :=
  m <- moment ;;
  upload Mysql (mysqlFilename (name options) (interpolate (mysqlDb options)) m).

Definition backupMongo : M unit :=
  m <- moment ;;
  upload Mongo (mongoFilename (name options) (interpolate (mongoDb options)) m).

Definition backupFn (fn : Producer) : M unit :=
  match fn with
  | Tar => backupTar
  | Mysql => backupMysql
  | Mongo => backupMongo
  end.

(** *** Bootstrap of the remote directory (the do-while loop) *)

Definition davDirSegments : list string :=
  filter nonempty (split "/" (davDir options)).

Definition segmentedDavDir (i : nat) : string :=
  "/" +++ String.concat "/" (firstn i davDirSegments).

(** One iteration of the loop on depth [i]; the value is [davDirContents]
    after it. *)
Definition bootstrapStep (i : nat) (davDirContents : option (list DirEntry))
    : M (option (list DirEntry)) :=
  try_catch
    (contents <- dav_getDirectoryContents (segmentedDavDir i) ;;
     ret (Some contents))
    (fun err =>
       if status_is (status err) 404 then
         console_log ("Creating directory: " +++ segmentedDavDir i) ;;
         dav_createDirectory (segmentedDavDir i) ;;
         ret davDirContents
       else if status_is (status err) 401 then
         console_warn (Str "Wrong credentials") ;;
         process_exit 1
       else throw err).

(** [remaining] is [davDirSegments.length - i]: the loop goes on while
    [i <= davDirSegments.length] after the increment. *)
Fixpoint bootstrapLoop (remaining : nat) (davDirContents : option (list DirEntry))
    : M (option (list DirEntry)) :=
  contents <- bootstrapStep (List.length davDirSegments - remaining) davDirContents ;;
  match remaining with
  | O => ret contents
  | S remaining' => bootstrapLoop remaining' contents
  end.

Definition bootstrap : M (option (list DirEntry)) :=
  bootstrapLoop (List.length davDirSegments) None.

(** *** Retention *)

Definition isBefore (lastModified : option Z) (obsolete : Z) : bool :=
  match lastModified with
  | Some t => Z.ltb t obsolete
  | None => false
  end.

Definition obsolete (obsoleteMoment : Z) (e : DirEntry) : bool :=
  String.eqb (type e) "file"
  && test (BACKUP_FILENAME_REGEXP (name options)) (basename e)
  && isBefore (momentParse w (lastmod e)) obsoleteMoment.

Fixpoint pruneLoop (obsoleteMoment : Z) (contents : list DirEntry) : M unit :=
  match contents with
  | [] => ret tt
  | e :: rest =>
      (if obsolete obsoleteMoment e then
         console_log ("Deleting old backup: " +++ filename e) ;;
         dav_deleteFile (filename e)
       else ret tt) ;;
      pruneLoop obsoleteMoment rest
  end.

Definition notIterable : JsError :=
  mkError "TypeError: davDirContents is not iterable" None None None.

Definition prune (davDirContents : option (list DirEntry)) : M unit :=
  if gt_zero (daysToKeep options) && lt_Infinity (daysToKeep options) then
    now <- moment ;;
    let obsoleteMoment := (valueOf now - asMilliseconds (daysToKeep options))%Z in
    match davDirContents with
    | Some contents => pruneLoop obsoleteMoment contents
    | None => throw notIterable
    end
  else ret tt.

(** *** Retry and cleanup *)

(** The cleanup of the catch block: delete the broken artifact when the
    error carries its name. *)
Definition cleanup (err : JsError) : M unit :=
  if truthy (backupFilename err) then
    let brokenFilePath := davDir options +++ "/" +++ interpolate (backupFilename err) in
    try_catch
      (console_log ("Deleting broken backup: " +++ brokenFilePath) ;;
       dav_deleteFile brokenFilePath)
      (fun err' =>
         if status_is (status err') 401 then console_warn (Str "Wrong credentials")
         else if negb (status_is (status err') 404) then console_warn (Obj err')
         else ret tt)
  else ret tt.

(** [backup(backupFn, retriesCount)].  The recursion is bounded by [fuel],
    which [backup] sets to the number of retries left. *)
Fixpoint backupRec (fuel : nat) (fn : Producer) (retriesCount : Z) : M unit :=
  try_catch (backupFn fn)
    (fun err =>
       console_warn (Obj err) ;;
       cleanup err ;;
       if Z.ltb retriesCount (retries options) then
         console_log "Retrying" ;;
         emit (Delay RETRY_DELAY) ;;
         match fuel with
         | S fuel' => backupRec fuel' fn (retriesCount + 1)
         | O => ret tt
         end
       else ret tt).

Definition backup (fn : Producer) (retriesCount : Z) : M unit :=
  backupRec (Z.to_nat (retries options - retriesCount)) fn retriesCount.

(** *** The run *)

Definition hasDirs : bool :=
  match dirs options with
  | Some (_ :: _) => true
  | _ => false
  end.

Definition stages : M unit :=
  (if hasDirs then
     backup Tar 0 ;; console_log "Directory dump completed"
   else ret tt) ;;
  (if truthy (mysqlDb options) then
     backup Mysql 0 ;; console_log "MySQL dump completed"
   else ret tt) ;;
  (if truthy (mongoDb options) then
     backup Mongo 0 ;; console_log "MongoDB dump completed"
   else ret tt).

(** The body of the generator passed to [co]. *)
Definition body : M unit :=
  davDirContents <- bootstrap ;;
  prune davDirContents ;;
  stages.

(** The whole program: the exit code of the process and what it did. *)
Definition run : Z * Trace :=
  if negb hasDirs && negb (truthy (mysqlDb options)) && negb (truthy (mongoDb options))
  then (1%Z, [ConsoleLog "No directories or databases to backup"])
  else
    match body [] with
    | (Ret _, t) => (0%Z, t)
    | (Throw err, t) => (1%Z, t ++ [ConsoleError err])
    | (Exit code, t) => (code, t)
    end.

End Program.

(** ** Reading traces *)

Definition isUpload (a : Action) : bool :=
  match a with
  | Upload _ _ _ => true
  | _ => false
  end.

(** The number of producer-and-upload attempts in a trace. *)
Definition attempts (t : Trace) : nat := List.length (filter isUpload t).

(** The remote deletes, the attempts and the delays of a trace, without the
    console output. *)
Definition isRemote (a : Action) : bool :=
  match a with
  | DeleteFile _ _ | Upload _ _ _ | Delay _ => true
  | _ => false
  end.

Definition remote (t : Trace) : Trace := filter isRemote t.

Definition isDelete (a : Action) : bool :=
  match a with
  | DeleteFile _ _ => true
  | _ => false
  end.

(** The paths of the delete requests of a trace, in order. *)
Fixpoint deleted (t : Trace) : list string :=
  match t with
  | [] => []
  | DeleteFile path _ :: rest => path :: deleted rest
  | _ :: rest => deleted rest
  end.

(** ** The shape of the traces of the orchestrator *)

Section Shapes.

Variable o : Options.

(** The path of the cleanup delete for a failure that carries a filename. *)
Definition brokenFilePath (err : JsError) : string :=
  davDir o +++ "/" +++ interpolate (backupFilename err).

(** What the catch block of the cleanup delete prints for a reply. *)
Definition cleanupWarnings (reply : DavReply unit) : Trace :=
  match reply with
  | DavOk _ => []
  | DavErr err =>
      if status_is (status err) 401 then [ConsoleWarn (Str "Wrong credentials")]
      else if status_is (status err) 404 then []
      else [ConsoleWarn (Obj err)]
  end.

Inductive cleanupTrace (err : JsError) : Trace -> Prop :=
| cleanup_skipped :
    truthy (backupFilename err) = false ->
    cleanupTrace err []
| cleanup_deleted reply :
    truthy (backupFilename err) = true ->
    cleanupTrace err
      (ConsoleLog ("Deleting broken backup: " +++ brokenFilePath err)
         :: DeleteFile (brokenFilePath err) reply :: cleanupWarnings reply).

(** The traces of [backup fn c]: one round per attempt. *)
Inductive backupTrace (fn : Producer) : Z -> Trace -> result unit -> Prop :=
| round_resolved c url file evs :
    settle (handlers fn file) evs = Resolved ->
    backupTrace fn c [ConsoleLog url; Upload fn file evs] (Ret tt)
| round_exited c url file evs code :
    settle (handlers fn file) evs = Exited code ->
    backupTrace fn c
      [ConsoleLog url; Upload fn file evs; ConsoleWarn (Str "Not enough storage space")]
      (Exit code)
| round_pending c url file evs :
    settle (handlers fn file) evs = Pending ->
    backupTrace fn c
      [ConsoleLog url; Upload fn file evs; ConsoleWarn (Str "Timeout")] (Exit 1)
| round_last c url file evs err cl :
    settle (handlers fn file) evs = Rejected err ->
    cleanupTrace err cl ->
    (retries o <= c)%Z ->
    backupTrace fn c
      (ConsoleLog url :: Upload fn file evs :: ConsoleWarn (Obj err) :: cl) (Ret tt)
| round_retry c url file evs err cl rest r :
    settle (handlers fn file) evs = Rejected err ->
    cleanupTrace err cl ->
    (c < retries o)%Z ->
    backupTrace fn (c + 1) rest r ->
    backupTrace fn c
      (ConsoleLog url :: Upload fn file evs :: ConsoleWarn (Obj err)
         :: cl ++ ConsoleLog "Retrying" :: Delay RETRY_DELAY :: rest) r.

Definition producerFilename (fn : Producer) (m : Moment) : string :=
  match fn with
  | Tar => tarFilename (name o) m
  | Mysql => mysqlFilename (name o) (interpolate (mysqlDb o)) m
  | Mongo => mongoFilename (name o) (interpolate (mongoDb o)) m
  end.

(** What happens after an attempt, for every attempt of [backup fn c]. *)
Definition afterAttempt (fn : Producer) (c : Z) (pre : Trace) (file : string)
    (evs : list StreamEvent) (post : Trace) (r : result unit) : Prop :=
  match settle (handlers fn file) evs with
  | Resolved => post = [] /\ r = Ret tt
  | Exited code => post = [ConsoleWarn (Str "Not enough storage space")] /\ r = Exit code
  | Pending => post = [ConsoleWarn (Str "Timeout")] /\ r = Exit 1
  | Rejected err =>
      exists cl rest,
        post = ConsoleWarn (Obj err) :: cl ++ rest /\ cleanupTrace err cl /\
        ((rest = [] /\ (retries o <= c + Z.of_nat (attempts pre))%Z /\ r = Ret tt)
         \/ ((c + Z.of_nat (attempts pre) < retries o)%Z /\
             exists url file' evs' rest',
               rest = ConsoleLog "Retrying" :: Delay RETRY_DELAY
                        :: ConsoleLog url :: Upload fn file' evs' :: rest'))
  end.

End Shapes.

(** ** Statements about uploads *)

(** An event that leaves the promise of the producer pending. *)
Definition quiet (fn : Producer) (file : string) (ev : StreamEvent) : Prop :=
  handlers fn file ev = Pending.

(** "The job succeeds if and only if the acknowledgment status is 201", for
    the attempt started after [h]. *)
Definition succeeds_iff_created (w : World) (o : Options) (fn : Producer)
    (file : string) (h : Trace) : Prop :=
  fst (upload w o fn file h) = Ret tt <->
  exists msg, In (RequestResponse 201 msg) (delivered w o fn file h).

(** ** Sample worlds *)

Definition sample_moment : Moment :=
  mkMoment 2024 1 1 0 0 0 0 1704067200000.

Definition sample_options : Options :=
  mkOptions (Some ["/data"%string]) "nightly" PosInfinity 1 "box" "/backup" None None.

(** A store that lists empty directories and accepts every request, with a
    producer given by its events. *)
Definition world_with_events (events : list StreamEvent) : World :=
  mkWorld (fun _ _ => DavOk []) (fun _ _ => DavOk tt) (fun _ _ => DavOk tt)
    (fun _ _ => events) (fun _ => sample_moment) (fun _ => None).

(** The archiver fails with code 2 and the store still answers 201. *)
Definition failed_producer_world : World :=
  world_with_events [ProcessExit (Some 2%Z); RequestResponse 201 "Created"].

(** ** Statements about whole computations *)

(** A computation that never performs an action of the kind [p]. *)
Definition avoids {A} (p : Action -> bool) (m : M A) : Prop :=
  forall h, filter p (snd (m h)) = [].




(** In a result with its trace, a delete request that fails before any
    upload attempt is the request the pruner announced, it is the last
    action, and the result is the error thrown. *)
Definition retention_ok {A} (x : result A * Trace) : Prop :=
  forall pre path err post,
    snd x = pre ++ DeleteFile path (DavErr err) :: post ->
    attempts pre = 0%nat ->
    post = [] /\ fst x = Throw err /\
    exists pre', pre = pre' ++ [ConsoleLog ("Deleting old backup: " +++ path)].

Definition retentionM {A} (m : M A) : Prop := forall h, retention_ok (m h).

(** The negation of the check for missing targets. *)
Definition hasTargets (o : Options) : bool :=
  hasDirs o || truthy (mysqlDb o) || truthy (mongoDb o).

(** "A failed retention delete does not abort the run: the backup stages
    still execute": a delete that fails before the first upload attempt is
    followed by an upload attempt. *)
Definition retention_failure_does_not_abort (w : World) (o : Options) : Prop :=
  forall pre path err post,
    snd (run w o) = pre ++ DeleteFile path (DavErr err) :: post ->
    attempts pre = 0%nat ->
    (1 <= attempts post)%nat.

(** "The exit code is 0 only if every invoked stage eventually succeeded":
    with exit code 0, every producer that was attempted has an attempt whose
    promise was resolved. *)
Definition exit_0_only_if_stages_succeeded (w : World) (o : Options) : Prop :=
  fst (run w o) = 0%Z ->
  forall fn file evs,
    In (Upload fn file evs) (snd (run w o)) ->
    exists file' evs',
      In (Upload fn file' evs') (snd (run w o)) /\
      settle (handlers fn file') evs' = Resolved.

(** Every attempt the world can offer is settled by its events. *)
Definition always_settles (w : World) (o : Options) : Prop :=
  forall h fn file,
    settle (handlers fn file) (delivered w o fn file h) = Resolved
    \/ exists err, settle (handlers fn file) (delivered w o fn file h) = Rejected err.

(** The condition of the pruner on an entry, in the words of the contract:
    a file, named as a backup of this run, last modified strictly before
    [now] minus [days] days. *)
Definition retention_due (w : World) (o : Options) (now days : Z) (e : DirEntry)
    : Prop :=
  type e = "file"%string /\
  test (BACKUP_FILENAME_REGEXP (name o)) (basename e) = true /\
  exists t, momentParse w (lastmod e) = Some t /\ (t < now - days * 86400000)%Z.

(** *** A store with backups to prune *)

Definition now_moment : Moment :=
  mkMoment 2024 1 11 0 0 0 0 1704931200000.

Definition old_backup : DirEntry :=
  mkEntry "file" "Mon, 01 Jan 2024 00:00:00 GMT"
    "/backup/backup-nightly_2024-01-01_00-00-00-000.tgz"
    "backup-nightly_2024-01-01_00-00-00-000.tgz".

Definition older_backup : DirEntry :=
  mkEntry "file" "Mon, 01 Jan 2024 00:00:00 GMT"
    "/backup/backup-nightly_mysql-shop_2023-12-31_00-00-00-000.sql.gz"
    "backup-nightly_mysql-shop_2023-12-31_00-00-00-000.sql.gz".

Definition recent_backup : DirEntry :=
  mkEntry "file" "Wed, 10 Jan 2024 00:00:00 GMT"
    "/backup/backup-nightly_2024-01-10_00-00-00-000.tgz"
    "backup-nightly_2024-01-10_00-00-00-000.tgz".

Definition other_file : DirEntry :=
  mkEntry "file" "Mon, 01 Jan 2024 00:00:00 GMT" "/backup/notes.txt" "notes.txt".

Definition old_directory : DirEntry :=
  mkEntry "directory" "Mon, 01 Jan 2024 00:00:00 GMT"
    "/backup/backup-nightly_2024-01-01_00-00-00-000.tar"
    "backup-nightly_2024-01-01_00-00-00-000.tar".

Definition sample_listing : list DirEntry :=
  [old_backup; recent_backup; other_file; old_directory; older_backup].

Definition sample_parse (lastmod : string) : option Z :=
  if String.eqb lastmod "Mon, 01 Jan 2024 00:00:00 GMT" then Some 1704067200000%Z
  else if String.eqb lastmod "Wed, 10 Jan 2024 00:00:00 GMT" then Some 1704844800000%Z
  else None.

(** A store given by its listings and by its reply to every delete. *)
Definition store_world (listing : string -> DavReply (list DirEntry))
    (deleteReply : DavReply unit) (events : list StreamEvent) : World :=
  mkWorld (fun _ path => listing path) (fun _ _ => DavOk tt)
    (fun _ _ => deleteReply) (fun _ _ => events) (fun _ => now_moment) sample_parse.

Definition backup_listing (path : string) : DavReply (list DirEntry) :=
  if String.eqb path "/backup" then DavOk sample_listing else DavOk [].

Definition created_events : list StreamEvent :=
  [ProcessExit (Some 0%Z); RequestResponse 201 "Created"].

Definition error_500 : JsError :=
  mkError "Internal Server Error" (Some 500%Z) None None.

Definition error_404 : JsError :=
  mkError "Not Found" (Some 404%Z) None None.

(** The store of scenario A: an old backup, seven days to keep. *)
Definition pruning_world : World :=
  store_world backup_listing (DavOk tt) created_events.

(** The same store, refusing every delete. *)
Definition readonly_world : World :=
  store_world backup_listing (DavErr error_500) created_events.

Definition weekly_options : Options :=
  mkOptions (Some ["/data"%string]) "nightly" (Num 7) 1 "box" "/backup" None None.

(** A store that answers every upload with status 500. *)
Definition failing_uploads_world : World :=
  world_with_events [ProcessExit (Some 0%Z); RequestResponse 500 "Internal Server Error"].

(** ** The filename encoding, in the words of the data model

    [backup-<name>_[<kind>-<target>_]<date>_<time>.<ext>] with kind mysql or
    mongo, date [YYYY-MM-DD], time [HH-MM-SS-mmm] and one of five
    extensions. *)

Definition chars : string -> list ascii := list_ascii_of_string.

Definition digits (n : nat) (s : string) : Prop :=
  List.length (chars s) = n /\ Forall (fun c => is_digit c = true) (chars s).

Definition date_shape (s : string) : Prop :=
  exists y m d,
    s = y +++ "-" +++ m +++ "-" +++ d /\ digits 4 y /\ digits 2 m /\ digits 2 d.

Definition time_shape (s : string) : Prop :=
  exists h m sec ms,
    s = h +++ "-" +++ m +++ "-" +++ sec +++ "-" +++ ms /\
    digits 2 h /\ digits 2 m /\ digits 2 sec /\ digits 3 ms.

Definition kind_tag (tag : string) : Prop :=
  tag = ""%string \/
  exists kind target,
    tag = kind +++ "-" +++ target +++ "_" /\
    (kind = "mysql"%string \/ kind = "mongo"%string) /\ target <> ""%string.

Definition BackupFilename (name s : string) : Prop :=
  exists tag date time ext,
    s = "backup-" +++ name +++ "_" +++ tag +++ date +++ "_" +++ time +++ "." +++ ext /\
    kind_tag tag /\ date_shape date /\ time_shape time /\
    In ext ["tgz"; "tar"; "tar.gz"; "sql"; "sql.gz"]%string.

(** [/^[a-z0-9]+$/i], the check of the option [name]. *)
Definition is_alphanumeric (c : ascii) : bool :=
  let n := nat_of_ascii c in
  ((48 <=? n) && (n <=? 57) || (65 <=? n) && (n <=? 90) || (97 <=? n) && (n <=? 122))%nat.

Definition alphanumeric (s : string) : bool :=
  nonempty s && forallb is_alphanumeric (chars s).

(** A string without line terminators: every character is matched by [.]. *)
Definition single_line (s : string) : bool := forallb is_dot (chars s).

(** "Every filename the producers generate matches the pattern", for one
    run name, database name and moment. *)
Definition producer_names_match (name db : string) (m : Moment) : Prop :=
  test (BACKUP_FILENAME_REGEXP name) (tarFilename name m) = true /\
  test (BACKUP_FILENAME_REGEXP name) (mysqlFilename name db m) = true /\
  test (BACKUP_FILENAME_REGEXP name) (mongoFilename name db m) = true.

(** ** What a pattern can consume

    [den r u s] reads: the pattern [r] can consume [u] when [s] is what
    follows. *)
Fixpoint den (r : regex) (u s : list ascii) : Prop :=
  match r with
  | Empty => u = []
  | Lit l => u = chars l
  | Class p => exists c, u = [c] /\ p c = true
  | Seq r1 r2 => exists u1 u2, u = u1 ++ u2 /\ den r1 u1 (u2 ++ s) /\ den r2 u2 s
  | Alt r1 r2 => den r1 u s \/ den r2 u s
  | Group _ r' => den r' u s
  | LazyPlus p => u <> [] /\ Forall (fun c => p c = true) u
  | Eos => u = [] /\ s = []
  end.

(** The continuation of a whole match: the captures are the answer. *)
Definition accept : list ascii -> Captures -> option Captures :=
  fun _ caps => Some caps.

(** A pattern without choice that consumes [u] and hands over to whatever
    follows. *)
Definition consumes (r : regex) (u : list ascii) : Prop :=
  forall s caps k, rmatch r (u ++ s) caps k = k s caps.

Definition error_401 : JsError :=
  mkError "Unauthorized" (Some 401%Z) None None.


Definition socket_error : JsError :=
  mkError "socket hang up" None None None.

Definition failing_upload_events : list StreamEvent :=
  [ProcessExit (Some 0%Z); RequestResponse 500 "Internal Server Error"].

Definition failing_upload_error : JsError :=
  mkError "Directory backup upload failed with 500 Internal Server Error"
    None None (Some (tarFilename "nightly" sample_moment)).

(** The request stream breaks without any status. *)
Definition broken_stream_world : World :=
  world_with_events [RequestError socket_error].


(** Uploads fail with status 500 and the cleanup delete is refused with
    status 401. *)
Definition unauthorized_cleanup_world : World :=
  mkWorld (fun _ _ => DavOk []) (fun _ _ => DavOk tt) (fun _ _ => DavErr error_401)
    (fun _ _ => failing_upload_events) (fun _ => sample_moment) (fun _ => None).

(** *** The first run against a store without the backup directory

    The root of the store holds an old backup of the same run name; the
    directory [/backup] does not exist yet. *)

Definition root_backup : DirEntry :=
  mkEntry "file" "Mon, 01 Jan 2024 00:00:00 GMT"
    "/backup-nightly_2024-01-01_00-00-00-000.tgz"
    "backup-nightly_2024-01-01_00-00-00-000.tgz".

Definition first_run_listing (path : string) : DavReply (list DirEntry) :=
  if String.eqb path "/" then DavOk [root_backup] else DavErr error_404.

Definition first_run_world : World :=
  store_world first_run_listing (DavOk tt) created_events.

(** ** Reading the trace of the bootstrap *)

(** The paths of the listing requests of a trace, in order. *)
Fixpoint listed (t : Trace) : list string :=
  match t with
  | [] => []
  | GetDirectoryContents path _ :: rest => path :: listed rest
  | _ :: rest => listed rest
  end.

(** The last listing of a trace that succeeded, or [c] when there is none. *)
Fixpoint lastListing (c : option (list DirEntry)) (t : Trace)
    : option (list DirEntry) :=
  match t with
  | [] => c
  | GetDirectoryContents _ (DavOk contents) :: rest => lastListing (Some contents) rest
  | _ :: rest => lastListing c rest
  end.

(** ** Statements about the exit of a computation *)

(** A computation that leaves the process only with exit code 1. *)
Definition exits1 {A} (m : M A) : Prop :=
  forall h code, fst (m h) = Exit code -> code = 1%Z.

(** How a computation ends after an interaction that is fatal. *)
Inductive Ending :=
| Throws (err : JsError)
| Exits (code : Z).

Definition ends {A} (r : result A) (e : Ending) : Prop :=
  match e with
  | Throws err => r = Throw err
  | Exits code => r = Exit code
  end.

(** The interactions that end the generator wherever they happen, with
    what the program still prints and how it ends: a listing that fails
    with another status than 404, a directory that cannot be created, an
    upload that is answered with status 507, and an upload that no event
    settles. *)
Definition fatal (a : Action) : option (Trace * Ending) :=
  match a with
  | GetDirectoryContents _ (DavErr err) =>
      if status_is (status err) 404 then None
      else if status_is (status err) 401
           then Some ([ConsoleWarn (Str "Wrong credentials")], Exits 1)
           else Some ([], Throws err)
  | CreateDirectory _ (DavErr err) => Some ([], Throws err)
  | Upload fn file events =>
      match settle (handlers fn file) events with
      | Exited code => Some ([ConsoleWarn (Str "Not enough storage space")], Exits code)
      | Pending => Some ([ConsoleWarn (Str "Timeout")], Exits 1)
      | _ => None
      end
  | _ => None
  end.

(** In a result with its trace, a fatal interaction is followed by its
    message only and decides the result. *)
Definition halts_ok {A} (x : result A * Trace) : Prop :=
  forall pre a post tail e,
    snd x = pre ++ a :: post ->
    fatal a = Some (tail, e) ->
    post = tail /\ ends (fst x) e.

Definition haltsM {A} (m : M A) : Prop := forall h, halts_ok (m h).

(** The actions of the bootstrap: listings and creations of directories. *)
Definition isSetup (a : Action) : bool :=
  match a with
  | GetDirectoryContents _ _ | CreateDirectory _ _ => true
  | _ => false
  end.

(** The producers of the upload attempts of a trace, in order. *)
Fixpoint producers (t : Trace) : list Producer :=
  match t with
  | [] => []
  | Upload fn _ _ :: rest => fn :: producers rest
  | _ :: rest => producers rest
  end.

(** The delays of a trace, in order. *)
Fixpoint delays (t : Trace) : list Z :=
  match t with
  | [] => []
  | Delay ms :: rest => ms :: delays rest
  | _ :: rest => delays rest
  end.

Definition isFatal (a : Action) : bool :=
  match fatal a with
  | Some _ => true
  | None => false
  end.

(** What the run still prints after the generator ended that way. *)
Definition lastWords (e : Ending) : Trace :=
  match e with
  | Throws err => [ConsoleError err]
  | Exits _ => []
  end.

(** In a trace, a listing that failed with status 404 is followed by the
    announcement and the request to create that directory. *)
Definition creates_ok (t : Trace) : Prop :=
  forall pre path err post,
    t = pre ++ GetDirectoryContents path (DavErr err) :: post ->
    status err = Some 404%Z ->
    exists reply rest,
      post = ConsoleLog ("Creating directory: " +++ path)
               :: CreateDirectory path reply :: rest.

Definition createsM {A} (m : M A) : Prop := forall h, creates_ok (snd (m h)).

(** *** Stores that fail during the bootstrap *)

(** The store rejects the credentials. *)
Definition unauthorized_world : World :=
  store_world (fun _ => DavErr error_401) (DavOk tt) created_events.

(** The store has no directory [/backup] and refuses to create it. *)
Definition no_mkdir_world : World :=
  mkWorld (fun _ path => first_run_listing path) (fun _ _ => DavErr error_500)
    (fun _ _ => DavOk tt) (fun _ _ => created_events) (fun _ => now_moment)
    sample_parse.


(** A store on which no listing succeeds: every directory is reported
    missing and is created. *)
Definition empty_store_world : World :=
  store_world (fun _ => DavErr error_404) (DavOk tt) created_events.

(** ** The names the pattern accepts *)

(** The optional kind tag with a target that [.+?] can match: not empty and
    without line terminator. *)
Definition kind_tag_line (tag : string) : Prop :=
  tag = ""%string \/
  exists kind target,
    tag = kind +++ "-" +++ target +++ "_" /\
    (kind = "mysql"%string \/ kind = "mongo"%string) /\
    target <> ""%string /\ single_line target = true.

(** [backup-<name>_[<kind>-<target>_]<date>_<time>.<ext>] *)
Definition Encoded (name s : string) : Prop :=
  exists tag date time ext,
    s = "backup-" +++ name +++ "_" +++ tag +++ date +++ "_" +++ time +++ "." +++ ext /\
    kind_tag_line tag /\ date_shape date /\ time_shape time /\
    In ext ["tgz"; "tar"; "tar.gz"; "sql"; "sql.gz"]%string.

(** ** The attempts of a run *)

(** Whether the job of a producer is configured. *)
Definition configured (o : Options) (fn : Producer) : bool :=
  match fn with
  | Tar => hasDirs o
  | Mysql => truthy (mysqlDb o)
  | Mongo => truthy (mongoDb o)
  end.

(** In a trace that follows the history [h], every attempt is announced
    with its URL, is named by its producer from the clock read at that
    point, receives the events the world delivers there, and belongs to a
    configured job. *)
Definition announced (w : World) (o : Options) (h t : Trace) : Prop :=
  forall pre fn file evs post,
    t = pre ++ Upload fn file evs :: post ->
    exists pre',
      pre = pre' ++ [ConsoleLog ("Uploading: " +++ putUrl o file)] /\
      file = producerFilename o fn (clock w (h ++ pre')) /\
      evs = streamEvents w (h ++ pre) fn /\
      configured o fn = true.

Definition announcedM {A} (w : World) (o : Options) (m : M A) : Prop :=
  forall h, announced w o h (snd (m h)).

(** ** The option [davDir] *)

(** [path.replace(/\/$/, '')] on a path that does not start with a slash:
    the slash at the very end is removed. *)
Fixpoint dropTrailingSlash (path : string) : string :=
  match path with
  | EmptyString => EmptyString
  | String c EmptyString => if Ascii.eqb c "/" then EmptyString else path
  | String c rest => String c (dropTrailingSlash rest)
  end.

(** [path.replace(/^\/|\/$/, '')]: without the flag [g] only the first
    match is replaced, which is the slash at the start when the path has
    one and the slash at the end otherwise. *)
Definition replaceEdgeSlash (path : string) : string :=
  match path with
  | EmptyString => EmptyString
  | String c rest => if Ascii.eqb c "/" then rest else dropTrailingSlash path
  end.

(** The [coerce] of the option [davDir] in [parseOptions]:
    [path => '/' + path.replace(/^\/|\/$/, '')]. *)
Definition coerceDavDir (path : string) : string :=
  "/" +++ replaceEdgeSlash path.

(** A path segment: not empty and without slash. *)
Definition segment (s : string) : bool :=
  nonempty s && forallb (fun c => negb (Ascii.eqb c "/")) (chars s).

(** ** The defaults of the connection options *)

Inductive JsValue :=
| VString (s : string)
| VNumber (z : Z).

(** The options object as yargs returns it, read by key; [None] is
    [undefined]. *)
Definition JsObject := string -> option JsValue.

(** [options[key] = value] *)
Definition setProperty (options : JsObject) (key : string) (value : JsValue)
    : JsObject :=
  fun k => if String.eqb k key then Some value else options k.

Definition defaultOptions : list (string * JsValue) :=
  [("mysqlHost", VString "localhost");
   ("mysql-host", VString "localhost");
   ("mysqlPort", VNumber 3306);
   ("mysql-port", VNumber 3306);
   ("mongoHost", VString "localhost");
   ("mongo-host", VString "localhost");
   ("mongoPort", VNumber 27017);
   ("mongo-port", VNumber 27017)]%string.

(** [defaultOptions[key]] *)
Fixpoint defaultOf (defaults : list (string * JsValue)) (key : string)
    : option JsValue :=
  match defaults with
  | [] => None
  | (k, v) :: rest => if String.eqb key k then Some v else defaultOf rest key
  end.

(** The loop over [Object.keys(defaultOptions)]: a key whose value is
    [undefined] receives its default. *)
Fixpoint mergeDefaults (defaults : list (string * JsValue)) (options : JsObject)
    : JsObject :=
  match defaults with
  | [] => options
  | (key, value) :: rest =>
      mergeDefaults rest
        (match options key with
         | None => setProperty options key value
         | Some _ => options
         end)
  end.

Definition applyDefaults (options : JsObject) : JsObject :=
  mergeDefaults defaultOptions options.

(** ** What ends the process from outside of the generator

    The generator above runs from one wait to the next.  While it waits,
    and only then, the event loop runs the watchdog timer of [TIMEOUT] and
    delivers the events that the child process and the request stream of an
    attempt still send after the promise of that attempt was settled.  The
    handlers run on these events as on the others: [resolve] and [reject] do
    nothing any more on a settled promise, the ['error'] handler of the
    request stream still leaves the process on status code 507. *)

(** The actions the generator waits for. *)
Definition awaits (a : Action) : bool :=
  match a with
  | GetDirectoryContents _ _ | CreateDirectory _ _ | DeleteFile _ _
  | Upload _ _ _ | Delay _ => true
  | _ => false
  end.

(** The events of an attempt that follow the one that settled its promise. *)
Fixpoint afterSettlement (handler : StreamEvent -> Settlement)
    (events : list StreamEvent) : list StreamEvent :=
  match events with
  | [] => []
  | ev :: rest =>
      match handler ev with
      | Pending => afterSettlement handler rest
      | _ => rest
      end
  end.

(** The first [process.exit] the handlers call on a list of events, whatever
    the state of the promise. *)
Fixpoint firstExit (handler : StreamEvent -> Settlement)
    (events : list StreamEvent) : option Z :=
  match events with
  | [] => None
  | ev :: rest =>
      match handler ev with
      | Exited code => Some code
      | _ => firstExit handler rest
      end
  end.

(** The [process.exit] that an attempt still has in store when its promise
    is resolved or rejected. *)
Definition lateExit (handler : StreamEvent -> Settlement)
    (events : list StreamEvent) : option Z :=
  match settle handler events with
  | Resolved | Rejected _ => firstExit handler (afterSettlement handler events)
  | Pending | Exited _ => None
  end.

(** The exit that the attempts of a history still have in store. *)
Fixpoint armed (h : Trace) : option Z :=
  match h with
  | [] => None
  | Upload fn file events :: rest =>
      match lateExit (handlers fn file) events with
      | Some code => Some code
      | None => armed rest
      end
  | _ :: rest => armed rest
  end.

Definition total (l : list Z) : Z := fold_right Z.add 0%Z l.

(** The time in milliseconds since the start of the process, when the
    history is [h]: what the clock says, and at least the delays that were
    waited for. *)
Definition elapsed (w : World) (h : Trace) : Z :=
  Z.max (valueOf (clock w h) - valueOf (clock w [])) (total (delays h)).

Definition endsWithUpload (h : Trace) : bool :=
  match rev h with
  | Upload _ _ _ :: _ => true
  | _ => false
  end.

(** What reaches the process when the history is [h] and the generator is
    about to perform [a], with the exit code and the warning: the watchdog
    when [a] is a wait and the timer is already due; then the exit that a
    settled attempt had in store, when the world delivers it at this point
    ([late h]), which it can do during a wait or straight after the events
    that settled the attempt; then the watchdog when the timer gets due
    before the wait for [a] is over. *)
Definition interrupt (w : World) (late : Trace -> bool) (h : Trace) (a : Action)
    : option (Z * string) :=
  if awaits a && (TIMEOUT <=? elapsed w h)%Z then Some (1%Z, "Timeout"%string)
  else
    match (if (awaits a || endsWithUpload h) && late h then armed h else None) with
    | Some code => Some (code, "Not enough storage space"%string)
    | None =>
        if awaits a && (TIMEOUT <=? elapsed w (h ++ [a]))%Z
        then Some (1%Z, "Timeout"%string)
        else None
    end.

(** What the process has done of the trace [t] of the generator when it
    ends, and what ended it before the generator did.  The request the
    process is waiting for when it ends is not part of what it did: its
    answer never came. *)
Fixpoint cut (w : World) (late : Trace -> bool) (h t : Trace)
    : Trace * option (Z * string) :=
  match t with
  | [] => ([], None)
  | a :: rest =>
      match interrupt w late h a with
      | Some i => ([], Some i)
      | None =>
          let (done, i) := cut w late (h ++ [a]) rest in (a :: done, i)
      end
  end.

(** The process: the run of the generator, cut short by the watchdog
    ([console.warn('Timeout'); process.exit(1)]) or by a late 507
    ([console.warn('Not enough storage space'); process.exit(1)]). *)
Definition process (w : World) (late : Trace -> bool) (o : Options) : Z * Trace :=
  match cut w late [] (snd (run w o)) with
  | (done, Some (code, warning)) => (code, done ++ [ConsoleWarn (Str warning)])
  | (_, None) => run w o
  end.

(** The watchdog is not due at any point of the trace. *)
Definition in_time (w : World) (t : Trace) : bool :=
  forallb (fun k => (elapsed w (firstn k t) <? TIMEOUT)%Z) (seq 0 (S (List.length t))).

(** No event of any attempt of the trace makes a handler leave the process,
    neither before nor after the promise is settled. *)
Definition no_exit_event (t : Trace) : bool :=
  forallb (fun a =>
             match a with
             | Upload fn file events =>
                 match firstExit (handlers fn file) events with
                 | Some _ => false
                 | None => true
                 end
             | _ => true
             end) t.



(** The late events arrive as soon as they can. *)
Definition at_once (h : Trace) : bool := true.


(** ** General facts about the monad and about lists *)

Lemma bind_inv {A B} (m : M A) (f : A -> M B) h r t :
  bind m f h = (r, t) ->
  (exists a t1 t2, m h = (Ret a, t1) /\ f a (h ++ t1) = (r, t2) /\ t = t1 ++ t2)
  \/ (exists err, m h = (Throw err, t) /\ r = Throw err)
  \/ (exists code, m h = (Exit code, t) /\ r = Exit code).
Proof.
  unfold bind. destruct (m h) as [[a | err | code] t1].
  - destruct (f a (h ++ t1)) as [r' t2] eqn:E. intros H; inversion H; subst.
    left. exists a, t1, t2. auto.
  - intros H; inversion H; subst. right; left. eauto.
  - intros H; inversion H; subst. right; right. eauto.
Qed.

Lemma bind_ret {A B} (m : M A) (f : A -> M B) h a t1 :
  m h = (Ret a, t1) ->
  bind m f h = (fst (f a (h ++ t1)), t1 ++ snd (f a (h ++ t1))).
Proof.
  intros E. unfold bind. rewrite E. destruct (f a (h ++ t1)); reflexivity.
Qed.

Lemma bind_throw {A B} (m : M A) (f : A -> M B) h err t1 :
  m h = (Throw err, t1) -> bind m f h = (Throw err, t1).
Proof. intros E. unfold bind. rewrite E. reflexivity. Qed.

Lemma bind_exit {A B} (m : M A) (f : A -> M B) h code t1 :
  m h = (Exit code, t1) -> bind m f h = (Exit code, t1).
Proof. intros E. unfold bind. rewrite E. reflexivity. Qed.

Lemma try_catch_throw {A} (m : M A) handler h err t1 :
  m h = (Throw err, t1) ->
  try_catch m handler h = (fst (handler err (h ++ t1)), t1 ++ snd (handler err (h ++ t1))).
Proof.
  intros E. unfold try_catch. rewrite E. destruct (handler err (h ++ t1)); reflexivity.
Qed.

Lemma try_catch_ret {A} (m : M A) handler h a t1 :
  m h = (Ret a, t1) -> try_catch m handler h = (Ret a, t1).
Proof. intros E. unfold try_catch. rewrite E. reflexivity. Qed.

Lemma try_catch_exit {A} (m : M A) handler h code t1 :
  m h = (Exit code, t1) -> try_catch m handler h = (Exit code, t1).
Proof. intros E. unfold try_catch. rewrite E. reflexivity. Qed.

Lemma pair_eta {A B} (p : A * B) : p = (fst p, snd p).
Proof. destruct p; reflexivity. Qed.

(** Where an element of a concatenation lies. *)
Lemma app_eq_elt {A} (l1 l2 pre post : list A) (x : A) :
  l1 ++ l2 = pre ++ x :: post ->
  (exists post1, l1 = pre ++ x :: post1 /\ post = post1 ++ l2)
  \/ (exists pre2, pre = l1 ++ pre2 /\ l2 = pre2 ++ x :: post).
Proof.
  revert pre. induction l1 as [| a l1 IH]; intros pre H.
  - right. exists pre. auto.
  - destruct pre as [| b pre]; simpl in H; inversion H; subst.
    + left. exists l1. auto.
    + destruct (IH _ H2) as [[post1 [E1 E2]] | [pre2 [E1 E2]]]; subst.
      * left. exists post1. auto.
      * right. exists pre2. auto.
Qed.

Lemma attempts_app t1 t2 : attempts (t1 ++ t2) = (attempts t1 + attempts t2)%nat.
Proof. unfold attempts. rewrite filter_app, length_app. reflexivity. Qed.

Lemma remote_app t1 t2 : remote (t1 ++ t2) = remote t1 ++ remote t2.
Proof. apply filter_app. Qed.

Lemma deleted_app t1 t2 : deleted (t1 ++ t2) = deleted t1 ++ deleted t2.
Proof.
  induction t1 as [| a t1 IH]; simpl; auto.
  destruct a; simpl; rewrite ?IH; reflexivity.
Qed.

(** ** The retry and cleanup orchestrator *)

Section Orchestrator.

Variable w : World.
Variable o : Options.

Lemma cleanup_conforms err h :
  exists cl, cleanup w o err h = (Ret tt, cl) /\ cleanupTrace o err cl.
Proof.
  unfold cleanup. destruct (truthy (backupFilename err)) eqn:T.
  - unfold try_catch, bind, console_log, emit, dav_deleteFile; simpl.
    destruct (deleteFile w _ _) as [[] | err'] eqn:R; simpl.
    + eexists; split; [reflexivity |].
      apply (cleanup_deleted o err (DavOk tt)); assumption.
    + unfold console_warn, emit, ret.
      destruct (status_is (status err') 401) eqn:S1;
        [| destruct (status_is (status err') 404) eqn:S2]; simpl;
        (eexists; split; [reflexivity |]);
        pose proof (cleanup_deleted o err (DavErr err') T) as C;
        simpl in C; rewrite S1 in C; try rewrite S2 in C; exact C.
  - exists []. split; [reflexivity | constructor; assumption].
Qed.

Lemma backupFn_upload fn h :
  backupFn w o fn h = upload w o fn (producerFilename o fn (clock w h)) h.
Proof.
  destruct fn; unfold backupFn, backupTar, backupMysql, backupMongo, bind, moment;
    simpl; rewrite app_nil_r; destruct (upload _ _ _ _ _); reflexivity.
Qed.

Lemma bind_emit {B} a (f : unit -> M B) h :
  bind (emit a) f h = (fst (f tt (h ++ [a])), a :: snd (f tt (h ++ [a]))).
Proof. apply (bind_ret (emit a) f h tt [a] eq_refl). Qed.

Lemma backupRec_conforms fn : forall n c h,
  (Z.to_nat (retries o - c) <= n)%nat ->
  backupTrace o fn c (snd (backupRec w o n fn c h)) (fst (backupRec w o n fn c h)).
Proof.
  induction n as [| n IH]; intros c h Hn; simpl;
    pose proof (backupFn_upload fn h) as U; unfold upload in U;
    (destruct (settle _ _) as [| | err | code] eqn:S;
     [ rewrite (try_catch_exit _ _ _ _ _ U); eapply round_pending; eassumption
     | rewrite (try_catch_ret _ _ _ _ _ U); eapply round_resolved; eassumption
     | rewrite (try_catch_throw _ _ _ _ _ U)
     | rewrite (try_catch_exit _ _ _ _ _ U); eapply round_exited; eassumption ]);
    unfold console_warn, console_log; rewrite bind_emit;
    match goal with
    | |- context [bind (cleanup w o err) _ ?hh] =>
        destruct (cleanup_conforms err hh) as [cl [E C]]
    end;
    rewrite (bind_ret _ _ _ _ _ E);
    destruct (c <? retries o)%Z eqn:L; simpl.
  - (* no fuel is left, so no retry is *) lia.
  - rewrite app_nil_r. eapply round_last; try eassumption. lia.
  - rewrite !bind_emit. simpl.
    eapply round_retry; try eassumption; [lia |].
    apply IH. lia.
  - rewrite app_nil_r. eapply round_last; try eassumption. lia.
Qed.

Lemma backup_conforms fn c h :
  backupTrace o fn c (snd (backup w o fn c h)) (fst (backup w o fn c h)).
Proof.
  unfold backup. apply backupRec_conforms. apply Nat.le_refl.
Qed.

Lemma cleanupTrace_attempts err cl : cleanupTrace o err cl -> attempts cl = 0%nat.
Proof.
  intros C; inversion C; subst; auto.
  unfold attempts; simpl. destruct reply as [u | e]; simpl; auto.
  destruct (status_is (status e) 401); [| destruct (status_is (status e) 404)]; auto.
Qed.

Lemma no_attempt_elt t pre fn file evs post :
  attempts t = 0%nat -> t <> pre ++ Upload fn file evs :: post.
Proof.
  intros H E. subst. rewrite attempts_app in H. unfold attempts in H.
  simpl in H. lia.
Qed.

Lemma backupTrace_head fn c t r :
  backupTrace o fn c t r ->
  exists url file evs rest, t = ConsoleLog url :: Upload fn file evs :: rest.
Proof. intros B; inversion B; subst; eauto. Qed.

Lemma round_elt url fn f e tail pre fn' file evs post :
  ConsoleLog url :: Upload fn f e :: tail = pre ++ Upload fn' file evs :: post ->
  (pre = [ConsoleLog url] /\ fn' = fn /\ file = f /\ evs = e /\ post = tail)
  \/ (exists pre', pre = ConsoleLog url :: Upload fn f e :: pre' /\
                   tail = pre' ++ Upload fn' file evs :: post).
Proof.
  intros E. destruct pre as [| a [| b pre]]; simpl in E.
  - discriminate.
  - inversion E; subst. left. auto.
  - inversion E; subst. right. eauto.
Qed.

Lemma backupTrace_round fn c t r :
  backupTrace o fn c t r ->
  forall pre fn' file evs post,
    t = pre ++ Upload fn' file evs :: post ->
    fn' = fn /\ afterAttempt o fn c pre file evs post r.
Proof.
  unfold afterAttempt.
  induction 1 as [c url f e S | c url f e code S | c url f e S
                 | c url f e err cl S C L | c url f e err cl rest r S C L B IH];
    intros pre fn' file evs post E;
    (apply round_elt in E;
     destruct E as [[Ep [Ef [Ei [Ee Et]]]] | [pre' [Ep Et]]]; subst;
     [ split; [reflexivity |]; rewrite S | ]).
  - auto.
  - destruct pre'; discriminate.
  - auto.
  - destruct pre' as [| ? [| ? ?]]; discriminate.
  - auto.
  - destruct pre' as [| ? [| ? ?]]; discriminate.
  - exists cl, []. rewrite app_nil_r. split; [reflexivity |]. split; [assumption |].
    left. unfold attempts; simpl. split; [reflexivity | split; [lia | reflexivity]].
  - destruct pre' as [| a pre]; [discriminate |]. injection Et as Ea Et.
    exfalso. exact (no_attempt_elt _ _ _ _ _ _ (cleanupTrace_attempts _ _ C) Et).
  - exists cl, (ConsoleLog "Retrying" :: Delay RETRY_DELAY :: rest).
    split; [reflexivity |]. split; [assumption |]. right.
    unfold attempts; simpl. split; [lia |].
    destruct (backupTrace_head _ _ _ _ B) as [url' [f' [e' [tl Et]]]]. subst rest.
    eauto.
  - destruct pre' as [| a pre]; [discriminate |]. injection Et as Ea Et.
    apply app_eq_elt in Et.
    destruct Et as [[post1 [E1 _]] | [pre2 [E1 E2]]].
    + exfalso. exact (no_attempt_elt _ _ _ _ _ _ (cleanupTrace_attempts _ _ C) E1).
    + destruct pre2 as [| x [| y pre3]]; simpl in E2; try discriminate.
      injection E2 as Ex Ey E2. subst.
      destruct (IH _ _ _ _ _ eq_refl) as [Ef IH']. split; [assumption |].
      replace (c + Z.of_nat (attempts (ConsoleLog url :: Upload fn f e
                 :: ConsoleWarn (Obj err) :: cl ++ ConsoleLog "Retrying"
                 :: Delay RETRY_DELAY :: pre3)))%Z
        with (c + 1 + Z.of_nat (attempts pre3))%Z; [exact IH' |].
      change (ConsoleLog url :: Upload fn f e :: ConsoleWarn (Obj err)
                :: cl ++ ConsoleLog "Retrying" :: Delay RETRY_DELAY :: pre3)
        with ([ConsoleLog url; Upload fn f e; ConsoleWarn (Obj err)]
                ++ cl ++ [ConsoleLog "Retrying"; Delay RETRY_DELAY] ++ pre3).
      rewrite !attempts_app, (cleanupTrace_attempts _ _ C).
      change (attempts [ConsoleLog url; Upload fn f e; ConsoleWarn (Obj err)]) with 1%nat.
      change (attempts [ConsoleLog "Retrying"; Delay RETRY_DELAY]) with 0%nat.
      lia.
Qed.

Lemma backupTrace_attempts fn c t r :
  backupTrace o fn c t r ->
  (1 <= attempts t <= Z.to_nat (retries o - c) + 1)%nat.
Proof.
  induction 1 as [c url f e S | c url f e code S | c url f e S
                 | c url f e err cl S C L | c url f e err cl rest r S C L B IH];
    try (unfold attempts; simpl; lia).
  - change (ConsoleLog url :: Upload fn f e :: ConsoleWarn (Obj err) :: cl)
      with ([ConsoleLog url; Upload fn f e; ConsoleWarn (Obj err)] ++ cl).
    rewrite attempts_app, (cleanupTrace_attempts _ _ C).
    change (attempts [ConsoleLog url; Upload fn f e; ConsoleWarn (Obj err)]) with 1%nat.
    lia.
  - change (ConsoleLog url :: Upload fn f e :: ConsoleWarn (Obj err)
              :: cl ++ ConsoleLog "Retrying" :: Delay RETRY_DELAY :: rest)
      with ([ConsoleLog url; Upload fn f e; ConsoleWarn (Obj err)]
              ++ cl ++ [ConsoleLog "Retrying"; Delay RETRY_DELAY] ++ rest).
    rewrite !attempts_app, (cleanupTrace_attempts _ _ C).
    change (attempts [ConsoleLog url; Upload fn f e; ConsoleWarn (Obj err)]) with 1%nat.
    change (attempts [ConsoleLog "Retrying"; Delay RETRY_DELAY]) with 0%nat.
    lia.
Qed.

Lemma backupTrace_result fn c t r :
  backupTrace o fn c t r -> r = Ret tt \/ exists code, r = Exit code.
Proof. induction 1; eauto. Qed.

Lemma cleanupWarnings_no_delete reply pre path reply' post :
  cleanupWarnings reply <> pre ++ DeleteFile path reply' :: post.
Proof.
  destruct reply as [u | e]; simpl.
  - destruct pre; discriminate.
  - destruct (status_is (status e) 401); [| destruct (status_is (status e) 404)];
      destruct pre as [| ? [| ? ?]]; discriminate.
Qed.

(** Where a delete request lies in the trace of a cleanup. *)
Lemma cleanupTrace_delete err cl pre path reply post :
  cleanupTrace o err cl ->
  cl = pre ++ DeleteFile path reply :: post ->
  pre = [ConsoleLog ("Deleting broken backup: " +++ brokenFilePath o err)]
  /\ path = brokenFilePath o err /\ post = cleanupWarnings reply.
Proof.
  intros C E. subst cl. inversion C as [T Ec | reply' T Ec].
  - destruct pre; discriminate.
  - destruct pre as [| ? [| ? pre]]; try discriminate.
    + inversion Ec; subst. auto.
    + exfalso. injection Ec as _ _ Ec.
      exact (cleanupWarnings_no_delete _ _ _ _ _ Ec).
Qed.

(** The cleanup delete of a round, seen from the delete request. *)
Lemma backupTrace_delete fn c t r :
  backupTrace o fn c t r ->
  forall pre path reply post,
    t = pre ++ DeleteFile path reply :: post ->
    exists rest,
      post = cleanupWarnings reply ++ rest /\
      ((rest = [] /\ (retries o < c + Z.of_nat (attempts pre))%Z /\ r = Ret tt)
       \/ ((c + Z.of_nat (attempts pre) <= retries o)%Z /\
           exists url file' evs' rest',
             rest = ConsoleLog "Retrying" :: Delay RETRY_DELAY
                      :: ConsoleLog url :: Upload fn file' evs' :: rest')).
Proof.
  induction 1 as [c url f e S | c url f e code S | c url f e S
                 | c url f e err cl S C L | c url f e err cl rest r S C L B IH];
    intros pre path reply post E.
  - destruct pre as [| ? [| ? [| ? ?]]]; discriminate.
  - destruct pre as [| ? [| ? [| ? [| ? ?]]]]; discriminate.
  - destruct pre as [| ? [| ? [| ? [| ? ?]]]]; discriminate.
  - destruct pre as [| a1 [| a2 [| a3 pre]]]; try discriminate.
    injection E as E1 E2 E3 E.
    destruct (cleanupTrace_delete _ _ _ _ _ _ C E) as [Ep [Epath Epost]]. subst.
    exists []. rewrite app_nil_r. split; [reflexivity |]. left.
    unfold attempts; simpl. repeat split; lia.
  - destruct pre as [| a1 [| a2 [| a3 pre]]]; try discriminate.
    injection E as E1 E2 E3 E.
    apply app_eq_elt in E. destruct E as [[post1 [E4 E5]] | [pre2 [E4 E5]]].
    + (* the delete of this round *)
      destruct (cleanupTrace_delete _ _ _ _ _ _ C E4) as [Ep [Epath Epost]]. subst.
      exists (ConsoleLog "Retrying" :: Delay RETRY_DELAY :: rest).
      split; [reflexivity |]. right. unfold attempts; simpl. split; [lia |].
      destruct (backupTrace_head _ _ _ _ B) as [url' [f' [e' [tl Et]]]].
      subst rest. eauto.
    + destruct pre2 as [| x [| y pre3]]; simpl in E5; try discriminate.
      injection E5 as Ex Ey E5. subst.
      destruct (IH _ _ _ _ eq_refl) as [rest0 [Ep IH']].
      exists rest0. split; [assumption |].
      replace (c + Z.of_nat (attempts (ConsoleLog url :: Upload fn f e
                 :: ConsoleWarn (Obj err) :: cl ++ ConsoleLog "Retrying"
                 :: Delay RETRY_DELAY :: pre3)))%Z
        with (c + 1 + Z.of_nat (attempts pre3))%Z; [exact IH' |].
      change (ConsoleLog url :: Upload fn f e :: ConsoleWarn (Obj err)
                :: cl ++ ConsoleLog "Retrying" :: Delay RETRY_DELAY :: pre3)
        with ([ConsoleLog url; Upload fn f e; ConsoleWarn (Obj err)]
                ++ cl ++ [ConsoleLog "Retrying"; Delay RETRY_DELAY] ++ pre3).
      rewrite !attempts_app, (cleanupTrace_attempts _ _ C).
      change (attempts [ConsoleLog url; Upload fn f e; ConsoleWarn (Obj err)]) with 1%nat.
      change (attempts [ConsoleLog "Retrying"; Delay RETRY_DELAY]) with 0%nat.
      lia.
Qed.

End Orchestrator.

(** ** Computations that never perform some kind of action *)

Lemma avoids_ret {A} p (a : A) : avoids p (ret a).
Proof. intros h; reflexivity. Qed.

Lemma avoids_throw {A} p err : avoids p (@throw A err).
Proof. intros h; reflexivity. Qed.

Lemma avoids_exit {A} p code : avoids p (@process_exit A code).
Proof. intros h; reflexivity. Qed.

Lemma avoids_emit p a : p a = false -> avoids p (emit a).
Proof. intros H h; simpl. rewrite H. reflexivity. Qed.

Lemma avoids_bind {A B} p (m : M A) (f : A -> M B) :
  avoids p m -> (forall a, avoids p (f a)) -> avoids p (bind m f).
Proof.
  intros Hm Hf h. unfold bind. specialize (Hm h).
  destruct (m h) as [[a | err | code] t1]; simpl in *; auto.
  specialize (Hf a (h ++ t1)). destruct (f a (h ++ t1)) as [r t2]; simpl in *.
  rewrite filter_app, Hm, Hf. reflexivity.
Qed.

Lemma avoids_try_catch {A} p (m : M A) handler :
  avoids p m -> (forall err, avoids p (handler err)) -> avoids p (try_catch m handler).
Proof.
  intros Hm Hf h. unfold try_catch. specialize (Hm h).
  destruct (m h) as [[a | err | code] t1]; simpl in *; auto.
  specialize (Hf err (h ++ t1)). destruct (handler err (h ++ t1)) as [r t2]; simpl in *.
  rewrite filter_app, Hm, Hf. reflexivity.
Qed.

Lemma avoids_moment w p : avoids p (moment w).
Proof. intros h; reflexivity. Qed.


Section Phases.

Variable w : World.
Variable o : Options.

Lemma bootstrapStep_avoids p i c :
  (forall path reply, p (GetDirectoryContents path reply) = false) ->
  (forall path reply, p (CreateDirectory path reply) = false) ->
  (forall s, p (ConsoleLog s) = false) ->
  (forall a, p (ConsoleWarn a) = false) ->
  avoids p (bootstrapStep w o i c).
Proof.
  intros Hg Hc Hl Hw. unfold bootstrapStep.
  apply avoids_try_catch.
  - apply avoids_bind; [| intros; apply avoids_ret].
    intros h. simpl. rewrite Hg. reflexivity.
  - intros err. destruct (status_is (status err) 404).
    + apply avoids_bind; [apply avoids_emit, Hl | intros _].
      apply avoids_bind; [| intros; apply avoids_ret].
      intros h. simpl. rewrite Hc. reflexivity.
    + destruct (status_is (status err) 401).
      * apply avoids_bind; [apply avoids_emit, Hw | intros _; apply avoids_exit].
      * apply avoids_throw.
Qed.

Lemma bootstrapLoop_avoids p :
  (forall path reply, p (GetDirectoryContents path reply) = false) ->
  (forall path reply, p (CreateDirectory path reply) = false) ->
  (forall s, p (ConsoleLog s) = false) ->
  (forall a, p (ConsoleWarn a) = false) ->
  forall remaining c, avoids p (bootstrapLoop w o remaining c).
Proof.
  intros Hg Hc Hl Hw. induction remaining as [| n IH]; intros c; simpl;
    (apply avoids_bind; [apply bootstrapStep_avoids; assumption | intros c']).
  - apply avoids_ret.
  - apply IH.
Qed.

Lemma pruneLoop_avoids p obsoleteMoment :
  (forall path reply, p (DeleteFile path reply) = false) ->
  (forall s, p (ConsoleLog s) = false) ->
  forall contents, avoids p (pruneLoop w o obsoleteMoment contents).
Proof.
  intros Hd Hl. induction contents as [| e rest IH]; simpl.
  - apply avoids_ret.
  - apply avoids_bind; [| intros _; exact IH].
    destruct (obsolete w o obsoleteMoment e); [| apply avoids_ret].
    apply avoids_bind; [apply avoids_emit, Hl | intros _].
    intros h. simpl. rewrite Hd. reflexivity.
Qed.

Lemma prune_avoids p c :
  (forall path reply, p (DeleteFile path reply) = false) ->
  (forall s, p (ConsoleLog s) = false) ->
  avoids p (prune w o c).
Proof.
  intros Hd Hl. unfold prune.
  destruct (gt_zero (daysToKeep o) && lt_Infinity (daysToKeep o));
    [| apply avoids_ret].
  apply avoids_bind; [apply avoids_moment | intros now].
  destruct c; [apply pruneLoop_avoids; assumption | apply avoids_throw].
Qed.

Lemma bootstrap_no_upload : avoids isUpload (bootstrap w o).
Proof. apply bootstrapLoop_avoids; reflexivity. Qed.

Lemma prune_no_upload c : avoids isUpload (prune w o c).
Proof. apply prune_avoids; reflexivity. Qed.

End Phases.

(** ** Status 507 on the request stream ends the run *)






(** ** A failed delete of the pruner *)

Lemma avoids_no_delete {A} (m : M A) h pre path reply post :
  avoids isDelete m -> snd (m h) <> pre ++ DeleteFile path reply :: post.
Proof.
  intros H E. specialize (H h). rewrite E, filter_app in H. simpl in H.
  destruct (filter isDelete pre); discriminate.
Qed.

Lemma retentionM_avoids {A} (m : M A) : avoids isDelete m -> retentionM m.
Proof.
  intros H h pre path err post E _. exfalso.
  exact (avoids_no_delete m h _ _ _ _ H E).
Qed.

Lemma retentionM_bind {A B} (m : M A) (f : A -> M B) :
  retentionM m -> (forall a, retentionM (f a)) -> retentionM (bind m f).
Proof.
  intros Hm Hf h pre path err post E Z.
  unfold bind in *. specialize (Hm h). unfold retention_ok in Hm.
  destruct (m h) as [[a | e | c] t1]; simpl in *.
  - specialize (Hf a (h ++ t1)). unfold retention_ok in Hf.
    destruct (f a (h ++ t1)) as [r t2]; simpl in *.
    apply app_eq_elt in E. destruct E as [[post1 [E1 E2]] | [pre2 [E1 E2]]].
    + destruct (Hm _ _ _ _ E1 Z) as [_ [X _]]. discriminate.
    + subst pre. rewrite attempts_app in Z.
      destruct (Hf _ _ _ _ E2 ltac:(lia)) as [P [X [pre' Y]]].
      repeat split; auto. exists (t1 ++ pre'). subst pre2.
      rewrite app_assoc. reflexivity.
  - destruct (Hm _ _ _ _ E Z) as [P [X Y]]. repeat split; auto.
    injection X as X. subst. reflexivity.
  - destruct (Hm _ _ _ _ E Z) as [_ [X _]]. discriminate.
Qed.

Section Pruning.

Variable w : World.
Variable o : Options.

Lemma retentionM_pruneLoop obsoleteMoment contents :
  retentionM (pruneLoop w o obsoleteMoment contents).
Proof.
  induction contents as [| e rest IH]; simpl.
  - apply retentionM_avoids, avoids_ret.
  - apply retentionM_bind; [| intros _; exact IH].
    destruct (obsolete w o obsoleteMoment e);
      [| apply retentionM_avoids, avoids_ret].
    intros h pre path err post E _. unfold bind, console_log, emit, dav_deleteFile in E.
    simpl in E.
    destruct pre as [| a [| b pre]]; simpl in E; try discriminate.
    + injection E as Ea Epath Er Epost. subst a path post.
      unfold bind, console_log, emit, dav_deleteFile. simpl.
      rewrite Er. simpl. repeat split; auto.
      exists []. reflexivity.
    + injection E as _ _ E. destruct pre; discriminate.
Qed.

Lemma retentionM_prune c : retentionM (prune w o c).
Proof.
  unfold prune.
  destruct (gt_zero (daysToKeep o) && lt_Infinity (daysToKeep o));
    [| apply retentionM_avoids, avoids_ret].
  apply retentionM_bind; [apply retentionM_avoids, avoids_moment | intros now].
  destruct c; [apply retentionM_pruneLoop | apply retentionM_avoids, avoids_throw].
Qed.

Lemma retentionM_backup fn c : retentionM (backup w o fn c).
Proof.
  intros h pre path err post E Z. exfalso.
  destruct (backupTrace_head o fn c _ _ (backup_conforms w o fn c h))
    as [url [file [evs [rest Et]]]].
  rewrite Et in E.
  destruct pre as [| a [| b pre]]; simpl in E; try discriminate.
  injection E as Ea Eb E. subst. unfold attempts in Z. simpl in Z. lia.
Qed.

Lemma retentionM_stages : retentionM (stages w o).
Proof.
  unfold stages.
  repeat (apply retentionM_bind; [| intros _]);
    match goal with
    | |- retentionM (if ?b then _ else _) =>
        destruct b;
        [ apply retentionM_bind; [apply retentionM_backup | intros _];
          apply retentionM_avoids, avoids_emit; reflexivity
        | apply retentionM_avoids, avoids_ret ]
    end.
Qed.

Lemma retentionM_body : retentionM (body w o).
Proof.
  unfold body.
  apply retentionM_bind;
    [apply retentionM_avoids, bootstrapLoop_avoids; reflexivity | intros c].
  apply retentionM_bind; [apply retentionM_prune | intros _].
  apply retentionM_stages.
Qed.

Lemma delete_block s path h :
  (console_log s ;; dav_deleteFile w path) h
  = (settle_reply (deleteFile w (h ++ [ConsoleLog s]) path),
     [ConsoleLog s; DeleteFile path (deleteFile w (h ++ [ConsoleLog s]) path)]).
Proof.
  unfold bind, console_log, emit, dav_deleteFile. simpl.
  destruct (deleteFile w (h ++ [ConsoleLog s]) path); reflexivity.
Qed.


Lemma obsolete_due obsoleteDays now e :
  obsolete w o (now - obsoleteDays * 86400000) e = true
  <-> retention_due w o now obsoleteDays e.
Proof.
  unfold obsolete, retention_due, isBefore. split.
  - intros H. apply andb_prop in H. destruct H as [H1 H3].
    apply andb_prop in H1. destruct H1 as [H1 H2].
    apply String.eqb_eq in H1. repeat split; auto.
    destruct (momentParse w (lastmod e)) as [t |]; [| discriminate].
    exists t. split; [reflexivity | lia].
  - intros [H1 [H2 [t [H3 H4]]]]. rewrite H1, H2, H3. simpl.
    apply Z.ltb_lt. lia.
Qed.

End Pruning.

(** ** Stages whose attempts are all settled *)

Section Settled.

Variable w : World.
Variable o : Options.
Hypothesis settled : always_settles w o.

Lemma backupRec_returns fn : forall n c h, fst (backupRec w o n fn c h) = Ret tt.
Proof.
  induction n as [| n IH]; intros c h; simpl;
    pose proof (backupFn_upload w o fn h) as U; unfold upload in U;
    (destruct (settled h fn (producerFilename o fn (clock w h))) as [S | [err S]];
     rewrite S in U;
     [ rewrite (try_catch_ret _ _ _ _ _ U); reflexivity
     | rewrite (try_catch_throw _ _ _ _ _ U) ]);
    unfold console_warn, console_log; rewrite bind_emit;
    match goal with
    | |- context [bind (cleanup w o err) _ ?hh] =>
        destruct (cleanup_conforms w o err hh) as [cl [E C]]
    end;
    rewrite (bind_ret _ _ _ _ _ E);
    destruct (c <? retries o)%Z; simpl; try reflexivity;
    rewrite !bind_emit; simpl; apply IH.
Qed.

Lemma stage_returns fn msg h :
  exists t,
    (backup w o fn 0 ;; console_log msg) h = (Ret tt, t) /\
    In (ConsoleLog msg) t /\ exists file evs, In (Upload fn file evs) t.
Proof.
  pose proof (backupRec_returns fn (Z.to_nat (retries o - 0)) 0%Z h) as R.
  fold (backup w o fn 0) in R.
  destruct (backupTrace_head o fn 0 _ _ (backup_conforms w o fn 0 h))
    as [url [file [evs [rest Et]]]].
  exists (snd (backup w o fn 0 h) ++ [ConsoleLog msg]). split.
  - rewrite (bind_ret _ _ _ tt (snd (backup w o fn 0 h))).
    + reflexivity.
    + rewrite <- R. apply pair_eta.
  - split.
    + apply in_or_app. right. left. reflexivity.
    + exists file, evs. apply in_or_app. left. rewrite Et. right. left. reflexivity.
Qed.

(** The three optional stages run one after the other, each to its end. *)
Lemma stages_return h :
  exists t,
    stages w o h = (Ret tt, t) /\
    (hasDirs o = true ->
     In (ConsoleLog "Directory dump completed") t /\
     exists file evs, In (Upload Tar file evs) t) /\
    (truthy (mysqlDb o) = true ->
     In (ConsoleLog "MySQL dump completed") t /\
     exists file evs, In (Upload Mysql file evs) t) /\
    (truthy (mongoDb o) = true ->
     In (ConsoleLog "MongoDB dump completed") t /\
     exists file evs, In (Upload Mongo file evs) t).
Proof.
  unfold stages.
  assert (A : forall (b : bool) fn msg h',
             exists t, (if b then backup w o fn 0 ;; console_log msg else ret tt) h'
                       = (Ret tt, t) /\
                       (b = true -> In (ConsoleLog msg) t /\
                                    exists file evs, In (Upload fn file evs) t)).
  { intros b fn msg h'. destruct b.
    - destruct (stage_returns fn msg h') as [t [E I]]. exists t. auto.
    - exists []. split; [reflexivity | discriminate]. }
  destruct (A (hasDirs o) Tar "Directory dump completed"%string h) as [t1 [E1 I1]].
  destruct (A (truthy (mysqlDb o)) Mysql "MySQL dump completed"%string (h ++ t1))
    as [t2 [E2 I2]].
  destruct (A (truthy (mongoDb o)) Mongo "MongoDB dump completed"%string
              ((h ++ t1) ++ t2)) as [t3 [E3 I3]].
  exists (t1 ++ t2 ++ t3). split.
  - rewrite (bind_ret _ _ _ _ _ E1). rewrite (bind_ret _ _ _ _ _ E2).
    rewrite E3. reflexivity.
  - split; [| split]; intros T.
    + destruct (I1 T) as [L [file [evs U]]]. split.
      * apply in_or_app. auto.
      * exists file, evs. apply in_or_app. auto.
    + destruct (I2 T) as [L [file [evs U]]]. split.
      * apply in_or_app. right. apply in_or_app. auto.
      * exists file, evs. apply in_or_app. right. apply in_or_app. auto.
    + destruct (I3 T) as [L [file [evs U]]]. split.
      * apply in_or_app. right. apply in_or_app. auto.
      * exists file, evs. apply in_or_app. right. apply in_or_app. auto.
Qed.

End Settled.

(** ** The matcher *)

Lemma chars_append a b : chars (a +++ b) = chars a ++ chars b.
Proof. induction a as [| c a IH]; simpl; [reflexivity | rewrite IH; reflexivity]. Qed.

Lemma string_app u v :
  string_of_list_ascii (u ++ v) = string_of_list_ascii u +++ string_of_list_ascii v.
Proof. induction u as [| c u IH]; simpl; [reflexivity | rewrite IH; reflexivity]. Qed.

Lemma strip_prefix_app l s : strip_prefix l (l ++ s) = Some s.
Proof.
  induction l as [| a l IH]; simpl; [reflexivity |].
  rewrite Ascii.eqb_refl. exact IH.
Qed.

Lemma strip_prefix_sound l : forall s s', strip_prefix l s = Some s' -> s = l ++ s'.
Proof.
  induction l as [| a l IH]; intros s s' H; simpl in H.
  - injection H as H. subst. reflexivity.
  - destruct s as [| c s]; [discriminate |].
    destruct (Ascii.eqb_spec a c); [| discriminate].
    subst. simpl. f_equal. apply IH. exact H.
Qed.

Lemma rmatch_Seq r1 r2 s caps k :
  rmatch (Seq r1 r2) s caps k = rmatch r1 s caps (fun s' caps' => rmatch r2 s' caps' k).
Proof. reflexivity. Qed.

Lemma rmatch_Alt r1 r2 s caps k :
  rmatch (Alt r1 r2) s caps k
  = match rmatch r1 s caps k with
    | Some c => Some c
    | None => rmatch r2 s caps k
    end.
Proof. reflexivity. Qed.

Lemma consumes_Empty : consumes Empty [].
Proof. intros s caps k. reflexivity. Qed.

Lemma consumes_Lit l : consumes (Lit l) (chars l).
Proof.
  intros s caps k. simpl. unfold chars. rewrite strip_prefix_app. reflexivity.
Qed.

Lemma consumes_Class p c : p c = true -> consumes (Class p) [c].
Proof. intros H s caps k. simpl. rewrite H. reflexivity. Qed.

Lemma consumes_Seq r1 r2 u1 u2 :
  consumes r1 u1 -> consumes r2 u2 -> consumes (Seq r1 r2) (u1 ++ u2).
Proof.
  intros H1 H2 s caps k. simpl. rewrite <- app_assoc, H1. apply H2.
Qed.

Lemma consumes_rep p : forall n u,
  List.length u = n -> Forall (fun c => p c = true) u ->
  consumes (rep n (Class p)) u.
Proof.
  induction n as [| n IH]; intros u L F.
  - destruct u; [apply consumes_Empty | discriminate].
  - destruct u as [| c u]; [discriminate |]. inversion F; subst.
    change (c :: u) with ([c] ++ u). apply consumes_Seq.
    + apply consumes_Class. assumption.
    + apply IH; auto.
Qed.

Lemma firstn_consumed {A} (u s : list A) :
  firstn (List.length (u ++ s) - List.length s) (u ++ s) = u.
Proof.
  rewrite length_app, Nat.add_sub.
  rewrite firstn_app, Nat.sub_diag, firstn_all. simpl. apply app_nil_r.
Qed.

(** A group around a pattern without choice records what it consumed. *)
Lemma rmatch_Group n r u s caps k :
  consumes r u ->
  rmatch (Group n r) (u ++ s) caps k = k s ((n, string_of_list_ascii u) :: caps).
Proof.
  intros H. simpl. rewrite H. rewrite firstn_consumed. reflexivity.
Qed.

(** The lazy quantifier stops at the first place where the rest matches. *)
Lemma lazy_plus_first {R} p (k : list ascii -> option R) r : forall u v,
  u <> [] ->
  Forall (fun c => p c = true) u ->
  (forall u1 u2, u = u1 ++ u2 -> u1 <> [] -> u2 <> [] -> k (u2 ++ v) = None) ->
  k v = Some r ->
  lazy_plus p (u ++ v) k = Some r.
Proof.
  induction u as [| c u IH]; intros v N F K S; [contradiction |].
  inversion F as [| ? ? Hc F']; subst. simpl. rewrite Hc.
  destruct u as [| c' u].
  - simpl. rewrite S. reflexivity.
  - rewrite (K [c] (c' :: u) eq_refl ltac:(discriminate) ltac:(discriminate)).
    apply IH; [discriminate | assumption | | assumption].
    intros u1 u2 E N1 N2. apply (K (c :: u1) u2); [| discriminate | assumption].
    simpl. rewrite E. reflexivity.
Qed.

Lemma lazy_plus_sound {R} p (k : list ascii -> option R) : forall s c,
  lazy_plus p s k = Some c ->
  exists u s', s = u ++ s' /\ u <> [] /\ Forall (fun x => p x = true) u
               /\ k s' = Some c.
Proof.
  induction s as [| a s IH]; intros c H; simpl in H; [discriminate |].
  destruct (p a) eqn:P; [| discriminate].
  destruct (k s) as [c' |] eqn:K.
  - injection H as H. subst. exists [a], s. repeat split; auto. discriminate.
  - destruct (IH _ H) as [u [s' [E [N [F K']]]]].
    exists (a :: u), s'. subst. repeat split; auto. discriminate.
Qed.

(** Whatever the matcher accepts, the pattern can consume. *)
Lemma rmatch_sound : forall r s caps k c,
  rmatch r s caps k = Some c ->
  exists u s' caps', s = u ++ s' /\ den r u s' /\ k s' caps' = Some c.
Proof.
  induction r as [| l | p | r1 IH1 r2 IH2 | r1 IH1 r2 IH2 | n r IH | p |];
    intros s caps k c H; simpl in H.
  - exists [], s, caps. simpl. auto.
  - destruct (strip_prefix (list_ascii_of_string l) s) as [s' |] eqn:P; [| discriminate].
    apply strip_prefix_sound in P. exists (chars l), s', caps. simpl. auto.
  - destruct s as [| a s]; [discriminate |].
    destruct (p a) eqn:P; [| discriminate].
    exists [a], s, caps. simpl. eauto.
  - destruct (IH1 _ _ _ _ H) as [u1 [s1 [caps1 [E1 [D1 K1]]]]].
    destruct (IH2 _ _ _ _ K1) as [u2 [s2 [caps2 [E2 [D2 K2]]]]].
    exists (u1 ++ u2), s2, caps2. subst. rewrite app_assoc. simpl.
    split; [reflexivity |]. split; [| assumption]. eauto.
  - destruct (rmatch r1 s caps k) as [c1 |] eqn:R1.
    + injection H as H. subst.
      destruct (IH1 _ _ _ _ R1) as [u [s' [caps' [E [D K]]]]].
      exists u, s', caps'. simpl. auto.
    + destruct (IH2 _ _ _ _ H) as [u [s' [caps' [E [D K]]]]].
      exists u, s', caps'. simpl. auto.
  - destruct (IH _ _ _ _ H) as [u [s' [caps' [E [D K]]]]].
    exists u, s'. eexists. simpl. eauto.
  - destruct (lazy_plus_sound _ _ _ _ H) as [u [s' [E [N [F K]]]]].
    exists u, s', caps. simpl. auto.
  - destruct s; [| discriminate]. exists [], [], caps. simpl. auto.
Qed.

(** ** The fields of a formatted moment *)

Lemma is_digit_digit d : (d <= 9)%nat -> is_digit (digit d) = true.
Proof.
  intros H. do 10 (destruct d as [| d]; [reflexivity |]). lia.
Qed.

Lemma pad2_digits n : (n < 100)%nat -> digits 2 (pad2 n).
Proof.
  intros H. split; [reflexivity |]. unfold pad2, chars; cbn [list_ascii_of_string].
  assert (n / 10 < 10)%nat by (apply Nat.Div0.div_lt_upper_bound; lia).
  assert (n mod 10 < 10)%nat by (apply Nat.mod_upper_bound; lia).
  constructor; [apply is_digit_digit; lia |].
  constructor; [apply is_digit_digit; lia | constructor].
Qed.

Lemma pad3_digits n : (n < 1000)%nat -> digits 3 (pad3 n).
Proof.
  intros H. split; [reflexivity |]. unfold pad3, chars. cbn [list_ascii_of_string].
  assert (n / 100 < 10)%nat by (apply Nat.Div0.div_lt_upper_bound; lia).
  assert (n mod 100 < 100)%nat by (apply Nat.mod_upper_bound; lia).
  constructor; [apply is_digit_digit; lia |].
  apply (pad2_digits (n mod 100)). assumption.
Qed.

Lemma pad4_digits n : (n < 10 * 1000)%nat -> digits 4 (pad4 n).
Proof.
  intros H. split; [reflexivity |]. unfold pad4, chars. cbn [list_ascii_of_string].
  assert (n / 1000 < 10)%nat by (apply Nat.Div0.div_lt_upper_bound; lia).
  assert (n mod 1000 < 1000)%nat by (apply Nat.mod_upper_bound; lia).
  constructor; [apply is_digit_digit; lia |].
  apply (pad3_digits (n mod 1000)). assumption.
Qed.

Lemma format_date_shape m : valid_moment m -> date_shape (format_date m).
Proof.
  intros [Hy [Hm [Hd _]]]. exists (pad4 (year m)), (pad2 (month m)), (pad2 (day m)).
  split; [reflexivity |].
  split; [apply pad4_digits; assumption |].
  split; apply pad2_digits; lia.
Qed.

Lemma format_time_shape m : valid_moment m -> time_shape (format_time m).
Proof.
  intros [_ [_ [_ [Hh [Hm [Hs Hms]]]]]].
  exists (pad2 (hour m)), (pad2 (minute m)), (pad2 (second m)), (pad3 (millisecond m)).
  split; [reflexivity |].
  split; [apply pad2_digits; lia |].
  split; [apply pad2_digits; lia |].
  split; [apply pad2_digits; lia |].
  apply pad3_digits; assumption.
Qed.

(** ** The pattern of backup filenames on the names of the producers *)

Lemma consumes_digits n s : digits n s -> consumes (rep n (Class is_digit)) (chars s).
Proof. intros [L F]. apply consumes_rep; assumption. Qed.

Lemma consumes_date s : date_shape s -> consumes datePattern (chars s).
Proof.
  intros [y [m [d [E [Hy [Hm Hd]]]]]]. subst s. unfold datePattern.
  rewrite !chars_append.
  repeat (apply consumes_Seq;
          [first [apply consumes_digits; assumption | apply consumes_Lit] |]).
  apply consumes_digits; assumption.
Qed.

Lemma consumes_time s : time_shape s -> consumes timePattern (chars s).
Proof.
  intros [h [m [sec [ms [E [Hh [Hm [Hs Hms]]]]]]]]. subst s. unfold timePattern.
  rewrite !chars_append.
  repeat (apply consumes_Seq;
          [first [apply consumes_digits; assumption | apply consumes_Lit] |]).
  apply consumes_digits; assumption.
Qed.

(** The date, the time and the extension of a producer, to the end of the
    name. *)
Lemma stamp_matches date time ext caps :
  date_shape date -> time_shape time ->
  ext = ".tgz"%string \/ ext = ".sql.gz"%string ->
  rmatch stampPattern (chars date ++ chars "_" ++ chars time ++ chars ext) caps accept
  = Some ((3%nat, time) :: (2%nat, date) :: caps).
Proof.
  intros D T E. unfold stampPattern.
  rewrite rmatch_Seq.
  rewrite (rmatch_Group 2 datePattern _ _ _ _ (consumes_date _ D)).
  unfold chars at 1. rewrite string_of_list_ascii_of_string.
  rewrite rmatch_Seq, (consumes_Lit "_"), rmatch_Seq.
  rewrite (rmatch_Group 3 timePattern _ _ _ _ (consumes_time _ T)).
  unfold chars at 1. rewrite string_of_list_ascii_of_string.
  destruct E; subst ext; reflexivity.
Qed.

(** ** What the pattern of backup filenames can consume *)

Lemma chars_string u : chars (string_of_list_ascii u) = u.
Proof. apply list_ascii_of_string_of_list_ascii. Qed.

Lemma den_rep p : forall n u s,
  den (rep n (Class p)) u s ->
  List.length u = n /\ Forall (fun c => p c = true) u.
Proof.
  induction n as [| n IH]; intros u s D; cbn [rep den] in D.
  - subst. auto.
  - destruct D as [u1 [u2 [E [[c [E1 P]] D2]]]]. subst.
    destruct (IH _ _ D2) as [L F]. simpl. auto.
Qed.

Lemma den_digits n u s :
  den (rep n (Class is_digit)) u s -> digits n (string_of_list_ascii u).
Proof.
  intros D. destruct (den_rep _ _ _ _ D) as [L F].
  unfold digits. rewrite chars_string. auto.
Qed.

Ltac break :=
  repeat match goal with
         | H : exists _, _ |- _ => destruct H
         | H : _ /\ _ |- _ => destruct H
         end.

Lemma den_date u s : den datePattern u s -> date_shape (string_of_list_ascii u).
Proof.
  unfold datePattern. cbn [den]. intros D. break. subst.
  rewrite !string_app. unfold chars. rewrite !string_of_list_ascii_of_string.
  do 3 eexists. split; [reflexivity |].
  repeat split; eapply den_digits; eassumption.
Qed.

Lemma den_time u s : den timePattern u s -> time_shape (string_of_list_ascii u).
Proof.
  unfold timePattern. cbn [den]. intros D. break. subst.
  rewrite !string_app. unfold chars. rewrite !string_of_list_ascii_of_string.
  do 4 eexists. split; [reflexivity |].
  repeat split; eapply den_digits; eassumption.
Qed.

Lemma den_ext u s :
  den extPattern u s ->
  exists ext, u = chars ("." +++ ext)
              /\ In ext ["tgz"; "tar"; "tar.gz"; "sql"; "sql.gz"]%string.
Proof.
  unfold extPattern. cbn [den].
  intros [E | [[u1 [u2 [E [E1 [E2 | E2]]]]] | [u1 [u2 [E [E1 [E2 | E2]]]]]]]; subst.
  - exists "tgz"%string. split; [reflexivity | simpl; tauto].
  - exists "tar.gz"%string. split; [reflexivity | simpl; tauto].
  - exists "tar"%string. split; [reflexivity | simpl; tauto].
  - exists "sql.gz"%string. split; [reflexivity | simpl; tauto].
  - exists "sql"%string. split; [reflexivity | simpl; tauto].
Qed.

Lemma den_kind u s :
  den kindPattern u s ->
  exists kind target,
    u = chars (kind +++ "-" +++ target +++ "_") /\
    (kind = "mysql"%string \/ kind = "mongo"%string) /\ target <> ""%string.
Proof.
  unfold kindPattern. cbn [den].
  intros [k [u1 [E1 [Dk [dash [u2 [E2 [Ed [t [us [E3 [[Nt Ft] Eu]]]]]]]]]]]]. subst.
  assert (K : exists kind, k = chars kind
                           /\ (kind = "mysql"%string \/ kind = "mongo"%string)).
  { destruct Dk as [E | E]; subst; eauto. }
  destruct K as [kind [Ek Hk]]. subst k.
  exists kind, (string_of_list_ascii t). split.
  - rewrite !chars_append, chars_string. reflexivity.
  - split; [assumption |]. intros E. apply Nt.
    rewrite <- (chars_string t), E. reflexivity.
Qed.

Lemma den_stamp u s :
  den stampPattern u s ->
  exists date time ext,
    u = chars (date +++ "_" +++ time +++ "." +++ ext) /\
    date_shape date /\ time_shape time /\
    In ext ["tgz"; "tar"; "tar.gz"; "sql"; "sql.gz"]%string /\ s = [].
Proof.
  unfold stampPattern. cbn [den].
  intros [d [u1 [E1 [Dd [us [u2 [E2 [Eus [t [u3 [E3 [Dt [x [e [E4 [Dx [Ee Es]]]]]]]]]]]]]]]]].
  subst. destruct (den_ext _ _ Dx) as [ext [Ex Hx]]. subst x.
  exists (string_of_list_ascii d), (string_of_list_ascii t), ext.
  split.
  - rewrite !chars_append, !chars_string, app_nil_r. reflexivity.
  - split; [eapply den_date; eassumption |].
    split; [eapply den_time; eassumption |]. auto.
Qed.

Lemma digits_length n s : digits n s -> List.length (chars s) = n.
Proof. intros [L _]; exact L. Qed.

Lemma date_shape_length s : date_shape s -> List.length (chars s) = 10%nat.
Proof.
  intros [y [m [d [E [Hy [Hm Hd]]]]]]. subst.
  rewrite !chars_append, !length_app.
  rewrite (digits_length _ _ Hy), (digits_length _ _ Hm), (digits_length _ _ Hd).
  reflexivity.
Qed.

Lemma time_shape_length s : time_shape s -> List.length (chars s) = 12%nat.
Proof.
  intros [h [m [sec [ms [E [Hh [Hm [Hs Hms]]]]]]]]. subst.
  rewrite !chars_append, !length_app.
  rewrite (digits_length _ _ Hh), (digits_length _ _ Hm), (digits_length _ _ Hs),
    (digits_length _ _ Hms).
  reflexivity.
Qed.

(** Nothing longer than 30 characters is a date, a time and an extension. *)
Lemma stamp_too_long s caps :
  (30 < List.length s)%nat -> rmatch stampPattern s caps accept = None.
Proof.
  intros L. destruct (rmatch stampPattern s caps accept) as [c |] eqn:R; [| reflexivity].
  exfalso. destruct (rmatch_sound _ _ _ _ _ R) as [u [s' [caps' [E [D _]]]]].
  destruct (den_stamp _ _ D) as [date [time [ext [Eu [Hd [Ht [Hx Es]]]]]]]. subst.
  rewrite app_nil_r, !chars_append, !length_app in L.
  rewrite (date_shape_length _ Hd), (time_shape_length _ Ht) in L.
  simpl in Hx. simpl in L.
  destruct Hx as [X | [X | [X | [X | [X | []]]]]]; subst ext; simpl in L; lia.
Qed.

(** ** The names of the producers under the pattern *)

Lemma is_digit_not_m c : is_digit c = true -> Ascii.eqb "m" c = false.
Proof.
  intros H. destruct (Ascii.eqb_spec "m" c) as [E |]; [| reflexivity].
  subst c. discriminate.
Qed.

(** A name that goes on with a digit has no kind tag. *)
Lemma kind_rejects_digit c s caps k :
  is_digit c = true -> rmatch kindPattern (c :: s) caps k = None.
Proof.
  intros H. unfold kindPattern. cbn [rmatch list_ascii_of_string strip_prefix].
  rewrite (is_digit_not_m c H). reflexivity.
Qed.

Lemma date_shape_head s :
  date_shape s -> exists c t, chars s = c :: t /\ is_digit c = true.
Proof.
  intros [y [m [d [E [[Ly Fy] _]]]]]. subst. rewrite chars_append.
  destruct (chars y) as [| c t]; [discriminate |].
  inversion Fy; subst. exists c. eexists. split; [reflexivity | assumption].
Qed.

(** The group of the kind records the kind. *)
Lemma kind_group kind s caps k r :
  kind = "mysql"%string \/ kind = "mongo"%string ->
  k s ((1%nat, kind) :: caps) = Some r ->
  rmatch (Group 1 (Alt (Lit "mysql") (Lit "mongo"))) (chars kind ++ s) caps k = Some r.
Proof.
  intros K H.
  change (rmatch (Group 1 (Alt (Lit "mysql") (Lit "mongo"))) (chars kind ++ s) caps k)
    with (rmatch (Alt (Lit "mysql") (Lit "mongo")) (chars kind ++ s) caps
            (fun s' caps' =>
               k s' ((1%nat, string_of_list_ascii
                        (firstn (List.length (chars kind ++ s) - List.length s')
                           (chars kind ++ s))) :: caps'))).
  rewrite rmatch_Alt. destruct K; subst kind.
  - rewrite (consumes_Lit "mysql"), firstn_consumed. unfold chars.
    rewrite string_of_list_ascii_of_string, H. reflexivity.
  - replace (rmatch (Lit "mysql") (chars "mongo" ++ s) caps _) with (@None Captures)
      by reflexivity.
    rewrite (consumes_Lit "mongo"), firstn_consumed. unfold chars.
    rewrite string_of_list_ascii_of_string. exact H.
Qed.

Lemma single_line_chars db :
  single_line db = true -> Forall (fun c => is_dot c = true) (chars db).
Proof. unfold single_line. intros H. apply Forall_forall, forallb_forall. exact H. Qed.

(** The kind tag of a database dump: the lazy [.+?] ends at the last
    underscore before the date, because nothing longer than the date, the
    time and an extension can follow it. *)
Lemma kind_matches kind db stamp caps r :
  kind = "mysql"%string \/ kind = "mongo"%string ->
  db <> ""%string -> single_line db = true ->
  (30 <= List.length stamp)%nat ->
  rmatch stampPattern stamp ((1%nat, kind) :: caps) accept = Some r ->
  rmatch kindPattern (chars kind ++ chars "-" ++ chars db ++ chars "_" ++ stamp) caps
    (fun s' caps' => rmatch stampPattern s' caps' accept)
  = Some r.
Proof.
  intros K N L Len S. unfold kindPattern. rewrite rmatch_Seq.
  apply kind_group; [assumption |].
  rewrite rmatch_Seq, (consumes_Lit "-"), rmatch_Seq.
  change (rmatch (LazyPlus is_dot) (chars db ++ chars "_" ++ stamp)
            ((1%nat, kind) :: caps)
            (fun s' caps' =>
               rmatch (Lit "_") s' caps'
                 (fun s'' caps'' => rmatch stampPattern s'' caps'' accept)))
    with (lazy_plus is_dot (chars db ++ chars "_" ++ stamp)
            (fun s' =>
               rmatch (Lit "_") s' ((1%nat, kind) :: caps)
                 (fun s'' caps'' => rmatch stampPattern s'' caps'' accept))).
  apply lazy_plus_first.
  - intros E. apply N. rewrite <- (string_of_list_ascii_of_string db).
    fold (chars db). rewrite E. reflexivity.
  - apply single_line_chars. assumption.
  - intros u1 u2 E N1 N2. destruct u2 as [| c u2]; [contradiction |].
    cbn [app rmatch list_ascii_of_string strip_prefix].
    destruct (Ascii.eqb "_" c); [| reflexivity].
    apply stamp_too_long. rewrite length_app. simpl. lia.
  - rewrite (consumes_Lit "_"). exact S.
Qed.

Lemma stamp_length date time ext :
  date_shape date -> time_shape time ->
  ext = ".tgz"%string \/ ext = ".sql.gz"%string ->
  (26 < List.length (chars date ++ chars "_" ++ chars time ++ chars ext))%nat.
Proof.
  intros D T E. rewrite !length_app, (date_shape_length _ D), (time_shape_length _ T).
  destruct E; subst; simpl; lia.
Qed.

Lemma chars_inj a b : chars a = chars b -> a = b.
Proof.
  intros E. rewrite <- (string_of_list_ascii_of_string a),
    <- (string_of_list_ascii_of_string b). unfold chars in E. rewrite E. reflexivity.
Qed.

(** Whatever the pattern accepts has the encoding of a backup filename. *)
Lemma test_BackupFilename name s :
  test (BACKUP_FILENAME_REGEXP name) s = true -> BackupFilename name s.
Proof.
  unfold test, exec. intros H.
  destruct (rmatch (BACKUP_FILENAME_REGEXP name) (list_ascii_of_string s) []
              (fun _ caps => Some caps)) as [c |] eqn:R; [| discriminate].
  destruct (rmatch_sound _ _ _ _ _ R) as [u [s' [caps' [E [D _]]]]].
  unfold BACKUP_FILENAME_REGEXP in D. cbn [den] in D.
  destruct D as [p [u1 [E1 [Ep [tag [st [E2 [Dt Ds]]]]]]]].
  destruct (den_stamp _ _ Ds) as [date [time [ext [Est [Hd [Ht [Hx Es]]]]]]].
  subst.
  assert (T : exists tg, tag = chars tg /\ kind_tag tg).
  { destruct Dt as [Dk | Dk].
    - destruct (den_kind _ _ Dk) as [kind [target [Ek [Hk Nt]]]].
      exists (kind +++ "-" +++ target +++ "_"). split; [assumption |].
      right. exists kind, target. auto.
    - cbn in Dk. subst. exists ""%string. split; [reflexivity | left; reflexivity]. }
  destruct T as [tg [Etg Htg]]. subst tag.
  exists tg, date, time, ext. split; [| auto].
  apply chars_inj. fold (chars s) in E. rewrite E.
  rewrite !chars_append, app_nil_r, <- !app_assoc. reflexivity.
Qed.

(** ** The bootstrap *)

Section Bootstrap.

Variable w : World.
Variable o : Options.

Lemma listed_app t1 t2 : listed (t1 ++ t2) = listed t1 ++ listed t2.
Proof.
  induction t1 as [| a t1 IH]; simpl; auto.
  destruct a; simpl; rewrite ?IH; reflexivity.
Qed.

Lemma lastListing_app c t1 t2 :
  lastListing c (t1 ++ t2) = lastListing (lastListing c t1) t2.
Proof.
  revert c. induction t1 as [| a t1 IH]; intros c; simpl; auto.
  destruct a; auto. destruct reply; auto.
Qed.

(** One iteration: one listing request at its depth; the listing kept is
    the new one when the request succeeded and the old one when the
    directory had to be created. *)
Lemma bootstrapStep_returns i c h c' t :
  bootstrapStep w o i c h = (Ret c', t) ->
  listed t = [segmentedDavDir o i] /\ c' = lastListing c t /\
  (forall contents,
     getDirectoryContents w h (segmentedDavDir o i) = DavOk contents ->
     c' = Some contents) /\
  (forall err,
     getDirectoryContents w h (segmentedDavDir o i) = DavErr err ->
     status err = Some 404%Z /\ c' = c /\
     In (CreateDirectory (segmentedDavDir o i) (DavOk tt)) t).
Proof.
  unfold bootstrapStep, try_catch, bind, dav_getDirectoryContents, ret.
  destruct (getDirectoryContents w h (segmentedDavDir o i)) as [l | err] eqn:G;
    cbn [settle_reply fst snd app].
  - intros E. injection E as E1 E2. subst.
    split; [reflexivity |]. split; [reflexivity |].
    split; [intros contents Ec; congruence | intros err Ee; discriminate].
  - destruct (status_is (status err) 404) eqn:S4.
    + unfold console_log, emit, dav_createDirectory.
      cbn [settle_reply fst snd app].
      destruct (createDirectory w _ _) as [[] | err'] eqn:C;
        cbn [settle_reply fst snd app]; intros E; [| discriminate].
      injection E as E1 E2. subst.
      split; [reflexivity |]. split; [reflexivity |].
      split; [intros contents Ec; discriminate |].
      intros err0 Ee. injection Ee as Ee. subst err0.
      split.
      * unfold status_is in S4. destruct (status err) as [z |]; [| discriminate].
        apply Z.eqb_eq in S4. subst. reflexivity.
      * split; [reflexivity |]. simpl. auto.
    + destruct (status_is (status err) 401); cbn [fst snd app];
        intros E; discriminate.
Qed.

(** Listing "unauthorized" leaves the process at once with exit code 1. *)
Lemma bootstrapStep_unauthorized i c h err :
  getDirectoryContents w h (segmentedDavDir o i) = DavErr err ->
  status err = Some 401%Z ->
  bootstrapStep w o i c h
  = (Exit 1, [GetDirectoryContents (segmentedDavDir o i) (DavErr err);
              ConsoleWarn (Str "Wrong credentials")]).
Proof.
  intros G S. unfold bootstrapStep, try_catch, bind, dav_getDirectoryContents.
  rewrite G. simpl. rewrite S. reflexivity.
Qed.

(** Any other listing error is thrown to the caller. *)
Lemma bootstrapStep_throws i c h err :
  getDirectoryContents w h (segmentedDavDir o i) = DavErr err ->
  status_is (status err) 404 = false ->
  status_is (status err) 401 = false ->
  bootstrapStep w o i c h
  = (Throw err, [GetDirectoryContents (segmentedDavDir o i) (DavErr err)]).
Proof.
  intros G S4 S1. unfold bootstrapStep, try_catch, bind, dav_getDirectoryContents.
  rewrite G. simpl. rewrite S4, S1. reflexivity.
Qed.

Lemma bootstrapLoop_returns : forall remaining c h c' t,
  (remaining <= List.length (davDirSegments o))%nat ->
  bootstrapLoop w o remaining c h = (Ret c', t) ->
  listed t = map (segmentedDavDir o)
               (seq (List.length (davDirSegments o) - remaining) (S remaining))
  /\ c' = lastListing c t.
Proof.
  induction remaining as [| n IH]; intros c h c' t L E; simpl in E;
    apply bind_inv in E;
    destruct E as [[c1 [t1 [t2 [E1 [E2 Et]]]]] | [[err [E1 E2]] | [code [E1 E2]]]];
    try discriminate;
    destruct (bootstrapStep_returns _ _ _ _ _ E1) as [L1 [C1 _]].
  - injection E2 as E2 E3. subst. rewrite app_nil_r. simpl. auto.
  - destruct (IH _ _ _ _ ltac:(lia) E2) as [L2 C2]. subst t.
    rewrite listed_app, lastListing_app, L1, L2, <- C1.
    split; [| assumption].
    replace (List.length (davDirSegments o) - n)%nat
      with (S (List.length (davDirSegments o) - S n)) by lia.
    reflexivity.
Qed.

(** A bootstrap that returns has listed every depth from 0 to the number of
    segments, and hands over the last listing that succeeded. *)
Lemma bootstrap_returns h c t :
  bootstrap w o h = (Ret c, t) ->
  listed t = map (segmentedDavDir o) (seq 0 (S (List.length (davDirSegments o))))
  /\ c = lastListing None t.
Proof.
  intros E. unfold bootstrap in E.
  destruct (bootstrapLoop_returns _ _ _ _ _ (Nat.le_refl _) E) as [L C].
  rewrite Nat.sub_diag in L. auto.
Qed.

End Bootstrap.

(** ** The orchestrator, attempt by attempt *)

Lemma filter_elt {A} (f : A -> bool) (l pre : list A) (x : A) (post : list A) :
  filter f l = pre ++ x :: post ->
  exists pre0 post0,
    l = pre0 ++ x :: post0 /\ filter f pre0 = pre /\ filter f post0 = post.
Proof.
  revert pre. induction l as [| a l IH]; intros pre E; simpl in E.
  - destruct pre; discriminate.
  - destruct (f a) eqn:F.
    + destruct pre as [| b pre]; simpl in E; injection E as Ea E; subst.
      * exists [], l. auto.
      * destruct (IH _ E) as [pre0 [post0 [E1 [E2 E3]]]]. subst.
        exists (b :: pre0), post0. simpl. rewrite F. auto.
    + destruct (IH _ E) as [pre0 [post0 [E1 [E2 E3]]]]. subst.
      exists (a :: pre0), post0. simpl. rewrite F. auto.
Qed.

Lemma attempts_remote t : attempts (remote t) = attempts t.
Proof.
  unfold attempts, remote. induction t as [| a t IH]; simpl; auto.
  destruct a; simpl; rewrite ?IH; reflexivity.
Qed.

Lemma remote_cleanupWarnings reply : remote (cleanupWarnings reply) = [].
Proof.
  destruct reply as [u | e]; simpl; auto.
  destruct (status_is (status e) 401); [| destruct (status_is (status e) 404)]; auto.
Qed.

(** An error that rejects the promise was made by the exit or the response
    handler, and then carries the generated name, or it is the error the
    process or the request stream delivered. *)
Lemma settle_rejected_origin fn file evs err :
  settle (handlers fn file) evs = Rejected err ->
  backupFilename err = Some file
  \/ In (ProcessError err) evs \/ In (RequestError err) evs.
Proof.
  induction evs as [| ev evs IH]; simpl; [discriminate |].
  destruct (handlers fn file ev) eqn:H; try discriminate.
  - intros S. destruct (IH S) as [? | [? | ?]]; auto.
  - intros S; injection S as S; subst err0.
    destruct fn, ev; simpl in H; unfold react in H;
      repeat match type of H with
             | (if ?b then _ else _) = _ => destruct b
             end;
      try discriminate; injection H as H; subst; simpl; auto.
Qed.

Section Rounds.

Variable w : World.
Variable o : Options.

(** What follows a rejected attempt in the remote part of the trace. *)
Lemma remote_after_rejection fn h pre file evs post err :
  remote (snd (backup w o fn 0 h)) = pre ++ Upload fn file evs :: post ->
  settle (handlers fn file) evs = Rejected err ->
  exists cl rest,
    cleanupTrace o err cl /\ post = remote cl ++ rest /\
    ((rest = [] /\ (retries o <= Z.of_nat (attempts pre))%Z)
     \/ ((Z.of_nat (attempts pre) < retries o)%Z /\
         exists file' evs' rest',
           rest = Delay 10000 :: Upload fn file' evs' :: rest')).
Proof.
  intros E S.
  destruct (filter_elt _ _ _ _ _ E) as [pre0 [post0 [E0 [Ep Eq]]]].
  destruct (backupTrace_round o fn 0 _ _ (backup_conforms w o fn 0 h) _ _ _ _ _ E0)
    as [_ A].
  unfold afterAttempt in A. rewrite S in A.
  destruct A as [cl [rest [Epost [C D]]]].
  exists cl, (remote rest). split; [assumption |].
  split.
  - rewrite <- Eq, Epost. change (ConsoleWarn (Obj err) :: cl ++ rest)
      with ([ConsoleWarn (Obj err)] ++ cl ++ rest).
    rewrite !remote_app. reflexivity.
  - rewrite <- Ep. fold (remote pre0). rewrite attempts_remote.
    destruct D as [[Er [L _]] | [L [url [file' [evs' [rest' Er]]]]]]; subst rest.
    + left. split; [reflexivity | lia].
    + right. split; [lia |]. exists file', evs', (remote rest'). reflexivity.
Qed.

End Rounds.

(** C2.  For a job whose attempt is rejected with an error that carries an
    artifact filename: the orchestrator makes at most [retries + 1] attempts;
    the next remote action after the failed attempt is the one cleanup
    delete of the carried name under [davDir]; after it the orchestrator
    either gives up (the retries are used up) or waits 10000 ms and starts
    the next attempt.  The carried name is the name the producer generated
    unless the error came from the process or the request stream itself. *)
Theorem backup_cleanup_before_retry :
  forall w o fn h pre file evs post err,
    remote (snd (backup w o fn 0 h)) = pre ++ Upload fn file evs :: post ->
    settle (handlers fn file) evs = Rejected err ->
    truthy (backupFilename err) = true ->
    (attempts (snd (backup w o fn 0 h)) <= Z.to_nat (retries o) + 1)%nat /\
    (backupFilename err = Some file
     \/ In (ProcessError err) evs \/ In (RequestError err) evs) /\
    exists reply rest,
      post = DeleteFile (davDir o +++ "/" +++ interpolate (backupFilename err)) reply
               :: rest /\
      ((rest = [] /\ (retries o <= Z.of_nat (attempts pre))%Z)
       \/ ((Z.of_nat (attempts pre) < retries o)%Z /\
           exists file' evs' rest',
             rest = Delay 10000 :: Upload fn file' evs' :: rest')).
Proof.
  intros w o fn h pre file evs post err E S T.
  split.
  - pose proof (backupTrace_attempts o fn 0 _ _ (backup_conforms w o fn 0 h)) as B.
    rewrite Z.sub_0_r in B. lia.
  - split; [exact (settle_rejected_origin _ _ _ _ S) |].
    destruct (remote_after_rejection w o fn h pre file evs post err E S)
      as [cl [rest [C [Ep D]]]].
    inversion C as [T' Ec | reply T' Ec]; [congruence |].
    exists reply, rest. split; [| exact D].
    rewrite Ep, <- Ec. simpl. rewrite remote_cleanupWarnings. reflexivity.
Qed.

(** C10.  For an attempt rejected with an error that carries no artifact
    filename: no cleanup delete follows it; the attempt counts against the
    same budget of [retries + 1] attempts; when a retry is left it starts
    after the same delay of 10000 ms. *)
Theorem backup_retry_without_cleanup :
  forall w o fn h pre file evs post err,
    remote (snd (backup w o fn 0 h)) = pre ++ Upload fn file evs :: post ->
    settle (handlers fn file) evs = Rejected err ->
    truthy (backupFilename err) = false ->
    (attempts (snd (backup w o fn 0 h)) <= Z.to_nat (retries o) + 1)%nat /\
    ((post = [] /\ (retries o <= Z.of_nat (attempts pre))%Z)
     \/ ((Z.of_nat (attempts pre) < retries o)%Z /\
         exists file' evs' rest',
           post = Delay 10000 :: Upload fn file' evs' :: rest')).
Proof.
  intros w o fn h pre file evs post err E S T.
  split.
  - pose proof (backupTrace_attempts o fn 0 _ _ (backup_conforms w o fn 0 h)) as B.
    rewrite Z.sub_0_r in B. lia.
  - destruct (remote_after_rejection w o fn h pre file evs post err E S)
      as [cl [rest [C [Ep D]]]].
    inversion C as [T' Ec | reply T' Ec]; [| congruence].
    subst cl. simpl in Ep. subst post. exact D.
Qed.

(** C9.  For every cleanup delete of the orchestrator, whatever the reply:
    a reply "not found" (404) prints nothing, "unauthorized" (401) prints
    the warning [Wrong credentials], any other error is printed as a
    warning; then the orchestrator goes on as the retry budget alone
    decides: it returns normally to the run when the retries are used up,
    and otherwise waits 10000 ms and starts the next attempt. *)
Theorem cleanup_outcome_does_not_affect_retry :
  forall w o fn h pre path reply post,
    snd (backup w o fn 0 h) = pre ++ DeleteFile path reply :: post ->
    exists rest,
      post =
        match reply with
        | DavOk _ => []
        | DavErr err =>
            if status_is (status err) 404 then []
            else if status_is (status err) 401
                 then [ConsoleWarn (Str "Wrong credentials")]
                 else [ConsoleWarn (Obj err)]
        end ++ rest /\
      ((rest = [] /\ fst (backup w o fn 0 h) = Ret tt /\
        (retries o < Z.of_nat (attempts pre))%Z)
       \/ ((Z.of_nat (attempts pre) <= retries o)%Z /\
           exists url file' evs' rest',
             rest = ConsoleLog "Retrying" :: Delay 10000
                      :: ConsoleLog url :: Upload fn file' evs' :: rest')).
Proof.
  intros w o fn h pre path reply post E.
  destruct (backupTrace_delete o fn 0 _ _ (backup_conforms w o fn 0 h) _ _ _ _ E)
    as [rest [Ep D]].
  exists rest. split.
  - rewrite Ep. f_equal. destruct reply as [u | err]; simpl; auto.
    unfold status_is. destruct (status err) as [z |]; auto.
    destruct (Z.eqb_spec z 404), (Z.eqb_spec z 401); auto; lia.
  - destruct D as [[Er [L R]] | [L X]].
    + left. repeat split; auto; lia.
    + right. split; [lia | exact X].
Qed.

(** ** The producers and their promise *)

Lemma settle_quiet_prefix fn file before ev after :
  Forall (quiet fn file) before ->
  handlers fn file ev <> Pending ->
  settle (handlers fn file) (before ++ ev :: after) = handlers fn file ev.
Proof.
  intros Q N. induction Q as [| q before Hq Q IH]; simpl.
  - destruct (handlers fn file ev); congruence.
  - unfold quiet in Hq. rewrite Hq. exact IH.
Qed.

Lemma settle_decided fn file evs :
  settle (handlers fn file) evs <> Pending ->
  exists before ev after,
    evs = before ++ ev :: after /\ Forall (quiet fn file) before /\
    handlers fn file ev = settle (handlers fn file) evs.
Proof.
  induction evs as [| ev evs IH]; simpl; [congruence |].
  destruct (handlers fn file ev) eqn:H.
  - intros N. destruct (IH N) as [before [ev' [after [E [Q S]]]]].
    exists (ev :: before), ev', after. subst evs. repeat split; auto.
  - intros _. exists [], ev, evs. repeat split; auto.
  - intros _. exists [], ev, evs. repeat split; auto.
  - intros _. exists [], ev, evs. repeat split; auto.
Qed.

Lemma handlers_resolved fn file ev :
  handlers fn file ev = Resolved -> exists msg, ev = RequestResponse 201 msg.
Proof.
  destruct fn, ev; simpl; unfold react;
    repeat match goal with
           | |- (if ?b then _ else _) = _ -> _ => destruct b eqn:?
           end; try discriminate; intros _;
    match goal with
    | H : (_ =? 201)%Z = true |- _ => apply Z.eqb_eq in H; subst; eauto
    end.
Qed.

Lemma handlers_response fn file code msg :
  code <> 201%Z ->
  exists err, handlers fn file (RequestResponse code msg) = Rejected err
              /\ backupFilename err = Some file.
Proof.
  intros N. destruct fn; simpl; destruct (Z.eqb_spec code 201); try contradiction;
    eexists; split; reflexivity.
Qed.

Lemma upload_result w o fn file h :
  fst (upload w o fn file h) =
    match settle (handlers fn file) (delivered w o fn file h) with
    | Resolved => Ret tt
    | Rejected err => Throw err
    | Exited code => Exit code
    | Pending => Exit 1
    end.
Proof. unfold upload. destruct (settle _ _); reflexivity. Qed.

(** C3, as amended.  The job of an upload succeeds exactly when a response
    with status 201 is delivered before any event that settles the promise
    (a spawn error, a failing exit code of the producer, an error of the
    request stream); a response with any other status that is delivered
    first makes the job fail with an error that carries the generated
    filename, which the orchestrator catches and retries. *)
Theorem upload_succeeds_on_created_first :
  forall w o fn file h,
    (fst (upload w o fn file h) = Ret tt <->
     exists before msg after,
       delivered w o fn file h = before ++ RequestResponse 201 msg :: after /\
       Forall (quiet fn file) before) /\
    (forall before code msg after,
       delivered w o fn file h = before ++ RequestResponse code msg :: after ->
       Forall (quiet fn file) before ->
       code <> 201%Z ->
       exists err, fst (upload w o fn file h) = Throw err /\
                   backupFilename err = Some file).
Proof.
  intros w o fn file h. rewrite upload_result. split; [split |].
  - intros R.
    assert (S : settle (handlers fn file) (delivered w o fn file h) = Resolved)
      by (destruct (settle _ _); congruence || discriminate).
    destruct (settle_decided fn file (delivered w o fn file h))
      as [before [ev [after [E [Q H]]]]]; [congruence |].
    rewrite S in H. destruct (handlers_resolved _ _ _ H) as [msg Em]. subst ev.
    eauto.
  - intros [before [msg [after [E Q]]]]. rewrite E.
    rewrite settle_quiet_prefix; auto; destruct fn; simpl; congruence.
  - intros before code msg after E Q N. rewrite E.
    destruct (handlers_response fn file code msg N) as [err [H F]].
    rewrite settle_quiet_prefix; auto; [| congruence].
    rewrite H. eauto.
Qed.

(** C3 as stated fails: the archiver exits with code 2, which rejects the
    promise, and the response 201 that follows changes nothing. *)
Lemma created_after_failed_producer :
  ~ succeeds_iff_created failed_producer_world sample_options Tar
      (tarFilename "nightly" sample_moment) [].
Proof.
  unfold succeeds_iff_created. intros [_ H].
  assert (R : fst (upload failed_producer_world sample_options Tar
                     (tarFilename "nightly" sample_moment) []) = Ret tt).
  { apply H. exists "Created"%string. vm_compute. auto. }
  vm_compute in R. discriminate.
Qed.


(** ** Retention *)



(** C6, as amended.  A delete request of the pruner that fails ends the
    run: the request is the one the pruner announced, the error is printed
    with [console.error] and nothing else follows (the remaining entries are
    not looked at and no backup stage starts), and the exit code is 1.  The
    deletes of the pruner are the deletes before the first upload attempt. *)
Theorem failed_retention_delete_aborts_the_run :
  forall w o pre path err post,
    snd (run w o) = pre ++ DeleteFile path (DavErr err) :: post ->
    attempts pre = 0%nat ->
    (exists pre', pre = pre' ++ [ConsoleLog ("Deleting old backup: " +++ path)]) /\
    post = [ConsoleError err] /\
    fst (run w o) = 1%Z /\
    attempts (snd (run w o)) = 0%nat.
Proof.
  intros w o pre path err post E Z.
  assert (A : forall t, t = pre ++ DeleteFile path (DavErr err) :: [ConsoleError err] ->
                        attempts t = 0%nat).
  { intros t Et. subst t. rewrite attempts_app, Z. reflexivity. }
  unfold run in *.
  destruct (negb (hasDirs o) && negb (truthy (mysqlDb o)) && negb (truthy (mongoDb o))).
  - simpl in E. destruct pre as [| ? [| ? ?]]; discriminate.
  - pose proof (retentionM_body w o []) as F. unfold retention_ok in F.
    destruct (body w o []) as [[u | e | code] t]; simpl in *.
    + destruct (F _ _ _ _ E Z) as [_ [X _]]. discriminate.
    + apply app_eq_elt in E. destruct E as [[post1 [E1 E2]] | [pre2 [E1 E2]]].
      * destruct (F _ _ _ _ E1 Z) as [P [X Y]]. injection X as X. subst.
        repeat split; auto. apply A. rewrite <- app_assoc. reflexivity.
      * destruct pre2 as [| ? [| ? ?]]; discriminate.
    + destruct (F _ _ _ _ E Z) as [_ [X _]]. discriminate.
Qed.

(** C6 as stated fails: the store refuses the first delete of the pruner
    and no upload is attempted after it. *)
Lemma refused_delete_stops_the_run :
  ~ retention_failure_does_not_abort readonly_world weekly_options.
Proof.
  intros H.
  specialize (H [GetDirectoryContents "/" (DavOk []);
                 GetDirectoryContents "/backup" (DavOk sample_listing);
                 ConsoleLog "Deleting old backup: /backup/backup-nightly_2024-01-01_00-00-00-000.tgz"]
                "/backup/backup-nightly_2024-01-01_00-00-00-000.tgz"%string
                error_500 [ConsoleError error_500]).
  vm_compute in H. specialize (H eq_refl eq_refl).
  apply (Nat.nle_succ_0 0). exact H.
Qed.

(** ** The exit code of the run *)

(** When the bootstrap and the pruning return and every attempt is settled
    by its events, the generator runs to its end whether or not the backup
    stages succeeded, and every configured stage runs to its end. *)
Lemma stages_do_not_change_the_exit_code :
  forall w o c t1 t2,
    hasTargets o = true ->
    bootstrap w o [] = (Ret c, t1) ->
    prune w o c t1 = (Ret tt, t2) ->
    always_settles w o ->
    fst (run w o) = 0%Z /\
    (hasDirs o = true ->
     In (ConsoleLog "Directory dump completed") (snd (run w o)) /\
     exists file evs, In (Upload Tar file evs) (snd (run w o))) /\
    (truthy (mysqlDb o) = true ->
     In (ConsoleLog "MySQL dump completed") (snd (run w o)) /\
     exists file evs, In (Upload Mysql file evs) (snd (run w o))) /\
    (truthy (mongoDb o) = true ->
     In (ConsoleLog "MongoDB dump completed") (snd (run w o)) /\
     exists file evs, In (Upload Mongo file evs) (snd (run w o))).
Proof.
  intros w o c t1 t2 T B P S.
  destruct (stages_return w o S (t1 ++ t2)) as [t3 [E [I1 [I2 I3]]]].
  assert (R : run w o = (0%Z, t1 ++ t2 ++ t3)).
  { unfold run. unfold hasTargets in T.
    replace (negb (hasDirs o) && negb (truthy (mysqlDb o)) && negb (truthy (mongoDb o)))
      with false
      by (destruct (hasDirs o), (truthy (mysqlDb o)), (truthy (mongoDb o));
          simpl in *; congruence).
    unfold body. rewrite (bind_ret _ _ _ _ _ B). simpl app.
    rewrite (bind_ret _ _ _ _ _ P). rewrite E. reflexivity. }
  rewrite R. simpl. split; [reflexivity |].
  split; [| split]; intros H.
  - destruct (I1 H) as [L [file [evs U]]]. split.
    + apply in_or_app. right. apply in_or_app. auto.
    + exists file, evs. apply in_or_app. right. apply in_or_app. auto.
  - destruct (I2 H) as [L [file [evs U]]]. split.
    + apply in_or_app. right. apply in_or_app. auto.
    + exists file, evs. apply in_or_app. right. apply in_or_app. auto.
  - destruct (I3 H) as [L [file [evs U]]]. split.
    + apply in_or_app. right. apply in_or_app. auto.
    + exists file, evs. apply in_or_app. right. apply in_or_app. auto.
Qed.

(** C1 as stated fails: every attempt of the archive is answered with
    status 500, no attempt is resolved, and the exit code is 0. *)
Lemma failed_stage_exits_with_0 :
  ~ exit_0_only_if_stages_succeeded failing_uploads_world sample_options.
Proof.
  intros H.
  destruct (H eq_refl Tar (tarFilename "nightly" sample_moment)
              [ProcessExit (Some 0%Z); RequestResponse 500 "Internal Server Error"])
    as [file [evs [I S]]].
  - vm_compute. auto.
  - vm_compute in I.
    repeat match type of I with
           | _ \/ _ => destruct I as [I | I]
           | False => contradiction
           | _ = _ => try discriminate I
           end;
      injection I as I1 I2; subst; vm_compute in S; discriminate.
Qed.

(** ** The filename encoding *)

Lemma tar_chars name m :
  chars (tarFilename name m)
  = chars ("backup-" +++ name +++ "_")
      ++ chars (format_date m) ++ chars "_" ++ chars (format_time m) ++ chars ".tgz".
Proof.
  unfold tarFilename, format. rewrite !chars_append, <- !app_assoc. reflexivity.
Qed.

Lemma dump_chars name kind db m :
  chars ("backup-" +++ name +++ "_" +++ kind +++ "-" +++ db +++ "_" +++ format m +++ ".sql.gz")
  = chars ("backup-" +++ name +++ "_")
      ++ chars kind ++ chars "-" ++ chars db ++ chars "_"
      ++ chars (format_date m) ++ chars "_" ++ chars (format_time m) ++ chars ".sql.gz".
Proof.
  unfold format. rewrite !chars_append, <- !app_assoc. reflexivity.
Qed.

(** A name that goes on with a digit is matched without kind tag. *)
Lemma no_kind_tag c t s caps k :
  s = c :: t -> is_digit c = true ->
  rmatch (Alt kindPattern Empty) s caps k = k s caps.
Proof.
  intros E H. subst s. rewrite rmatch_Alt, (kind_rejects_digit c t caps k H).
  reflexivity.
Qed.

Lemma dump_exec name kind db m :
  kind = "mysql"%string \/ kind = "mongo"%string ->
  valid_moment m -> db <> ""%string -> single_line db = true ->
  exec (BACKUP_FILENAME_REGEXP name)
    ("backup-" +++ name +++ "_" +++ kind +++ "-" +++ db +++ "_" +++ format m +++ ".sql.gz")
  = Some [(3%nat, format_time m); (2%nat, format_date m); (1%nat, kind)].
Proof.
  intros K V N L.
  pose proof (format_date_shape m V) as D. pose proof (format_time_shape m V) as T.
  unfold exec. fold (chars ("backup-" +++ name +++ "_" +++ kind +++ "-" +++ db +++ "_"
                              +++ format m +++ ".sql.gz")).
  rewrite dump_chars. unfold BACKUP_FILENAME_REGEXP.
  rewrite rmatch_Seq, (consumes_Lit ("backup-" +++ name +++ "_")).
  rewrite rmatch_Seq, rmatch_Alt.
  fold accept.
  rewrite (kind_matches kind db _ [] [(3%nat, format_time m); (2%nat, format_date m); (1%nat, kind)]);
    auto; try (apply stamp_matches; auto);
    rewrite !length_app, (date_shape_length _ D), (time_shape_length _ T); simpl; lia.
Qed.

(** C5, as amended.  For an alphanumeric run name and a moment whose fields
    have their usual width, the name of the directory archive matches the
    pattern of the pruner for the same run name with no kind tag and with
    the date and the time of the moment; for a database name that is not
    empty and has no line terminator, the name of the relational dump
    matches with kind [mysql] and the name of the document dump with kind
    [mongo], each with the date and the time of the moment; and every name
    the pattern matches has the encoding
    [backup-<name>_[<kind>-<target>_]<date>_<time>.<ext>]. *)
Theorem producer_names_round_trip :
  forall name m,
    alphanumeric name = true ->
    valid_moment m ->
    exec (BACKUP_FILENAME_REGEXP name) (tarFilename name m)
    = Some [(3%nat, format_time m); (2%nat, format_date m)]
    /\ (forall db,
          db <> ""%string -> single_line db = true ->
          exec (BACKUP_FILENAME_REGEXP name) (mysqlFilename name db m)
          = Some [(3%nat, format_time m); (2%nat, format_date m); (1%nat, "mysql"%string)]
          /\ exec (BACKUP_FILENAME_REGEXP name) (mongoFilename name db m)
             = Some [(3%nat, format_time m); (2%nat, format_date m); (1%nat, "mongo"%string)])
    /\ (forall s, test (BACKUP_FILENAME_REGEXP name) s = true -> BackupFilename name s).
Proof.
  intros name m A V. split; [| split].
  - pose proof (format_date_shape m V) as D. pose proof (format_time_shape m V) as T.
    unfold exec. fold (chars (tarFilename name m)). rewrite tar_chars.
    unfold BACKUP_FILENAME_REGEXP.
    rewrite rmatch_Seq, (consumes_Lit ("backup-" +++ name +++ "_")).
    rewrite rmatch_Seq. fold accept.
    destruct (date_shape_head _ D) as [c [t [Ec Hc]]].
    rewrite (no_kind_tag c (t ++ chars "_" ++ chars (format_time m) ++ chars ".tgz"));
      [| rewrite Ec; reflexivity | assumption].
    apply stamp_matches; auto.
  - intros db N L. split.
    + apply (dump_exec name "mysql" db m); auto.
    + apply (dump_exec name "mongo" db m); auto.
  - intros s. apply test_BackupFilename.
Qed.

(** C5 on the run name [nightly] and a database called [shop]. *)
Lemma producer_names_round_trip_sample :
  exec (BACKUP_FILENAME_REGEXP "nightly") (mysqlFilename "nightly" "shop" sample_moment)
  = Some [(3%nat, "00-00-00-000"%string); (2%nat, "2024-01-01"%string);
          (1%nat, "mysql"%string)].
Proof.
  assert (V : valid_moment sample_moment)
    by (unfold valid_moment; cbn; repeat split; apply Nat.leb_le; reflexivity).
  destruct (producer_names_round_trip "nightly" sample_moment eq_refl V) as [_ [D _]].
  exact (proj1 (D "shop"%string ltac:(discriminate) eq_refl)).
Defined.

(** C5 as stated fails: a database name with a line feed gives a dump name
    that the pattern does not match, because [.] matches no line
    terminator. *)
Lemma name_with_line_feed_does_not_match :
  ~ producer_names_match "nightly" (String "a" (String "010" "b")) sample_moment.
Proof.
  unfold producer_names_match. intros [_ [H _]]. vm_compute in H. discriminate.
Qed.

(** ** Sample runs of the orchestrator *)

(** C2 on a store that answers every upload with status 500, with one
    retry: two attempts, each followed by the delete of the generated name. *)
Lemma backup_cleanup_before_retry_sample :
  (attempts (snd (backup failing_uploads_world sample_options Tar 0 [])) <= 2)%nat /\
  remote (snd (backup failing_uploads_world sample_options Tar 0 []))
  = [Upload Tar (tarFilename "nightly" sample_moment) failing_upload_events;
     DeleteFile ("/backup/" +++ tarFilename "nightly" sample_moment) (DavOk tt);
     Delay 10000;
     Upload Tar (tarFilename "nightly" sample_moment) failing_upload_events;
     DeleteFile ("/backup/" +++ tarFilename "nightly" sample_moment) (DavOk tt)].
Proof.
  split; [| reflexivity].
  exact (proj1 (backup_cleanup_before_retry failing_uploads_world sample_options Tar
                  [] [] (tarFilename "nightly" sample_moment) failing_upload_events
                  (tl (remote (snd (backup failing_uploads_world sample_options Tar 0 []))))
                  failing_upload_error eq_refl eq_refl eq_refl)).
Defined.

(** C10 on a request stream that breaks without a status, with one retry:
    two attempts, a delay between them and no delete. *)
Lemma backup_retry_without_cleanup_sample :
  (attempts (snd (backup broken_stream_world sample_options Tar 0 [])) <= 2)%nat /\
  remote (snd (backup broken_stream_world sample_options Tar 0 []))
  = [Upload Tar (tarFilename "nightly" sample_moment) [RequestError socket_error];
     Delay 10000;
     Upload Tar (tarFilename "nightly" sample_moment) [RequestError socket_error]].
Proof.
  split; [| reflexivity].
  exact (proj1 (backup_retry_without_cleanup broken_stream_world sample_options Tar
                  [] [] (tarFilename "nightly" sample_moment) [RequestError socket_error]
                  (tl (remote (snd (backup broken_stream_world sample_options Tar 0 []))))
                  socket_error eq_refl eq_refl eq_refl)).
Defined.

(** C9 on a store that refuses the cleanup delete with status 401: the
    warning is printed and the retry starts. *)
Lemma cleanup_outcome_does_not_affect_retry_sample :
  exists rest,
    skipn 5 (snd (backup unauthorized_cleanup_world sample_options Tar 0 []))
    = [ConsoleWarn (Str "Wrong credentials")] ++ rest /\
    ((rest = [] /\
      fst (backup unauthorized_cleanup_world sample_options Tar 0 []) = Ret tt /\
      (1 < 1)%Z)
     \/ ((1 <= 1)%Z /\
         exists url file' evs' rest',
           rest = ConsoleLog "Retrying" :: Delay 10000
                    :: ConsoleLog url :: Upload Tar file' evs' :: rest')).
Proof.
  exact (cleanup_outcome_does_not_affect_retry unauthorized_cleanup_world sample_options
           Tar []
           (firstn 4 (snd (backup unauthorized_cleanup_world sample_options Tar 0 [])))
           ("/backup/" +++ tarFilename "nightly" sample_moment)
           (DavErr error_401)
           (skipn 5 (snd (backup unauthorized_cleanup_world sample_options Tar 0 [])))
           eq_refl).
Defined.

(** C6 on the store that refuses every delete: the first delete of the
    pruner is the last request of the run. *)
Lemma failed_retention_delete_aborts_the_run_sample :
  fst (run readonly_world weekly_options) = 1%Z /\
  snd (run readonly_world weekly_options)
  = [GetDirectoryContents "/" (DavOk []);
     GetDirectoryContents "/backup" (DavOk sample_listing);
     ConsoleLog ("Deleting old backup: " +++ filename old_backup);
     DeleteFile (filename old_backup) (DavErr error_500);
     ConsoleError error_500].
Proof.
  split; [| reflexivity].
  exact (proj1 (proj2 (proj2
           (failed_retention_delete_aborts_the_run readonly_world weekly_options
              (firstn 3 (snd (run readonly_world weekly_options)))
              (filename old_backup) error_500 [ConsoleError error_500]
              eq_refl eq_refl)))).
Defined.

(** ** The bootstrap on a store without the backup directory *)

(** C8, where the code departs from it.  On the first run the listing of
    [/backup] fails with status 404 and the directory is created; the
    listing the bootstrap hands to the pruner is then the listing of the
    root, taken one iteration earlier, and the pruner deletes the old backup
    it finds there. *)
Theorem bootstrap_hands_over_the_listing_of_the_parent :
  bootstrap first_run_world weekly_options []
  = (Ret (Some [root_backup]),
     [GetDirectoryContents "/" (DavOk [root_backup]);
      GetDirectoryContents "/backup" (DavErr error_404);
      ConsoleLog "Creating directory: /backup";
      CreateDirectory "/backup" (DavOk tt)])
  /\ deleted (snd (run first_run_world weekly_options))
     = ["/backup-nightly_2024-01-01_00-00-00-000.tgz"%string]
  /\ fst (run first_run_world weekly_options) = 0%Z.
Proof. vm_compute. auto. Qed.

(** * Further properties of the program *)

(** ** The exit code *)

Lemma handlers_exited fn file ev code :
  handlers fn file ev = Exited code -> code = 1%Z.
Proof.
  destruct fn, ev; simpl; unfold react;
    repeat match goal with
           | |- (if ?b then _ else _) = _ -> _ => destruct b
           end; intros H; try discriminate; injection H as H; auto.
Qed.

Lemma settle_exited fn file evs code :
  settle (handlers fn file) evs = Exited code -> code = 1%Z.
Proof.
  induction evs as [| ev evs IH]; simpl; [discriminate |].
  destruct (handlers fn file ev) eqn:H; auto; try discriminate.
  intros E. injection E as E. subst. eapply handlers_exited. eassumption.
Qed.

Lemma backupTrace_exits o fn c t r :
  backupTrace o fn c t r -> r = Ret tt \/ r = Exit 1.
Proof.
  induction 1; auto.
  right. f_equal. eapply settle_exited. eassumption.
Qed.

Lemma exits1_ret {A} (a : A) : exits1 (ret a).
Proof. intros h code H. discriminate. Qed.

Lemma exits1_throw {A} err : exits1 (@throw A err).
Proof. intros h code H. discriminate. Qed.

Lemma exits1_bind {A B} (m : M A) (f : A -> M B) :
  exits1 m -> (forall a, exits1 (f a)) -> exits1 (bind m f).
Proof.
  intros Hm Hf h code. unfold bind. specialize (Hm h).
  destruct (m h) as [[a | err | c] t1]; simpl in *.
  - specialize (Hf a (h ++ t1)). destruct (f a (h ++ t1)) as [r t2]. simpl in *.
    exact (Hf code).
  - discriminate.
  - intros E. injection E as E. subst. apply Hm. reflexivity.
Qed.

Lemma exits1_try_catch {A} (m : M A) handler :
  exits1 m -> (forall err, exits1 (handler err)) -> exits1 (try_catch m handler).
Proof.
  intros Hm Hf h code. unfold try_catch. specialize (Hm h).
  destruct (m h) as [[a | err | c] t1]; simpl in *.
  - discriminate.
  - specialize (Hf err (h ++ t1)). destruct (handler err (h ++ t1)) as [r t2].
    simpl in *. exact (Hf code).
  - exact (Hm code).
Qed.

Lemma exits1_no_exit {A} (m : M A) :
  (forall h code, fst (m h) <> Exit code) -> exits1 m.
Proof. intros H h code E. exfalso. exact (H h code E). Qed.

Section ExitCode.

Variable w : World.
Variable o : Options.

Lemma exits1_bootstrapStep i c : exits1 (bootstrapStep w o i c).
Proof.
  unfold bootstrapStep. apply exits1_try_catch.
  - apply exits1_bind; [| intros; apply exits1_ret].
    apply exits1_no_exit. intros h code. unfold dav_getDirectoryContents. simpl.
    destruct (getDirectoryContents w h _); discriminate.
  - intros err. destruct (status_is (status err) 404).
    + apply exits1_bind; [apply exits1_no_exit; discriminate | intros _].
      apply exits1_bind; [| intros; apply exits1_ret].
      apply exits1_no_exit. intros h code. unfold dav_createDirectory. simpl.
      destruct (createDirectory w h _); discriminate.
    + destruct (status_is (status err) 401).
      * apply exits1_bind; [apply exits1_no_exit; discriminate | intros _].
        intros h code E. injection E as E. auto.
      * apply exits1_throw.
Qed.

Lemma exits1_bootstrapLoop : forall remaining c, exits1 (bootstrapLoop w o remaining c).
Proof.
  induction remaining as [| n IH]; intros c; simpl;
    (apply exits1_bind; [apply exits1_bootstrapStep | intros c']).
  - apply exits1_ret.
  - apply IH.
Qed.

Lemma exits1_pruneLoop obsoleteMoment : forall contents,
  exits1 (pruneLoop w o obsoleteMoment contents).
Proof.
  induction contents as [| e rest IH]; simpl; [apply exits1_ret |].
  apply exits1_bind; [| intros _; exact IH].
  destruct (obsolete w o obsoleteMoment e); [| apply exits1_ret].
  apply exits1_bind; [apply exits1_no_exit; discriminate | intros _].
  apply exits1_no_exit. intros h code. unfold dav_deleteFile. simpl.
  destruct (deleteFile w h _); discriminate.
Qed.

Lemma exits1_prune c : exits1 (prune w o c).
Proof.
  unfold prune.
  destruct (gt_zero (daysToKeep o) && lt_Infinity (daysToKeep o)); [| apply exits1_ret].
  apply exits1_bind; [apply exits1_no_exit; discriminate | intros now].
  destruct c; [apply exits1_pruneLoop | apply exits1_throw].
Qed.

Lemma exits1_backup fn c : exits1 (backup w o fn c).
Proof.
  intros h code E.
  destruct (backupTrace_exits o fn c _ _ (backup_conforms w o fn c h)) as [R | R];
    rewrite R in E; [discriminate | injection E as E; auto].
Qed.

Lemma exits1_stages : exits1 (stages w o).
Proof.
  unfold stages.
  repeat (apply exits1_bind; [| intros _]);
    match goal with
    | |- exits1 (if ?b then _ else _) =>
        destruct b;
        [ apply exits1_bind; [apply exits1_backup | intros _];
          apply exits1_no_exit; discriminate
        | apply exits1_ret ]
    end.
Qed.

Lemma exits1_body : exits1 (body w o).
Proof.
  unfold body.
  apply exits1_bind; [apply exits1_bootstrapLoop | intros c].
  apply exits1_bind; [apply exits1_prune | intros _].
  apply exits1_stages.
Qed.

End ExitCode.

(** X1.  Whatever the store, the producers and the options do, the process
    ends with exit code 0 or with exit code 1. *)
Theorem run_exit_code_is_0_or_1 :
  forall w o, fst (run w o) = 0%Z \/ fst (run w o) = 1%Z.
Proof.
  intros w o. unfold run.
  destruct (negb (hasDirs o) && negb (truthy (mysqlDb o)) && negb (truthy (mongoDb o)));
    [right; reflexivity |].
  pose proof (exits1_body w o []) as E.
  destruct (body w o []) as [[u | err | code] t]; simpl in *;
    [left; reflexivity | right; reflexivity | right; apply E; reflexivity].
Qed.

(** ** Fatal interactions *)

Lemma haltsM_avoids {A} (m : M A) : avoids isFatal m -> haltsM m.
Proof.
  intros H h pre a post tail e E F. exfalso.
  specialize (H h). rewrite E, filter_app in H. simpl in H.
  unfold isFatal in H at 2. rewrite F in H.
  destruct (filter isFatal pre); discriminate.
Qed.

Lemma haltsM_bind {A B} (m : M A) (f : A -> M B) :
  haltsM m -> (forall a, haltsM (f a)) -> haltsM (bind m f).
Proof.
  intros Hm Hf h pre a post tail e E F.
  unfold bind in *. specialize (Hm h). unfold halts_ok in Hm.
  destruct (m h) as [[x | err | c] t1]; simpl in *.
  - specialize (Hf x (h ++ t1)). unfold halts_ok in Hf.
    destruct (f x (h ++ t1)) as [r t2]; simpl in *.
    apply app_eq_elt in E. destruct E as [[post1 [E1 E2]] | [pre2 [E1 E2]]].
    + destruct (Hm _ _ _ _ _ E1 F) as [_ X]. destruct e; discriminate.
    + exact (Hf _ _ _ _ _ E2 F).
  - destruct (Hm _ _ _ _ _ E F) as [P X]. split; [assumption |].
    destruct e; simpl in *; [injection X as X; subst; reflexivity | discriminate].
  - destruct (Hm _ _ _ _ _ E F) as [P X]. split; [assumption |].
    destruct e; simpl in *; [discriminate | injection X as X; subst; reflexivity].
Qed.

Section Fatal.

Variable w : World.
Variable o : Options.

Lemma haltsM_bootstrapStep i c : haltsM (bootstrapStep w o i c).
Proof.
  intros h pre a post tail e E F.
  unfold bootstrapStep, try_catch, bind, dav_getDirectoryContents, ret in *.
  destruct (getDirectoryContents w h (segmentedDavDir o i)) as [l | err] eqn:G;
    cbn [settle_reply fst snd app] in *.
  - destruct pre as [| ? [| ? ?]]; try discriminate.
    injection E as E1 E2. subst. discriminate.
  - destruct (status_is (status err) 404) eqn:S4.
    + unfold console_log, emit, dav_createDirectory in *.
      cbn [settle_reply fst snd app] in *.
      destruct (createDirectory w _ _) as [[] | err'] eqn:C;
        cbn [settle_reply fst snd app] in *;
        (destruct pre as [| ? [| ? [| ? [| ? ?]]]]; try discriminate;
         [ injection E as E1 E2; subst; simpl in F; rewrite S4 in F; discriminate
         | injection E as E1 E2 E3; subst; discriminate
         | injection E as E1 E2 E3 E4; subst; simpl in F; try discriminate ]).
      injection F as F1 F2. subst. split; reflexivity.
    + destruct (status_is (status err) 401) eqn:S1; cbn [fst snd app] in *.
      * unfold console_warn, emit in *. cbn [fst snd app] in *.
        destruct pre as [| ? [| ? [| ? ?]]]; try discriminate.
        -- injection E as E1 E2. subst. simpl in F. rewrite S4, S1 in F.
           injection F as F1 F2. subst. split; reflexivity.
        -- injection E as E1 E2 E3. subst. discriminate.
      * unfold throw in *. cbn [fst snd app] in *.
        destruct pre as [| ? [| ? ?]]; try discriminate.
        injection E as E1 E2. subst. simpl in F. rewrite S4, S1 in F.
        injection F as F1 F2. subst. split; reflexivity.
Qed.

Lemma haltsM_bootstrapLoop : forall remaining c, haltsM (bootstrapLoop w o remaining c).
Proof.
  induction remaining as [| n IH]; intros c; simpl;
    (apply haltsM_bind; [apply haltsM_bootstrapStep | intros c']).
  - apply haltsM_avoids, avoids_ret.
  - apply IH.
Qed.

Lemma backupTrace_no_setup fn c t r : backupTrace o fn c t r -> filter isSetup t = [].
Proof.
  assert (C : forall err cl, cleanupTrace o err cl -> filter isSetup cl = []).
  { intros err cl H. inversion H; subst; simpl; auto.
    destruct reply as [u | e]; simpl; auto.
    destruct (status_is (status e) 401); [| destruct (status_is (status e) 404)]; auto. }
  induction 1; simpl; auto.
  - eapply C; eassumption.
  - rewrite filter_app. erewrite C by eassumption. simpl. assumption.
Qed.

Lemma haltsM_backup fn c : haltsM (backup w o fn c).
Proof.
  intros h pre a post tail e E F.
  pose proof (backup_conforms w o fn c h) as B.
  destruct a; simpl in F; try discriminate.
  - exfalso. pose proof (backupTrace_no_setup _ _ _ _ B) as N.
    rewrite E, filter_app in N. simpl in N. destruct (filter isSetup pre); discriminate.
  - exfalso. pose proof (backupTrace_no_setup _ _ _ _ B) as N.
    rewrite E, filter_app in N. simpl in N. destruct (filter isSetup pre); discriminate.
  - destruct (backupTrace_round o fn c _ _ B _ _ _ _ _ E) as [Ef A]. subst fn0.
    unfold afterAttempt in A.
    destruct (settle (handlers fn file) events) eqn:S; try discriminate;
      injection F as F1 F2; subst; exact A.
Qed.

Lemma haltsM_stages : haltsM (stages w o).
Proof.
  unfold stages.
  repeat (apply haltsM_bind; [| intros _]);
    match goal with
    | |- haltsM (if ?b then _ else _) =>
        destruct b;
        [ apply haltsM_bind; [apply haltsM_backup | intros _];
          apply haltsM_avoids, avoids_emit; reflexivity
        | apply haltsM_avoids, avoids_ret ]
    end.
Qed.

Lemma haltsM_body : haltsM (body w o).
Proof.
  unfold body.
  apply haltsM_bind; [apply haltsM_bootstrapLoop | intros c].
  apply haltsM_bind; [apply haltsM_avoids, prune_avoids; reflexivity | intros _].
  apply haltsM_stages.
Qed.

(** A fatal interaction is the last one of the run: only its message and,
    for a thrown error, the line of [console.error] follow, and the exit
    code is 1. *)
Lemma run_halts pre a post tail e :
  snd (run w o) = pre ++ a :: post ->
  fatal a = Some (tail, e) ->
  post = tail ++ lastWords e /\ fst (run w o) = 1%Z.
Proof.
  intros E F. unfold run in *.
  destruct (negb (hasDirs o) && negb (truthy (mysqlDb o)) && negb (truthy (mongoDb o))).
  - simpl in E. destruct pre as [| ? [| ? ?]]; try discriminate.
    injection E as E1 E2. subst. discriminate.
  - pose proof (haltsM_body []) as H. unfold halts_ok in H.
    pose proof (exits1_body w o []) as X.
    destruct (body w o []) as [[u | err | code] t]; simpl in *.
    + destruct (H _ _ _ _ _ E F) as [_ R]. destruct e; discriminate.
    + apply app_eq_elt in E. destruct E as [[post1 [E1 E2]] | [pre2 [E1 E2]]].
      * destruct (H _ _ _ _ _ E1 F) as [P R]. subst.
        destruct e; simpl in R; [injection R as R; subst; auto | discriminate].
      * destruct pre2 as [| ? [| ? ?]]; try discriminate.
        injection E2 as E2 E3. subst. discriminate.
    + destruct (H _ _ _ _ _ E F) as [P R]. subst.
      destruct e; simpl in R; [discriminate |]. injection R as R. subst.
      simpl. rewrite app_nil_r. split; [reflexivity |]. apply X. reflexivity.
Qed.

End Fatal.


(** X2.  A listing of the bootstrap that fails with another status than
    404 ends the run with exit code 1: after status 401 the warning [Wrong
    credentials] is the last action, after any other status the error is
    printed with [console.error] and nothing else happens. *)
Theorem failed_listing_ends_the_run :
  forall w o pre path err post,
    snd (run w o) = pre ++ GetDirectoryContents path (DavErr err) :: post ->
    status_is (status err) 404 = false ->
    fst (run w o) = 1%Z /\
    post = if status_is (status err) 401
           then [ConsoleWarn (Str "Wrong credentials")]
           else [ConsoleError err].
Proof.
  intros w o pre path err post E S4.
  destruct (status_is (status err) 401) eqn:S1.
  - destruct (run_halts w o pre _ post [ConsoleWarn (Str "Wrong credentials")] (Exits 1) E)
      as [P R]; [simpl; rewrite S4, S1; reflexivity |].
    split; [assumption | exact P].
  - destruct (run_halts w o pre _ post [] (Throws err) E) as [P R];
      [simpl; rewrite S4, S1; reflexivity |].
    split; [assumption | exact P].
Qed.

(** X2 on a store that rejects the credentials. *)
Lemma failed_listing_ends_the_run_sample :
  fst (run unauthorized_world weekly_options) = 1%Z /\
  skipn 1 (snd (run unauthorized_world weekly_options))
  = [ConsoleWarn (Str "Wrong credentials")].
Proof.
  exact (failed_listing_ends_the_run unauthorized_world weekly_options
           [] "/"%string error_401
           (skipn 1 (snd (run unauthorized_world weekly_options)))
           eq_refl eq_refl).
Defined.

(** X3.  A directory of the bootstrap that cannot be created ends the run:
    the error is printed with [console.error], nothing else happens and the
    exit code is 1. *)
Theorem failed_mkdir_ends_the_run :
  forall w o pre path err post,
    snd (run w o) = pre ++ CreateDirectory path (DavErr err) :: post ->
    fst (run w o) = 1%Z /\ post = [ConsoleError err].
Proof.
  intros w o pre path err post E.
  destruct (run_halts w o pre _ post [] (Throws err) E) as [P R];
    [reflexivity |].
  split; [assumption | exact P].
Qed.

(** X3 on a store that refuses to create [/backup]. *)
Lemma failed_mkdir_ends_the_run_sample :
  fst (run no_mkdir_world weekly_options) = 1%Z /\
  skipn 4 (snd (run no_mkdir_world weekly_options)) = [ConsoleError error_500].
Proof.
  exact (failed_mkdir_ends_the_run no_mkdir_world weekly_options
           (firstn 3 (snd (run no_mkdir_world weekly_options)))
           "/backup"%string error_500
           (skipn 4 (snd (run no_mkdir_world weekly_options))) eq_refl).
Defined.



(** ** Directories that are missing *)

Lemma creates_ok_quiet t : filter isSetup t = [] -> creates_ok t.
Proof.
  intros H pre path err post E _. exfalso. rewrite E, filter_app in H.
  simpl in H. destruct (filter isSetup pre); discriminate.
Qed.

Lemma creates_ok_app t1 t2 : creates_ok t1 -> creates_ok t2 -> creates_ok (t1 ++ t2).
Proof.
  intros H1 H2 pre path err post E S.
  apply app_eq_elt in E. destruct E as [[post1 [E1 E2]] | [pre2 [E1 E2]]].
  - destruct (H1 _ _ _ _ E1 S) as [reply [rest P]]. subst.
    exists reply, (rest ++ t2). reflexivity.
  - exact (H2 _ _ _ _ E2 S).
Qed.

Lemma createsM_bind {A B} (m : M A) (f : A -> M B) :
  createsM m -> (forall a, createsM (f a)) -> createsM (bind m f).
Proof.
  intros Hm Hf h. unfold bind. specialize (Hm h).
  destruct (m h) as [[a | err | c] t1]; simpl in *; auto.
  specialize (Hf a (h ++ t1)). destruct (f a (h ++ t1)) as [r t2]; simpl in *.
  apply creates_ok_app; assumption.
Qed.

Lemma createsM_avoids {A} (m : M A) : avoids isSetup m -> createsM m.
Proof. intros H h. apply creates_ok_quiet, H. Qed.

Section Creates.

Variable w : World.
Variable o : Options.

Lemma createsM_bootstrapStep i c : createsM (bootstrapStep w o i c).
Proof.
  intros h pre path err post E S.
  unfold bootstrapStep, try_catch, bind, dav_getDirectoryContents, ret in *.
  destruct (getDirectoryContents w h (segmentedDavDir o i)) as [l | err0] eqn:G;
    cbn [settle_reply fst snd app] in *.
  - destruct pre as [| ? [| ? ?]]; try discriminate.
  - assert (S4 : forall e, status e = Some 404%Z -> status_is (status e) 404 = true)
      by (intros e He; rewrite He; reflexivity).
    destruct (status_is (status err0) 404) eqn:S0.
    + unfold console_log, emit, dav_createDirectory in *.
      cbn [settle_reply fst snd app] in *.
      destruct (createDirectory w _ _) as [[] | err'] eqn:C;
        cbn [settle_reply fst snd app] in *;
        (destruct pre as [| ? [| ? [| ? [| ? ?]]]]; try discriminate;
         injection E as E1 E2 E3; subst; eauto).
    + destruct (status_is (status err0) 401) eqn:S1; cbn [fst snd app] in *.
      * unfold console_warn, emit in *. cbn [fst snd app] in *.
        destruct pre as [| ? [| ? [| ? ?]]]; try discriminate.
        injection E as E1 E2 E3. subst. rewrite (S4 _ S) in S0. discriminate.
      * unfold throw in *. cbn [fst snd app] in *.
        destruct pre as [| ? [| ? ?]]; try discriminate.
        injection E as E1 E2 E3. subst. rewrite (S4 _ S) in S0. discriminate.
Qed.

Lemma createsM_bootstrapLoop : forall remaining c, createsM (bootstrapLoop w o remaining c).
Proof.
  induction remaining as [| n IH]; intros c; simpl;
    (apply createsM_bind; [apply createsM_bootstrapStep | intros c']).
  - apply createsM_avoids, avoids_ret.
  - apply IH.
Qed.

Lemma stages_no_setup : avoids isSetup (stages w o).
Proof.
  unfold stages.
  repeat (apply avoids_bind; [| intros _]);
    match goal with
    | |- avoids _ (if ?b then _ else _) =>
        destruct b;
        [ apply avoids_bind;
          [ intros h; eapply backupTrace_no_setup, backup_conforms
          | intros _; apply avoids_emit; reflexivity ]
        | apply avoids_ret ]
    end.
Qed.

Lemma createsM_body : createsM (body w o).
Proof.
  unfold body.
  apply createsM_bind; [apply createsM_bootstrapLoop | intros c].
  apply createsM_bind; [apply createsM_avoids, prune_avoids; reflexivity | intros _].
  apply createsM_avoids, stages_no_setup.
Qed.

End Creates.

(** X5.  A listing of the bootstrap that fails with status 404 is
    followed at once by the announcement and by the request to create the
    directory that was listed. *)
Theorem missing_directory_is_created :
  forall w o pre path err post,
    snd (run w o) = pre ++ GetDirectoryContents path (DavErr err) :: post ->
    status err = Some 404%Z ->
    exists reply rest,
      post = ConsoleLog ("Creating directory: " +++ path)
               :: CreateDirectory path reply :: rest.
Proof.
  intros w o pre path err post E S. unfold run in E.
  destruct (negb (hasDirs o) && negb (truthy (mysqlDb o)) && negb (truthy (mongoDb o))).
  - simpl in E. destruct pre as [| ? [| ? ?]]; discriminate.
  - pose proof (createsM_body w o []) as H.
    destruct (body w o []) as [[u | e | code] t]; simpl in *.
    + exact (H _ _ _ _ E S).
    + assert (C : creates_ok (t ++ [ConsoleError e]))
        by (apply creates_ok_app; [assumption | apply creates_ok_quiet; reflexivity]).
      exact (C _ _ _ _ E S).
    + exact (H _ _ _ _ E S).
Qed.

(** X5 on the first run against a store without [/backup]. *)
Lemma missing_directory_is_created_sample :
  exists reply rest,
    skipn 2 (snd (run first_run_world weekly_options))
    = ConsoleLog "Creating directory: /backup"
        :: CreateDirectory "/backup" reply :: rest.
Proof.
  exact (missing_directory_is_created first_run_world weekly_options
           (firstn 1 (snd (run first_run_world weekly_options)))
           "/backup"%string error_404
           (skipn 2 (snd (run first_run_world weekly_options)))
           eq_refl eq_refl).
Defined.

(** ** The order of the phases *)

Lemma bind_trace {A B} (m : M A) (f : A -> M B) h :
  exists t2,
    snd (bind m f h) = snd (m h) ++ t2 /\
    (t2 = [] \/ exists a, fst (m h) = Ret a /\ t2 = snd (f a (h ++ snd (m h)))).
Proof.
  unfold bind. destruct (m h) as [[a | err | code] t1]; simpl.
  - destruct (f a (h ++ t1)) as [r t2] eqn:F. exists t2. simpl. split; [reflexivity |].
    right. exists a. rewrite F. auto.
  - exists []. rewrite app_nil_r. auto.
  - exists []. rewrite app_nil_r. auto.
Qed.

Lemma filter_nil_prefix {A} (p : A -> bool) (t pre post : list A) :
  filter p t = [] -> t = pre ++ post -> filter p pre = [] /\ filter p post = [].
Proof.
  intros H E. subst. rewrite filter_app in H. apply app_eq_nil in H. exact H.
Qed.

Lemma deleted_quiet t : filter isDelete t = [] -> deleted t = [].
Proof.
  induction t as [| a t IH]; simpl; auto.
  destruct a; simpl; auto; discriminate.
Qed.

Lemma producers_quiet t : filter isUpload t = [] -> producers t = [].
Proof.
  induction t as [| a t IH]; simpl; auto.
  destruct a; simpl; auto; discriminate.
Qed.

Lemma producers_app t1 t2 : producers (t1 ++ t2) = producers t1 ++ producers t2.
Proof.
  induction t1 as [| a t1 IH]; simpl; auto.
  destruct a; simpl; rewrite ?IH; reflexivity.
Qed.

(** X6.  The bootstrap is over before anything else starts: in every run,
    no listing and no creation of a directory happens after a delete
    request or after an upload attempt. *)
Theorem bootstrap_precedes_deletes_and_uploads :
  forall w o pre a post,
    snd (run w o) = pre ++ a :: post ->
    isSetup a = true ->
    deleted pre = [] /\ attempts pre = 0%nat.
Proof.
  intros w o pre a post E S.
  assert (G : forall t1 : Trace,
             filter isDelete t1 = [] -> filter isUpload t1 = [] ->
             forall t2 : Trace, filter isSetup t2 = [] ->
             t1 ++ t2 = pre ++ a :: post ->
             deleted pre = [] /\ attempts pre = 0%nat).
  { intros t1 D U t2 N E'. apply app_eq_elt in E'.
    destruct E' as [[post1 [E1 E2]] | [pre2 [E1 E2]]].
    - destruct (filter_nil_prefix _ _ _ _ D E1) as [Dp _].
      destruct (filter_nil_prefix _ _ _ _ U E1) as [Up _].
      split; [apply deleted_quiet; assumption |].
      unfold attempts. rewrite Up. reflexivity.
    - exfalso. rewrite E2, filter_app in N. simpl in N. rewrite S in N.
      destruct (filter isSetup pre2); discriminate. }
  unfold run in E.
  destruct (negb (hasDirs o) && negb (truthy (mysqlDb o)) && negb (truthy (mongoDb o))).
  - simpl in E. destruct pre as [| ? [| ? ?]]; try discriminate.
    injection E as E1 E2. subst. discriminate.
  - unfold body in E.
    destruct (bind_trace (bootstrap w o)
                (fun c => prune w o c ;; stages w o) []) as [t2 [Et T2]].
    assert (N : filter isSetup t2 = []).
    { destruct T2 as [T2 | [c [_ T2]]]; subst t2; [reflexivity |].
      apply (avoids_bind isSetup (prune w o c) (fun _ => stages w o)).
      - apply prune_avoids; reflexivity.
      - intros _. apply stages_no_setup. }
    pose proof (bootstrapLoop_avoids w o isDelete ltac:(reflexivity) ltac:(reflexivity)
                  ltac:(reflexivity) ltac:(reflexivity)
                  (List.length (davDirSegments o)) None []) as D.
    pose proof (bootstrap_no_upload w o []) as U.
    fold (bootstrap w o) in D.
    destruct (bind (bootstrap w o) (fun c => prune w o c ;; stages w o) [])
      as [[u | e | code] t] eqn:B; simpl in Et, E; rewrite Et in E.
    + exact (G _ D U _ N E).
    + rewrite <- app_assoc in E.
      apply (G _ D U (t2 ++ [ConsoleError e])); [| exact E].
      rewrite filter_app, N. reflexivity.
    + exact (G _ D U _ N E).
Qed.

(** X6 on the store of scenario A: the second listing comes first. *)
Lemma bootstrap_precedes_deletes_and_uploads_sample :
  deleted (firstn 1 (snd (run pruning_world weekly_options))) = [] /\
  attempts (firstn 1 (snd (run pruning_world weekly_options))) = 0%nat.
Proof.
  exact (bootstrap_precedes_deletes_and_uploads pruning_world weekly_options
           (firstn 1 (snd (run pruning_world weekly_options)))
           (GetDirectoryContents "/backup" (DavOk sample_listing))
           (skipn 2 (snd (run pruning_world weekly_options)))
           eq_refl eq_refl).
Defined.

(** ** The order of the jobs *)

Lemma backupTrace_producers o fn c t r :
  backupTrace o fn c t r -> producers t = repeat fn (attempts t).
Proof.
  assert (C : forall err cl, cleanupTrace o err cl -> producers cl = []).
  { intros err cl H. apply producers_quiet.
    pose proof (cleanupTrace_attempts o err cl H) as A. unfold attempts in A.
    destruct (filter isUpload cl); [reflexivity | discriminate]. }
  induction 1 as [c url f e S | c url f e code S | c url f e S
                 | c url f e err cl S Cl L | c url f e err cl rest r S Cl L B IH];
    try reflexivity.
  - change (ConsoleLog url :: Upload fn f e :: ConsoleWarn (Obj err) :: cl)
      with ([ConsoleLog url; Upload fn f e; ConsoleWarn (Obj err)] ++ cl).
    rewrite producers_app, attempts_app, (C _ _ Cl), (cleanupTrace_attempts _ _ _ Cl).
    reflexivity.
  - change (ConsoleLog url :: Upload fn f e :: ConsoleWarn (Obj err)
              :: cl ++ ConsoleLog "Retrying" :: Delay RETRY_DELAY :: rest)
      with ([ConsoleLog url; Upload fn f e; ConsoleWarn (Obj err)]
              ++ cl ++ [ConsoleLog "Retrying"; Delay RETRY_DELAY] ++ rest).
    rewrite !producers_app, !attempts_app, (C _ _ Cl), (cleanupTrace_attempts _ _ _ Cl), IH.
    reflexivity.
Qed.

Section Jobs.

Variable w : World.
Variable o : Options.

(** One optional stage: the attempts of its producer, within the budget. *)
Lemma stage_producers (b : bool) fn msg h :
  exists k,
    producers (snd ((if b then backup w o fn 0 ;; console_log msg else ret tt) h))
    = repeat fn k /\
    (k <= Z.to_nat (retries o) + 1)%nat /\ (b = false -> k = 0%nat).
Proof.
  destruct b.
  - destruct (bind_trace (backup w o fn 0) (fun _ => console_log msg) h)
      as [t2 [Et T2]].
    pose proof (backup_conforms w o fn 0 h) as B.
    exists (attempts (snd (backup w o fn 0 h))).
    split; [| split; [| discriminate]].
    + rewrite Et, producers_app, (backupTrace_producers _ _ _ _ _ B).
      destruct T2 as [T2 | [a [_ T2]]]; subst t2; simpl; apply app_nil_r.
    + pose proof (backupTrace_attempts o fn 0 _ _ B) as A.
      rewrite Z.sub_0_r in A. lia.
  - exists 0%nat. simpl. repeat split; auto. lia.
Qed.

Lemma stages_producers h :
  exists a b c,
    producers (snd (stages w o h))
    = repeat Tar a ++ repeat Mysql b ++ repeat Mongo c /\
    (a <= Z.to_nat (retries o) + 1)%nat /\
    (b <= Z.to_nat (retries o) + 1)%nat /\
    (c <= Z.to_nat (retries o) + 1)%nat /\
    (hasDirs o = false -> a = 0%nat) /\
    (truthy (mysqlDb o) = false -> b = 0%nat) /\
    (truthy (mongoDb o) = false -> c = 0%nat).
Proof.
  unfold stages.
  match goal with
  | |- context [bind ?m1 (fun _ => bind ?m2 (fun _ => ?m3))] =>
      destruct (bind_trace m1 (fun _ => bind m2 (fun _ => m3)) h) as [t2 [E1 T2]];
      destruct (stage_producers (hasDirs o) Tar "Directory dump completed" h)
        as [a [Pa [La Za]]]
  end.
  rewrite E1, producers_app, Pa.
  destruct T2 as [T2 | [u [_ T2]]]; subst t2.
  - exists a, 0%nat, 0%nat. simpl. repeat split; auto; lia.
  - match goal with
    | |- context [bind ?m2 (fun _ => ?m3) ?h1] =>
        destruct (bind_trace m2 (fun _ => m3) h1) as [t3 [E2 T3]];
        destruct (stage_producers (truthy (mysqlDb o)) Mysql "MySQL dump completed" h1)
          as [b [Pb [Lb Zb]]]
    end.
    rewrite E2, producers_app, Pb.
    destruct T3 as [T3 | [u' [_ T3]]]; subst t3.
    + exists a, b, 0%nat. simpl. repeat split; auto; lia.
    + match goal with
      | |- context [snd ((if truthy (mongoDb o) then _ else _) ?h2)] =>
          destruct (stage_producers (truthy (mongoDb o)) Mongo "MongoDB dump completed" h2)
            as [c [Pc [Lc Zc]]]
      end.
      rewrite Pc. exists a, b, c. repeat split; auto.
Qed.

End Jobs.

(** X7.  The jobs of a run follow each other in a fixed order and each
    within its budget: the upload attempts of a run are attempts of the
    directory archive, then attempts of the relational dump, then attempts
    of the document dump, at most [retries + 1] of each, and none of a job
    that is not configured. *)
Theorem jobs_run_in_order_within_budget :
  forall w o,
    exists a b c,
      producers (snd (run w o))
      = repeat Tar a ++ repeat Mysql b ++ repeat Mongo c /\
      (a <= Z.to_nat (retries o) + 1)%nat /\
      (b <= Z.to_nat (retries o) + 1)%nat /\
      (c <= Z.to_nat (retries o) + 1)%nat /\
      (hasDirs o = false -> a = 0%nat) /\
      (truthy (mysqlDb o) = false -> b = 0%nat) /\
      (truthy (mongoDb o) = false -> c = 0%nat).
Proof.
  intros w o.
  assert (Z0 : exists a b c : nat,
             @nil Producer = repeat Tar a ++ repeat Mysql b ++ repeat Mongo c /\
             (a <= Z.to_nat (retries o) + 1)%nat /\
             (b <= Z.to_nat (retries o) + 1)%nat /\
             (c <= Z.to_nat (retries o) + 1)%nat /\
             (hasDirs o = false -> a = 0%nat) /\
             (truthy (mysqlDb o) = false -> b = 0%nat) /\
             (truthy (mongoDb o) = false -> c = 0%nat))
    by (exists 0%nat, 0%nat, 0%nat; simpl; repeat split; auto; lia).
  assert (P : exists a b c,
             producers (snd (body w o []))
             = repeat Tar a ++ repeat Mysql b ++ repeat Mongo c /\
             (a <= Z.to_nat (retries o) + 1)%nat /\
             (b <= Z.to_nat (retries o) + 1)%nat /\
             (c <= Z.to_nat (retries o) + 1)%nat /\
             (hasDirs o = false -> a = 0%nat) /\
             (truthy (mysqlDb o) = false -> b = 0%nat) /\
             (truthy (mongoDb o) = false -> c = 0%nat)).
  { unfold body.
    destruct (bind_trace (bootstrap w o) (fun c => prune w o c ;; stages w o) [])
      as [t2 [E1 T2]].
    rewrite E1, producers_app, (producers_quiet _ (bootstrap_no_upload w o [])).
    destruct T2 as [T2 | [c [_ T2]]]; subst t2; [exact Z0 |].
    destruct (bind_trace (prune w o c) (fun _ => stages w o) ([] ++ snd (bootstrap w o [])))
      as [t3 [E2 T3]].
    rewrite E2, producers_app, (producers_quiet _ (prune_no_upload w o c _)).
    destruct T3 as [T3 | [u [_ T3]]]; subst t3; [exact Z0 |].
    apply stages_producers. }
  unfold run.
  destruct (negb (hasDirs o) && negb (truthy (mysqlDb o)) && negb (truthy (mongoDb o)));
    [exact Z0 |].
  destruct (body w o []) as [[u | e | code] t]; simpl in *; auto.
  rewrite producers_app. simpl. rewrite app_nil_r. exact P.
Qed.

(** ** The first action of a run *)

Lemma bootstrapStep_head w o i c h :
  exists reply rest,
    snd (bootstrapStep w o i c h)
    = GetDirectoryContents (segmentedDavDir o i) reply :: rest.
Proof.
  unfold bootstrapStep, try_catch, bind, dav_getDirectoryContents, ret.
  destruct (getDirectoryContents w h (segmentedDavDir o i)) as [l | err];
    cbn [settle_reply fst snd app]; [eauto |].
  match goal with
  | |- context [let (r, t') := ?x in _] => destruct x as [r t']
  end.
  simpl. eauto.
Qed.

(** X8.  A run without a directory and without a database prints one line
    and exits with code 1 without any request to the store; every other run
    begins with the listing of the root [/]. *)
Theorem run_begins_with_the_root_or_not_at_all :
  forall w o,
    (hasTargets o = false ->
     run w o = (1%Z, [ConsoleLog "No directories or databases to backup"])) /\
    (hasTargets o = true ->
     exists reply rest, snd (run w o) = GetDirectoryContents "/" reply :: rest).
Proof.
  intros w o. unfold hasTargets, run.
  destruct (hasDirs o), (truthy (mysqlDb o)), (truthy (mongoDb o)); simpl;
    (split; [try discriminate; reflexivity | try discriminate; intros _]);
    (assert (B : exists reply rest,
                snd (body w o []) = GetDirectoryContents "/" reply :: rest);
     [ unfold body, bootstrap;
       destruct (bind_trace (bootstrapLoop w o (List.length (davDirSegments o)) None)
                   (fun c => prune w o c ;; stages w o) []) as [t2 [E1 _]];
       rewrite E1;
       assert (L : exists reply rest,
                  snd (bootstrapLoop w o (List.length (davDirSegments o)) None [])
                  = GetDirectoryContents "/" reply :: rest);
       [ destruct (List.length (davDirSegments o)) as [| n] eqn:Ln; simpl;
         match goal with
         | |- context [bind ?m ?f []] =>
             destruct (bind_trace m f []) as [t3 [E2 _]]; rewrite E2
         end;
         match goal with
         | |- context [bootstrapStep w o ?i None []] =>
             destruct (bootstrapStep_head w o i None []) as [reply [rest Eh]];
             rewrite Eh; replace i with 0%nat by lia
         end;
         exists reply, (rest ++ t3); reflexivity
       | destruct L as [reply [rest L]]; rewrite L; exists reply, (rest ++ t2);
         reflexivity ]
     | destruct B as [reply [rest B]];
       destruct (body w o []) as [[u | e | code] t]; simpl in *; subst t;
       eexists; eexists; reflexivity ]).
Qed.

(** ** More on the orchestrator *)

(** X9.  The orchestrator never throws: a job returns normally, also when
    every attempt failed and the retries are used up, or it leaves the
    process with exit code 1. *)
Theorem backup_returns_or_exits :
  forall w o fn c h,
    fst (backup w o fn c h) = Ret tt \/ fst (backup w o fn c h) = Exit 1.
Proof.
  intros w o fn c h.
  exact (backupTrace_exits o fn c _ _ (backup_conforms w o fn c h)).
Qed.

(** X10.  A job ends with its first attempt that is resolved: nothing
    follows that attempt, no delete, no delay and no further attempt, and
    the job returns normally. *)
Theorem backup_ends_with_the_resolved_attempt :
  forall w o fn c h pre file evs post,
    snd (backup w o fn c h) = pre ++ Upload fn file evs :: post ->
    settle (handlers fn file) evs = Resolved ->
    post = [] /\ fst (backup w o fn c h) = Ret tt.
Proof.
  intros w o fn c h pre file evs post E S.
  destruct (backupTrace_round o fn c _ _ (backup_conforms w o fn c h) _ _ _ _ _ E)
    as [_ A].
  unfold afterAttempt in A. rewrite S in A. exact A.
Qed.

(** X10 on a store that accepts the first upload. *)
Lemma backup_ends_with_the_resolved_attempt_sample :
  skipn 2 (snd (backup pruning_world weekly_options Tar 0 [])) = [] /\
  fst (backup pruning_world weekly_options Tar 0 []) = Ret tt.
Proof.
  exact (backup_ends_with_the_resolved_attempt pruning_world weekly_options Tar 0 []
           (firstn 1 (snd (backup pruning_world weekly_options Tar 0 [])))
           (tarFilename "nightly" now_moment) created_events
           (skipn 2 (snd (backup pruning_world weekly_options Tar 0 [])))
           eq_refl eq_refl).
Defined.

Lemma delays_app t1 t2 : delays (t1 ++ t2) = delays t1 ++ delays t2.
Proof.
  induction t1 as [| a t1 IH]; simpl; auto.
  destruct a; simpl; rewrite ?IH; reflexivity.
Qed.

Lemma cleanupTrace_delays o err cl : cleanupTrace o err cl -> delays cl = [].
Proof.
  intros C; inversion C; subst; auto. simpl.
  destruct reply as [u | e]; simpl; auto.
  destruct (status_is (status e) 401); [| destruct (status_is (status e) 404)]; auto.
Qed.

Lemma backupTrace_all_rejected o fn c t r :
  backupTrace o fn c t r ->
  (forall file evs, In (Upload fn file evs) t ->
                    exists err, settle (handlers fn file) evs = Rejected err) ->
  attempts t = (Z.to_nat (retries o - c) + 1)%nat /\
  delays t = repeat 10000%Z (Z.to_nat (retries o - c)) /\
  r = Ret tt.
Proof.
  induction 1 as [c url f e St | c url f e code St | c url f e St
                 | c url f e err cl St C L | c url f e err cl rest r St C L B IH];
    intros R.
  - destruct (R f e) as [err' X]; [simpl; auto | congruence].
  - destruct (R f e) as [err' X]; [simpl; auto | congruence].
  - destruct (R f e) as [err' X]; [simpl; auto | congruence].
  - change (ConsoleLog url :: Upload fn f e :: ConsoleWarn (Obj err) :: cl)
      with ([ConsoleLog url; Upload fn f e; ConsoleWarn (Obj err)] ++ cl).
    rewrite attempts_app, delays_app, (cleanupTrace_attempts _ _ _ C),
      (cleanupTrace_delays _ _ _ C).
    replace (Z.to_nat (retries o - c)) with 0%nat by lia.
    repeat split; reflexivity.
  - destruct IH as [IA [ID IR]].
    { intros file evs I. apply R. right. right. right.
      apply in_or_app. right. right. right. exact I. }
    change (ConsoleLog url :: Upload fn f e :: ConsoleWarn (Obj err)
              :: cl ++ ConsoleLog "Retrying" :: Delay RETRY_DELAY :: rest)
      with ([ConsoleLog url; Upload fn f e; ConsoleWarn (Obj err)]
              ++ cl ++ [ConsoleLog "Retrying"; Delay RETRY_DELAY] ++ rest).
    rewrite !attempts_app, !delays_app, (cleanupTrace_attempts _ _ _ C),
      (cleanupTrace_delays _ _ _ C), IA, ID.
    replace (Z.to_nat (retries o - c)) with (S (Z.to_nat (retries o - (c + 1)))) by lia.
    repeat split; auto.
Qed.

Lemma remote_cleanupTrace o err cl :
  cleanupTrace o err cl ->
  (truthy (backupFilename err) = false /\ remote cl = [])
  \/ (truthy (backupFilename err) = true /\
      exists reply, remote cl = [DeleteFile (brokenFilePath o err) reply]).
Proof.
  intros C; inversion C; subst; [left; auto |]. right. split; [assumption |].
  exists reply. simpl. rewrite remote_cleanupWarnings. reflexivity.
Qed.

Lemma backupTrace_cleanup_origin o fn c t r :
  backupTrace o fn c t r ->
  forall pre path reply post,
    remote t = pre ++ DeleteFile path reply :: post ->
    exists pre' file evs err,
      pre = pre' ++ [Upload fn file evs] /\
      settle (handlers fn file) evs = Rejected err /\
      truthy (backupFilename err) = true /\
      path = brokenFilePath o err.
Proof.
  induction 1 as [c url f e St | c url f e code St | c url f e St
                 | c url f e err cl St C L | c url f e err cl rest r St C L B IH];
    intros pre path reply post E.
  - simpl in E. destruct pre as [| ? [| ? ?]]; discriminate.
  - simpl in E. destruct pre as [| ? [| ? ?]]; discriminate.
  - simpl in E. destruct pre as [| ? [| ? ?]]; discriminate.
  - change (ConsoleLog url :: Upload fn f e :: ConsoleWarn (Obj err) :: cl)
      with ([ConsoleLog url; Upload fn f e; ConsoleWarn (Obj err)] ++ cl) in E.
    rewrite remote_app in E. simpl in E.
    destruct (remote_cleanupTrace _ _ _ C) as [[T Rc] | [T [reply' Rc]]];
      rewrite Rc in E.
    + destruct pre as [| ? [| ? ?]]; discriminate.
    + destruct pre as [| ? [| ? [| ? ?]]]; try discriminate.
      injection E as E1 E2 E3. subst.
      exists [], f, e, err. auto.
  - change (ConsoleLog url :: Upload fn f e :: ConsoleWarn (Obj err)
              :: cl ++ ConsoleLog "Retrying" :: Delay RETRY_DELAY :: rest)
      with ([ConsoleLog url; Upload fn f e; ConsoleWarn (Obj err)]
              ++ cl ++ [ConsoleLog "Retrying"; Delay RETRY_DELAY] ++ rest) in E.
    rewrite !remote_app in E. simpl in E.
    destruct pre as [| a0 pre]; [discriminate |]. injection E as E0 E. subst a0.
    destruct (remote_cleanupTrace _ _ _ C) as [[T Rc] | [T [reply' Rc]]];
      rewrite Rc in E; simpl in E.
    + destruct pre as [| a1 pre]; [discriminate |]. injection E as E1 E. subst a1.
      destruct (IH _ _ _ _ E) as [pre' [file [evs [err' [Ep X]]]]]. subst pre.
      exists (Upload fn f e :: Delay RETRY_DELAY :: pre'), file, evs, err'. auto.
    + destruct pre as [| a1 pre].
      * injection E as E1 E2 E3. subst. exists [], f, e, err. auto.
      * injection E as E1 E. subst a1.
        destruct pre as [| a2 pre]; [discriminate |]. injection E as E2 E. subst a2.
        destruct (IH _ _ _ _ E) as [pre' [file [evs [err' [Ep X]]]]]. subst pre.
        exists (Upload fn f e :: DeleteFile (brokenFilePath o err) reply'
                  :: Delay RETRY_DELAY :: pre'), file, evs, err'. auto.
Qed.

(** X12.  The orchestrator deletes nothing but the artifact of the attempt
    that just failed: every delete request of a job comes right after a
    rejected attempt whose error carries a filename, and its path is that
    name under [davDir]. *)
Theorem backup_deletes_only_the_failed_artifact :
  forall w o fn c h pre path reply post,
    remote (snd (backup w o fn c h)) = pre ++ DeleteFile path reply :: post ->
    exists pre' file evs err,
      pre = pre' ++ [Upload fn file evs] /\
      settle (handlers fn file) evs = Rejected err /\
      truthy (backupFilename err) = true /\
      path = davDir o +++ "/" +++ interpolate (backupFilename err).
Proof.
  intros w o fn c h pre path reply post E.
  exact (backupTrace_cleanup_origin o fn c _ _ (backup_conforms w o fn c h) _ _ _ _ E).
Qed.

(** X12 on a store that answers every upload with status 500. *)
Lemma backup_deletes_only_the_failed_artifact_sample :
  exists pre' file evs err,
    [Upload Tar (tarFilename "nightly" sample_moment) failing_upload_events]
    = pre' ++ [Upload Tar file evs] /\
    settle (handlers Tar file) evs = Rejected err /\
    truthy (backupFilename err) = true /\
    ("/backup/" +++ tarFilename "nightly" sample_moment)
    = davDir sample_options +++ "/" +++ interpolate (backupFilename err).
Proof.
  exact (backup_deletes_only_the_failed_artifact failing_uploads_world sample_options
           Tar 0 []
           [Upload Tar (tarFilename "nightly" sample_moment) failing_upload_events]
           ("/backup/" +++ tarFilename "nightly" sample_moment) (DavOk tt)
           (skipn 2 (remote (snd (backup failing_uploads_world sample_options Tar 0 []))))
           eq_refl).
Defined.

(** ** More on retention *)

Section Retention.

Variable w : World.
Variable o : Options.

(** Whether the loop returns or is stopped by a refused delete, its delete
    requests are an initial part of the obsolete entries, in the order of
    the listing. *)
Lemma pruneLoop_deleted_prefix obsoleteMoment : forall contents h,
  exists rest,
    map filename (filter (obsolete w o obsoleteMoment) contents)
    = deleted (snd (pruneLoop w o obsoleteMoment contents h)) ++ rest.
Proof.
  induction contents as [| e rest IH]; intros h; [exists []; reflexivity |].
  cbn [pruneLoop filter].
  destruct (obsolete w o obsoleteMoment e) eqn:O.
  - pose proof (delete_block w ("Deleting old backup: " +++ filename e) (filename e) h)
      as D.
    destruct (deleteFile w _ (filename e)) as [[] | err]; cbn [settle_reply] in D.
    + rewrite (bind_ret _ _ _ _ _ D). cbn [fst snd].
      rewrite deleted_app. cbn [deleted map app].
      destruct (IH (h ++ [ConsoleLog ("Deleting old backup: " +++ filename e);
                          DeleteFile (filename e) (DavOk tt)])) as [r Er].
      exists r. rewrite Er. reflexivity.
    + rewrite (bind_throw _ _ _ _ _ D). cbn [snd deleted map app].
      exists (map filename (filter (obsolete w o obsoleteMoment) rest)). reflexivity.
  - rewrite (bind_ret (ret tt) _ h tt [] eq_refl). cbn [fst snd app].
    apply IH.
Qed.

Lemma prune_inactive c h :
  gt_zero (daysToKeep o) && lt_Infinity (daysToKeep o) = false ->
  prune w o c h = (Ret tt, []).
Proof. intros G. unfold prune. rewrite G. reflexivity. Qed.

Lemma prune_active days contents h :
  daysToKeep o = Num days -> (0 < days)%Z ->
  prune w o (Some contents) h
  = pruneLoop w o (valueOf (clock w h) - days * 86400000) contents (h ++ []).
Proof.
  intros Ed Hd. unfold prune. rewrite Ed. simpl.
  replace (0 <? days)%Z with true by (symmetry; apply Z.ltb_lt; exact Hd).
  simpl. unfold bind, moment.
  destruct (pruneLoop w o _ contents (h ++ [])); reflexivity.
Qed.

Lemma prune_undefined days h :
  daysToKeep o = Num days -> (0 < days)%Z ->
  prune w o None h = (Throw notIterable, []).
Proof.
  intros Ed Hd. unfold prune. rewrite Ed. simpl.
  replace (0 <? days)%Z with true by (symmetry; apply Z.ltb_lt; exact Hd).
  reflexivity.
Qed.

End Retention.

(** X13.  The pruner never deletes anything that is not due, whether it
    returns or is stopped by a refused delete: each of its delete requests
    is for a listed entry that is a file, whose basename matches the
    pattern of the run name and whose last-modified time is strictly before
    now minus the window; the window is then a positive finite number of
    days (with [NaN], an infinite or a non-positive window nothing is
    deleted). *)
Theorem prune_never_deletes_what_is_not_due :
  forall w o c h path,
    In path (deleted (snd (prune w o c h))) ->
    exists days contents e,
      daysToKeep o = Num days /\ (0 < days)%Z /\ c = Some contents /\
      In e contents /\ filename e = path /\
      retention_due w o (valueOf (clock w h)) days e.
Proof.
  intros w o c h path I.
  destruct (gt_zero (daysToKeep o) && lt_Infinity (daysToKeep o)) eqn:G.
  - destruct (daysToKeep o) as [days | | |] eqn:Ed; try discriminate.
    simpl in G. rewrite andb_true_r in G. apply Z.ltb_lt in G.
    destruct c as [contents |].
    + rewrite (prune_active w o days contents h Ed G) in I.
      destruct (pruneLoop_deleted_prefix w o
                  (valueOf (clock w h) - days * 86400000) contents (h ++ []))
        as [rest P].
      assert (I' : In path (map filename
                              (filter (obsolete w o
                                         (valueOf (clock w h) - days * 86400000))
                                      contents))).
      { rewrite P. apply in_or_app. left. exact I. }
      apply in_map_iff in I'. destruct I' as [e [Ef Hin]].
      apply filter_In in Hin. destruct Hin as [Hin O].
      exists days, contents, e. repeat split; auto.
      * apply (obsolete_due w o days (valueOf (clock w h)) e). exact O.
      * apply (obsolete_due w o days (valueOf (clock w h)) e). exact O.
      * apply (obsolete_due w o days (valueOf (clock w h)) e). exact O.
    + rewrite (prune_undefined w o days h Ed G) in I. contradiction.
  - rewrite (prune_inactive w o c h G) in I. contradiction.
Qed.

(** X13 on a store that refuses every delete. *)
Lemma prune_never_deletes_what_is_not_due_sample :
  exists days contents e,
    daysToKeep weekly_options = Num days /\ (0 < days)%Z /\
    Some sample_listing = Some contents /\
    In e contents /\ filename e = filename old_backup /\
    retention_due readonly_world weekly_options
      (valueOf (clock readonly_world [])) days e.
Proof.
  apply (prune_never_deletes_what_is_not_due readonly_world weekly_options
           (Some sample_listing) [] (filename old_backup)).
  vm_compute. left. reflexivity.
Defined.

(** X14.  When no listing of the bootstrap succeeded, [davDirContents] is
    still undefined when retention starts: with a positive finite window the
    loop over it throws, the run prints the error and ends with exit code 1,
    and no backup is attempted. *)
Theorem retention_without_a_listing_ends_the_run :
  forall w o t days,
    hasTargets o = true ->
    bootstrap w o [] = (Ret None, t) ->
    daysToKeep o = Num days -> (0 < days)%Z ->
    run w o = (1%Z, t ++ [ConsoleError notIterable]) /\
    attempts (snd (run w o)) = 0%nat.
Proof.
  intros w o t days T B Ed Hd.
  assert (R : run w o = (1%Z, t ++ [ConsoleError notIterable])).
  { unfold run. unfold hasTargets in T.
    replace (negb (hasDirs o) && negb (truthy (mysqlDb o)) && negb (truthy (mongoDb o)))
      with false
      by (destruct (hasDirs o), (truthy (mysqlDb o)), (truthy (mongoDb o));
          simpl in *; congruence).
    unfold body. rewrite (bind_ret _ _ _ _ _ B).
    rewrite (bind_throw _ _ _ _ _ (prune_undefined w o days ([] ++ t) Ed Hd)).
    cbn [fst snd]. rewrite app_nil_r. reflexivity. }
  split; [exact R |]. rewrite R. cbn [snd]. rewrite attempts_app.
  pose proof (bootstrap_no_upload w o []) as N. rewrite B in N.
  unfold attempts. simpl. simpl in N. rewrite N. reflexivity.
Qed.

(** X14 on a store where every directory is reported missing. *)
Lemma retention_without_a_listing_ends_the_run_sample :
  run empty_store_world weekly_options
  = (1%Z, snd (bootstrap empty_store_world weekly_options [])
            ++ [ConsoleError notIterable]) /\
  attempts (snd (run empty_store_world weekly_options)) = 0%nat.
Proof.
  exact (retention_without_a_listing_ends_the_run empty_store_world weekly_options
           (snd (bootstrap empty_store_world weekly_options [])) 7%Z
           eq_refl eq_refl eq_refl eq_refl).
Defined.

(** ** The pattern of backup filenames *)

(** The matcher finds a match whenever the pattern can consume the text:
    backtracking tries every split. *)
Lemma rmatch_complete : forall r u s caps k,
  den r u s ->
  (forall caps', k s caps' <> None) ->
  rmatch r (u ++ s) caps k <> None.
Proof.
  induction r as [| l | p | r1 IH1 r2 IH2 | r1 IH1 r2 IH2 | n r IH | p |];
    intros u s caps k D K; cbn [den] in D; cbn [rmatch].
  - subst u. apply K.
  - subst u. unfold chars. rewrite strip_prefix_app. apply K.
  - destruct D as [c [E P]]. subst u. cbn [app]. rewrite P. apply K.
  - destruct D as [u1 [u2 [E [D1 D2]]]]. subst u. rewrite <- app_assoc.
    apply IH1; [exact D1 |]. intros caps'. apply IH2; assumption.
  - destruct D as [D | D].
    + pose proof (IH1 u s caps k D K) as N.
      destruct (rmatch r1 (u ++ s) caps k); [discriminate | contradiction].
    + destruct (rmatch r1 (u ++ s) caps k); [discriminate |].
      apply IH2; assumption.
  - apply IH; [exact D |]. intros caps'. apply K.
  - destruct D as [N F]. induction F as [| c u Pc F IHF]; [contradiction |].
    cbn [app lazy_plus]. rewrite Pc.
    destruct (k (u ++ s) caps) eqn:Ek; [discriminate |].
    destruct u as [| c' u'].
    + exfalso. exact (K caps Ek).
    + apply IHF. discriminate.
  - destruct D as [Eu Es]. subst. apply K.
Qed.

Lemma den_of_rep p t : forall n u,
  List.length u = n -> Forall (fun c => p c = true) u -> den (rep n (Class p)) u t.
Proof.
  induction n as [| n IH]; intros u L F; cbn [rep den].
  - destruct u; [reflexivity | discriminate].
  - destruct u as [| c u]; [discriminate |]. inversion F; subst.
    exists [c], u. split; [reflexivity |]. split; [exists c; auto |].
    apply IH; [simpl in L; lia | assumption].
Qed.

Lemma den_of_digits n s t : digits n s -> den (rep n (Class is_digit)) (chars s) t.
Proof. intros [L F]. apply den_of_rep; assumption. Qed.

Lemma den_of_date date t : date_shape date -> den datePattern (chars date) t.
Proof.
  intros [y [m [d [E [Hy [Hm Hd]]]]]]. subst. unfold datePattern.
  rewrite !chars_append. cbn [den].
  exists (chars y), (chars "-" ++ chars m ++ chars "-" ++ chars d).
  split; [reflexivity |]. split; [apply den_of_digits; assumption |].
  exists (chars "-"), (chars m ++ chars "-" ++ chars d).
  split; [reflexivity |]. split; [reflexivity |].
  exists (chars m), (chars "-" ++ chars d).
  split; [reflexivity |]. split; [apply den_of_digits; assumption |].
  exists (chars "-"), (chars d).
  split; [reflexivity |]. split; [reflexivity |]. apply den_of_digits; assumption.
Qed.

Lemma den_of_time time t : time_shape time -> den timePattern (chars time) t.
Proof.
  intros [h [m [sec [ms [E [Hh [Hm [Hs Hms]]]]]]]]. subst. unfold timePattern.
  rewrite !chars_append. cbn [den].
  exists (chars h), (chars "-" ++ chars m ++ chars "-" ++ chars sec ++ chars "-" ++ chars ms).
  split; [reflexivity |]. split; [apply den_of_digits; assumption |].
  exists (chars "-"), (chars m ++ chars "-" ++ chars sec ++ chars "-" ++ chars ms).
  split; [reflexivity |]. split; [reflexivity |].
  exists (chars m), (chars "-" ++ chars sec ++ chars "-" ++ chars ms).
  split; [reflexivity |]. split; [apply den_of_digits; assumption |].
  exists (chars "-"), (chars sec ++ chars "-" ++ chars ms).
  split; [reflexivity |]. split; [reflexivity |].
  exists (chars sec), (chars "-" ++ chars ms).
  split; [reflexivity |]. split; [apply den_of_digits; assumption |].
  exists (chars "-"), (chars ms).
  split; [reflexivity |]. split; [reflexivity |]. apply den_of_digits; assumption.
Qed.

Lemma den_of_ext ext t :
  In ext ["tgz"; "tar"; "tar.gz"; "sql"; "sql.gz"]%string ->
  den extPattern (chars ("." +++ ext)) t.
Proof.
  unfold extPattern. cbn [den In].
  intros [E | [E | [E | [E | [E | []]]]]]; subst ext.
  - left. reflexivity.
  - right. left. exists (chars ".tar"), []. auto.
  - right. left. exists (chars ".tar"), (chars ".gz"). auto.
  - right. right. exists (chars ".sql"), []. auto.
  - right. right. exists (chars ".sql"), (chars ".gz"). auto.
Qed.

Lemma den_of_stamp date time ext :
  date_shape date -> time_shape time ->
  In ext ["tgz"; "tar"; "tar.gz"; "sql"; "sql.gz"]%string ->
  den stampPattern (chars (date +++ "_" +++ time +++ "." +++ ext)) [].
Proof.
  intros D T X. unfold stampPattern. rewrite !chars_append. cbn [den].
  exists (chars date), (chars "_" ++ chars time ++ chars "." ++ chars ext).
  split; [reflexivity |]. split; [apply den_of_date; assumption |].
  exists (chars "_"), (chars time ++ chars "." ++ chars ext).
  split; [reflexivity |]. split; [reflexivity |].
  exists (chars time), (chars "." ++ chars ext).
  split; [reflexivity |]. split; [apply den_of_time; assumption |].
  exists (chars "." ++ chars ext), [].
  split; [rewrite app_nil_r; reflexivity |].
  split; [rewrite <- chars_append; apply den_of_ext; assumption | auto].
Qed.

Lemma den_of_kind kind target t :
  kind = "mysql"%string \/ kind = "mongo"%string ->
  target <> ""%string -> single_line target = true ->
  den kindPattern (chars (kind +++ "-" +++ target +++ "_")) t.
Proof.
  intros K N L. unfold kindPattern. rewrite !chars_append. cbn [den].
  exists (chars kind), (chars "-" ++ chars target ++ chars "_").
  split; [reflexivity |]. split; [destruct K; subst; auto |].
  exists (chars "-"), (chars target ++ chars "_").
  split; [reflexivity |]. split; [reflexivity |].
  exists (chars target), (chars "_").
  split; [reflexivity |]. split; [| reflexivity].
  split; [| apply single_line_chars; assumption].
  intros E. apply N. apply chars_inj. rewrite E. reflexivity.
Qed.

Lemma den_kind_line u s :
  den kindPattern u s ->
  exists kind target,
    u = chars (kind +++ "-" +++ target +++ "_") /\
    (kind = "mysql"%string \/ kind = "mongo"%string) /\
    target <> ""%string /\ single_line target = true.
Proof.
  unfold kindPattern. cbn [den].
  intros [k [u1 [E1 [Dk [dash [u2 [E2 [Ed [t [us [E3 [[Nt Ft] Eu]]]]]]]]]]]]. subst.
  assert (K : exists kind, k = chars kind
                           /\ (kind = "mysql"%string \/ kind = "mongo"%string)).
  { destruct Dk as [E | E]; subst; eauto. }
  destruct K as [kind [Ek Hk]]. subst k.
  exists kind, (string_of_list_ascii t). split.
  - rewrite !chars_append, chars_string. reflexivity.
  - split; [assumption |]. split.
    + intros E. apply Nt. rewrite <- (chars_string t), E. reflexivity.
    + unfold single_line. rewrite chars_string. apply forallb_forall.
      apply Forall_forall. exact Ft.
Qed.

Lemma test_den r s : den r (chars s) [] -> test r s = true.
Proof.
  intros D. unfold test, exec.
  pose proof (rmatch_complete r (chars s) [] [] (fun _ caps => Some caps) D) as C.
  rewrite app_nil_r in C. unfold chars in C.
  destruct (rmatch r (list_ascii_of_string s) [] (fun _ caps => Some caps));
    [reflexivity |].
  exfalso. apply C; [intros caps'; discriminate | reflexivity].
Qed.

Lemma Encoded_test name s : Encoded name s -> test (BACKUP_FILENAME_REGEXP name) s = true.
Proof.
  intros [tag [date [time [ext [E [Ht [Hd [Hm Hx]]]]]]]]. subst s.
  apply test_den. unfold BACKUP_FILENAME_REGEXP.
  replace ("backup-" +++ name +++ "_" +++ tag +++ date +++ "_" +++ time +++ "." +++ ext)
    with (("backup-" +++ name +++ "_") +++ tag +++ (date +++ "_" +++ time +++ "." +++ ext))
    by (apply chars_inj; rewrite !chars_append, <- !app_assoc; reflexivity).
  rewrite chars_append, (chars_append tag). cbn [den].
  exists (chars ("backup-" +++ name +++ "_")),
    (chars tag ++ chars (date +++ "_" +++ time +++ "." +++ ext)).
  split; [reflexivity |]. split; [reflexivity |].
  exists (chars tag), (chars (date +++ "_" +++ time +++ "." +++ ext)).
  split; [reflexivity |]. split; [| apply den_of_stamp; assumption].
  destruct Ht as [Et | [kind [target [Et [K [N L]]]]]]; subst tag.
  - right. reflexivity.
  - left. apply den_of_kind; assumption.
Qed.

Lemma test_Encoded name s : test (BACKUP_FILENAME_REGEXP name) s = true -> Encoded name s.
Proof.
  unfold test, exec. intros H.
  destruct (rmatch (BACKUP_FILENAME_REGEXP name) (list_ascii_of_string s) []
              (fun _ caps => Some caps)) as [c |] eqn:R; [| discriminate].
  destruct (rmatch_sound _ _ _ _ _ R) as [u [s' [caps' [E [D _]]]]].
  unfold BACKUP_FILENAME_REGEXP in D. cbn [den] in D.
  destruct D as [p [u1 [E1 [Ep [tag [st [E2 [Dt Ds]]]]]]]].
  destruct (den_stamp _ _ Ds) as [date [time [ext [Est [Hd [Ht [Hx Es]]]]]]].
  subst.
  assert (T : exists tg, tag = chars tg /\ kind_tag_line tg).
  { destruct Dt as [Dk | Dk].
    - destruct (den_kind_line _ _ Dk) as [kind [target [Ek [Hk [Nt Lt]]]]].
      exists (kind +++ "-" +++ target +++ "_"). split; [assumption |].
      right. exists kind, target. auto.
    - cbn in Dk. subst. exists ""%string. split; [reflexivity | left; reflexivity]. }
  destruct T as [tg [Etg Htg]]. subst tag.
  exists tg, date, time, ext. split; [| auto].
  apply chars_inj. fold (chars s) in E. rewrite E.
  rewrite !chars_append, app_nil_r, <- !app_assoc. reflexivity.
Qed.

(** X15.  For an alphanumeric run name the pattern of the pruner accepts
    exactly the names [backup-<name>_[<kind>-<target>_]<date>_<time>.<ext>]
    with kind [mysql] or [mongo], a target that is not empty and has no line
    terminator, a date of 4-2-2 digits, a time of 2-2-2-3 digits and one of
    the extensions [tgz], [tar], [tar.gz], [sql], [sql.gz]: more than the
    producers generate, and nothing else. *)
Theorem pattern_accepts_exactly_the_encoding :
  forall name s,
    alphanumeric name = true ->
    (test (BACKUP_FILENAME_REGEXP name) s = true <-> Encoded name s).
Proof.
  intros name s _. split; [apply test_Encoded | apply Encoded_test].
Qed.

(** X15 on a name with an extension that no producer generates. *)
Lemma pattern_accepts_exactly_the_encoding_sample :
  test (BACKUP_FILENAME_REGEXP "nightly") "backup-nightly_2024-01-01_00-00-00-000.tar.gz"
  = true
  <-> Encoded "nightly" "backup-nightly_2024-01-01_00-00-00-000.tar.gz".
Proof.
  exact (pattern_accepts_exactly_the_encoding "nightly"
           "backup-nightly_2024-01-01_00-00-00-000.tar.gz" eq_refl).
Defined.

Lemma app_sep_inj {A} (x : A) : forall l1 l2 r1 r2,
  ~ In x l1 -> ~ In x l2 -> l1 ++ x :: r1 = l2 ++ x :: r2 -> l1 = l2.
Proof.
  induction l1 as [| a l1 IH]; intros [| b l2] r1 r2 N1 N2 E; simpl in *.
  - reflexivity.
  - injection E as E1 E2. subst. exfalso. apply N2. auto.
  - injection E as E1 E2. subst. exfalso. apply N1. auto.
  - injection E as E1 E2. subst. f_equal.
    apply (IH l2 r1 r2); [intros H; apply N1; auto | intros H; apply N2; auto | exact E2].
Qed.

Lemma alphanumeric_no_underscore name :
  alphanumeric name = true -> ~ In "_"%char (chars name).
Proof.
  unfold alphanumeric. intros H I. apply andb_prop in H. destruct H as [_ H].
  rewrite forallb_forall in H. specialize (H _ I). discriminate.
Qed.

(** X16.  Two different alphanumeric run names never claim the same file:
    a basename that the patterns of both names accept forces the names to
    be equal, so the pruner of one run leaves the backups of every other
    run alone. *)
Theorem patterns_of_different_names_are_disjoint :
  forall name1 name2 s,
    alphanumeric name1 = true ->
    alphanumeric name2 = true ->
    test (BACKUP_FILENAME_REGEXP name1) s = true ->
    test (BACKUP_FILENAME_REGEXP name2) s = true ->
    name1 = name2.
Proof.
  intros name1 name2 s A1 A2 T1 T2.
  destruct (test_BackupFilename _ _ T1) as [tag1 [d1 [t1 [x1 [E1 _]]]]].
  destruct (test_BackupFilename _ _ T2) as [tag2 [d2 [t2 [x2 [E2 _]]]]].
  rewrite E1 in E2. apply (f_equal chars) in E2.
  rewrite !(chars_append "backup-"), !(chars_append name1), !(chars_append name2) in E2.
  apply app_inv_head in E2.
  apply chars_inj.
  exact (app_sep_inj _ _ _ _ _ (alphanumeric_no_underscore _ A1)
           (alphanumeric_no_underscore _ A2) E2).
Qed.

(** X16 on the archive of the run [nightly]. *)
Lemma patterns_of_different_names_are_disjoint_sample :
  test (BACKUP_FILENAME_REGEXP "nightly") (tarFilename "nightly" sample_moment) = true /\
  "nightly"%string = "nightly"%string.
Proof.
  split; [reflexivity |].
  exact (patterns_of_different_names_are_disjoint "nightly" "nightly"
           (tarFilename "nightly" sample_moment) eq_refl eq_refl eq_refl eq_refl).
Defined.

(** ** The attempts of a run *)

Lemma announced_quiet w o h t : filter isUpload t = [] -> announced w o h t.
Proof.
  intros Q pre fn file evs post E. exfalso.
  apply (no_attempt_elt t pre fn file evs post); [| exact E].
  unfold attempts. rewrite Q. reflexivity.
Qed.

Lemma announced_app w o h t1 t2 :
  announced w o h t1 -> announced w o (h ++ t1) t2 -> announced w o h (t1 ++ t2).
Proof.
  intros H1 H2 pre fn file evs post E.
  apply app_eq_elt in E. destruct E as [[post1 [E1 E2]] | [pre2 [E1 E2]]].
  - exact (H1 _ _ _ _ _ E1).
  - destruct (H2 _ _ _ _ _ E2) as [pre' [Ep [Ef [Ee C]]]]. subst pre pre2.
    exists (t1 ++ pre'). rewrite <- !app_assoc in *. auto.
Qed.

Lemma announcedM_avoids {A} w o (m : M A) : avoids isUpload m -> announcedM w o m.
Proof. intros H h. apply announced_quiet, H. Qed.

Lemma announcedM_bind {A B} w o (m : M A) (f : A -> M B) :
  announcedM w o m -> (forall a, announcedM w o (f a)) -> announcedM w o (bind m f).
Proof.
  intros Hm Hf h. unfold bind. specialize (Hm h).
  destruct (m h) as [[a | err | c] t1]; simpl in *; auto.
  specialize (Hf a (h ++ t1)). destruct (f a (h ++ t1)) as [r t2]; simpl in *.
  apply announced_app; assumption.
Qed.

Lemma announcedM_try_catch {A} w o (m : M A) handler :
  announcedM w o m -> (forall err, announcedM w o (handler err)) ->
  announcedM w o (try_catch m handler).
Proof.
  intros Hm Hf h. unfold try_catch. specialize (Hm h).
  destruct (m h) as [[a | err | c] t1]; simpl in *; auto.
  specialize (Hf err (h ++ t1)). destruct (handler err (h ++ t1)) as [r t2]; simpl in *.
  apply announced_app; assumption.
Qed.

Section Announced.

Variable w : World.
Variable o : Options.

Lemma cleanup_no_upload err : avoids isUpload (cleanup w o err).
Proof.
  unfold cleanup. destruct (truthy (backupFilename err)); [| apply avoids_ret].
  apply avoids_try_catch.
  - apply avoids_bind; [apply avoids_emit; reflexivity | intros _].
    intros h. unfold dav_deleteFile. reflexivity.
  - intros err'.
    destruct (status_is (status err') 401); [apply avoids_emit; reflexivity |].
    destruct (negb (status_is (status err') 404));
      [apply avoids_emit; reflexivity | apply avoids_ret].
Qed.

Lemma announcedM_backupFn fn :
  configured o fn = true -> announcedM w o (backupFn w o fn).
Proof.
  intros C h pre fn' file evs post E. rewrite backupFn_upload in E.
  unfold upload in E.
  destruct (settle _ _); simpl in E;
    (destruct pre as [| a [| b [| c [| d pre]]]]; simpl in E; try discriminate);
    inversion E; subst;
    exists []; rewrite app_nil_r; repeat split; auto.
Qed.

Lemma announcedM_backupRec fn :
  configured o fn = true -> forall n c, announcedM w o (backupRec w o n fn c).
Proof.
  intros C. induction n as [| n IH]; intros c; cbn [backupRec];
    (apply announcedM_try_catch; [apply announcedM_backupFn; assumption | intros err];
     apply announcedM_bind;
     [apply announcedM_avoids, avoids_emit; reflexivity | intros _];
     apply announcedM_bind;
     [apply announcedM_avoids, cleanup_no_upload | intros _];
     destruct (Z.ltb c (retries o));
     [| apply announcedM_avoids, avoids_ret];
     apply announcedM_bind;
     [apply announcedM_avoids, avoids_emit; reflexivity | intros _];
     apply announcedM_bind;
     [apply announcedM_avoids, avoids_emit; reflexivity | intros _]).
  - apply announcedM_avoids, avoids_ret.
  - apply IH.
Qed.

Lemma announcedM_stage fn msg :
  announcedM w o
    (if configured o fn then backup w o fn 0 ;; console_log msg else ret tt).
Proof.
  destruct (configured o fn) eqn:C; [| apply announcedM_avoids, avoids_ret].
  apply announcedM_bind; [apply announcedM_backupRec; assumption | intros _].
  apply announcedM_avoids, avoids_emit. reflexivity.
Qed.

Lemma announcedM_stages : announcedM w o (stages w o).
Proof.
  unfold stages.
  apply announcedM_bind; [apply (announcedM_stage Tar) | intros _].
  apply announcedM_bind; [apply (announcedM_stage Mysql) | intros _].
  apply (announcedM_stage Mongo).
Qed.

Lemma announcedM_body : announcedM w o (body w o).
Proof.
  unfold body.
  apply announcedM_bind; [apply announcedM_avoids, bootstrap_no_upload | intros c].
  apply announcedM_bind; [apply announcedM_avoids, prune_no_upload | intros _].
  apply announcedM_stages.
Qed.

Lemma run_announced : announced w o [] (snd (run w o)).
Proof.
  unfold run.
  destruct (negb (hasDirs o) && negb (truthy (mysqlDb o)) && negb (truthy (mongoDb o))).
  - apply announced_quiet. reflexivity.
  - pose proof (announcedM_body []) as H.
    destruct (body w o []) as [[u | e | code] t]; simpl in *; auto.
    apply announced_app; [exact H | apply announced_quiet; reflexivity].
Qed.

End Announced.

(** X17.  Every upload attempt of a run belongs to a configured job, is
    announced just before with the URL [davBaseUrl + davDir + '/' + name],
    carries the name its producer builds from the clock read at that point,
    and receives the events the world delivers there. *)
Theorem attempts_are_announced_and_named :
  forall w o pre fn file evs post,
    snd (run w o) = pre ++ Upload fn file evs :: post ->
    exists pre',
      pre = pre' ++ [ConsoleLog ("Uploading: " +++ davBaseUrl o +++ davDir o
                                   +++ "/" +++ file)] /\
      file = producerFilename o fn (clock w pre') /\
      evs = streamEvents w pre fn /\
      configured o fn = true.
Proof.
  intros w o pre fn file evs post E.
  exact (run_announced w o _ _ _ _ _ E).
Qed.

(** X17 on the first attempt of a run against a store that answers every
    upload with status 500. *)
Lemma attempts_are_announced_and_named_sample :
  exists pre',
    firstn 3 (snd (run failing_uploads_world sample_options))
    = pre' ++ [ConsoleLog ("Uploading: " +++ davBaseUrl sample_options
                             +++ davDir sample_options +++ "/"
                             +++ tarFilename "nightly" sample_moment)] /\
    tarFilename "nightly" sample_moment
    = producerFilename sample_options Tar (clock failing_uploads_world pre') /\
    failing_upload_events
    = streamEvents failing_uploads_world
        (firstn 3 (snd (run failing_uploads_world sample_options))) Tar /\
    configured sample_options Tar = true.
Proof.
  exact (attempts_are_announced_and_named failing_uploads_world sample_options
           (firstn 3 (snd (run failing_uploads_world sample_options))) Tar
           (tarFilename "nightly" sample_moment) failing_upload_events
           (skipn 4 (snd (run failing_uploads_world sample_options)))
           eq_refl).
Defined.

Lemma producer_name_Encoded o fn m :
  valid_moment m ->
  configured o fn = true ->
  single_line (interpolate (mysqlDb o)) = true ->
  single_line (interpolate (mongoDb o)) = true ->
  Encoded (name o) (producerFilename o fn m).
Proof.
  intros V C L1 L2.
  pose proof (format_date_shape m V) as D. pose proof (format_time_shape m V) as T.
  assert (N : forall db, truthy db = true -> interpolate db <> ""%string).
  { intros [s |] H; simpl in *; [| discriminate].
    intros E. subst s. discriminate. }
  destruct fn; simpl in C; unfold producerFilename.
  - exists ""%string, (format_date m), (format_time m), "tgz"%string.
    split; [| split; [left; reflexivity | simpl; auto]].
    unfold tarFilename, format. apply chars_inj.
    rewrite !chars_append, <- !app_assoc. reflexivity.
  - exists ("mysql" +++ "-" +++ interpolate (mysqlDb o) +++ "_"),
      (format_date m), (format_time m), "sql.gz"%string.
    split; [| split; [right; exists "mysql"%string, (interpolate (mysqlDb o)); auto
                     | simpl; auto 10]].
    unfold mysqlFilename, format. apply chars_inj.
    rewrite !chars_append, <- !app_assoc. reflexivity.
  - exists ("mongo" +++ "-" +++ interpolate (mongoDb o) +++ "_"),
      (format_date m), (format_time m), "sql.gz"%string.
    split; [| split; [right; exists "mongo"%string, (interpolate (mongoDb o)); auto
                     | simpl; auto 10]].
    unfold mongoFilename, format. apply chars_inj.
    rewrite !chars_append, <- !app_assoc. reflexivity.
Qed.

(** X18.  What a run uploads, a later run of the same name can prune: with
    an alphanumeric run name, a clock whose fields have their usual width
    and database names without line terminator, the name of every upload
    attempt of a run is accepted by the pattern of the pruner for that run
    name. *)
Theorem uploaded_names_match_the_pattern :
  forall w o pre fn file evs post,
    snd (run w o) = pre ++ Upload fn file evs :: post ->
    alphanumeric (name o) = true ->
    (forall h, valid_moment (clock w h)) ->
    single_line (interpolate (mysqlDb o)) = true ->
    single_line (interpolate (mongoDb o)) = true ->
    test (BACKUP_FILENAME_REGEXP (name o)) file = true.
Proof.
  intros w o pre fn file evs post E _ V L1 L2.
  destruct (run_announced w o _ _ _ _ _ E) as [pre' [_ [Ef [_ C]]]].
  rewrite Ef. apply Encoded_test. apply producer_name_Encoded; auto.
Qed.

(** X18 on the first attempt of a run against a store that answers every
    upload with status 500. *)
Lemma uploaded_names_match_the_pattern_sample :
  test (BACKUP_FILENAME_REGEXP (name sample_options))
    (tarFilename "nightly" sample_moment) = true.
Proof.
  apply (uploaded_names_match_the_pattern failing_uploads_world sample_options
           (firstn 3 (snd (run failing_uploads_world sample_options))) Tar
           (tarFilename "nightly" sample_moment) failing_upload_events
           (skipn 4 (snd (run failing_uploads_world sample_options)))).
  - reflexivity.
  - reflexivity.
  - intros h. unfold valid_moment. simpl. lia.
  - reflexivity.
  - reflexivity.
Defined.

(** ** The remote directory *)

Lemma split_trailing path :
  split "/" path = split "/" (dropTrailingSlash path)
  \/ split "/" path = split "/" (dropTrailingSlash path) ++ [""%string].
Proof.
  induction path as [| c rest IH]; [left; reflexivity |].
  destruct rest as [| d rest'].
  - cbn [dropTrailingSlash]. destruct (Ascii.eqb c "/") eqn:E.
    + right. cbn [split]. rewrite E. reflexivity.
    + left. reflexivity.
  - change (dropTrailingSlash (String c (String d rest')))
      with (String c (dropTrailingSlash (String d rest'))).
    remember (String d rest') as r eqn:Er.
    cbn [split]. destruct (Ascii.eqb c "/").
    + destruct IH as [IH | IH]; rewrite IH; [left | right]; reflexivity.
    + destruct IH as [IH | IH]; rewrite IH; [left; reflexivity |].
      destruct (split "/" (dropTrailingSlash r)) as [| x xs]; [left | right]; reflexivity.
Qed.

Lemma segments_trailing path :
  filter nonempty (split "/" (dropTrailingSlash path))
  = filter nonempty (split "/" path).
Proof.
  destruct (split_trailing path) as [E | E]; rewrite E; [reflexivity |].
  rewrite filter_app. simpl. rewrite app_nil_r. reflexivity.
Qed.

(** X19.  The coercion of [davDir] always yields a path that starts with a
    slash, leaves a path that already starts with one as it is (a slash at
    its end included), is idempotent, and never changes the segments the
    bootstrap walks through. *)
Theorem coerceDavDir_keeps_the_segments :
  forall path,
    (exists rest, coerceDavDir path = String "/" rest) /\
    (forall rest, path = String "/" rest -> coerceDavDir path = path) /\
    coerceDavDir (coerceDavDir path) = coerceDavDir path /\
    filter nonempty (split "/" (coerceDavDir path))
    = filter nonempty (split "/" path).
Proof.
  intros path. split; [| split; [| split]].
  - exists (replaceEdgeSlash path). reflexivity.
  - intros rest E. subst path. reflexivity.
  - reflexivity.
  - unfold coerceDavDir.
    change (split "/" ("/" +++ replaceEdgeSlash path))
      with (""%string :: split "/" (replaceEdgeSlash path)).
    cbn [filter nonempty String.eqb negb].
    destruct path as [| c rest]; [reflexivity |].
    unfold replaceEdgeSlash. destruct (Ascii.eqb c "/") eqn:E.
    + cbn [split]. rewrite E. reflexivity.
    + apply segments_trailing.
Qed.

Lemma split_segment s :
  forallb (fun c => negb (Ascii.eqb c "/")) (chars s) = true -> split "/" s = [s].
Proof.
  induction s as [| c s IH]; intros H; [reflexivity |].
  cbn [chars list_ascii_of_string forallb] in H. apply andb_prop in H.
  destruct H as [Hc Hs]. cbn [split].
  destruct (Ascii.eqb c "/"); [discriminate |].
  unfold chars in IH. rewrite (IH Hs). reflexivity.
Qed.

Lemma split_segment_sep s rest :
  forallb (fun c => negb (Ascii.eqb c "/")) (chars s) = true ->
  split "/" (s +++ String "/" rest) = s :: split "/" rest.
Proof.
  induction s as [| c s IH]; intros H; [reflexivity |].
  cbn [chars list_ascii_of_string forallb] in H. apply andb_prop in H.
  destruct H as [Hc Hs].
  change (String c s +++ String "/" rest) with (String c (s +++ String "/" rest)).
  cbn [split]. destruct (Ascii.eqb c "/"); [discriminate |].
  unfold chars in IH. rewrite (IH Hs). reflexivity.
Qed.

Lemma split_concat : forall segs,
  forallb segment segs = true -> segs <> [] ->
  split "/" (String.concat "/" segs) = segs.
Proof.
  induction segs as [| x [| y l] IH]; intros H N.
  - contradiction.
  - cbn [String.concat]. apply split_segment.
    cbn [forallb] in H. apply andb_prop in H. destruct H as [H _].
    apply andb_prop in H. apply H.
  - change (String.concat "/" (x :: y :: l))
      with (x +++ String "/" (String.concat "/" (y :: l))).
    cbn [forallb] in H. apply andb_prop in H. destruct H as [Hx H].
    apply andb_prop in Hx. destruct Hx as [_ Hx].
    rewrite (split_segment_sep _ _ Hx), IH; [reflexivity | exact H | discriminate].
Qed.

Lemma filter_segments : forall segs,
  forallb segment segs = true -> filter nonempty segs = segs.
Proof.
  induction segs as [| x l IH]; intros H; [reflexivity |].
  cbn [forallb] in H. apply andb_prop in H. destruct H as [Hx H].
  apply andb_prop in Hx. destruct Hx as [Hx _].
  cbn [filter]. rewrite Hx, (IH H). reflexivity.
Qed.

Lemma segments_of_path o segs :
  forallb segment segs = true ->
  davDir o = "/" +++ String.concat "/" segs ->
  davDirSegments o = segs.
Proof.
  intros H E. unfold davDirSegments. rewrite E.
  change (split "/" ("/" +++ String.concat "/" segs))
    with (""%string :: split "/" (String.concat "/" segs)).
  cbn [filter nonempty String.eqb negb].
  destruct segs as [| x l]; [reflexivity |].
  rewrite (split_concat _ H); [| discriminate].
  apply filter_segments. exact H.
Qed.

(** X20.  For a [davDir] in normal form, a slash followed by segments
    that are joined by single slashes, splitting recovers the segments: the
    depth [i] of the bootstrap is the path of the first [i] segments, and
    the deepest one is [davDir] itself, the directory the uploads go to. *)
Theorem bootstrap_depths_of_a_normal_path :
  forall o segs,
    forallb segment segs = true ->
    davDir o = "/" +++ String.concat "/" segs ->
    davDirSegments o = segs /\
    (forall i, segmentedDavDir o i = "/" +++ String.concat "/" (firstn i segs)) /\
    segmentedDavDir o (List.length segs) = davDir o.
Proof.
  intros o segs H E. pose proof (segments_of_path o segs H E) as S.
  split; [exact S |]. split.
  - intros i. unfold segmentedDavDir. rewrite S. reflexivity.
  - unfold segmentedDavDir. rewrite S, firstn_all, E. reflexivity.
Qed.

(** X20 on the default directory [/backup]. *)
Lemma bootstrap_depths_of_a_normal_path_sample :
  davDirSegments sample_options = ["backup"%string] /\
  (forall i, segmentedDavDir sample_options i
             = "/" +++ String.concat "/" (firstn i ["backup"%string])) /\
  segmentedDavDir sample_options 1 = davDir sample_options.
Proof.
  exact (bootstrap_depths_of_a_normal_path sample_options ["backup"%string]
           eq_refl eq_refl).
Defined.

(** X21.  A bootstrap that returns has sent one listing request for each
    depth, from the root down to the last segment and in this order, and
    hands over the last listing that succeeded, or nothing when none did. *)
Theorem bootstrap_lists_every_depth_top_down :
  forall w o h c t,
    bootstrap w o h = (Ret c, t) ->
    listed t = map (segmentedDavDir o) (seq 0 (S (List.length (davDirSegments o)))) /\
    c = lastListing None t.
Proof.
  intros w o h c t E. exact (bootstrap_returns w o h c t E).
Qed.

(** X21 on a store that has the directory [/backup]. *)
Lemma bootstrap_lists_every_depth_top_down_sample :
  listed (snd (bootstrap pruning_world weekly_options []))
  = map (segmentedDavDir weekly_options)
      (seq 0 (S (List.length (davDirSegments weekly_options)))) /\
  Some sample_listing = lastListing None (snd (bootstrap pruning_world weekly_options [])).
Proof.
  exact (bootstrap_lists_every_depth_top_down pruning_world weekly_options []
           (Some sample_listing) (snd (bootstrap pruning_world weekly_options []))
           eq_refl).
Defined.

(** ** The defaults of the connection options *)

Lemma mergeDefaults_given : forall defaults options key v,
  options key = Some v -> mergeDefaults defaults options key = Some v.
Proof.
  induction defaults as [| [k d] rest IH]; intros options key v H; [exact H |].
  cbn [mergeDefaults]. apply IH.
  destruct (options k) eqn:Ok; [exact H |].
  unfold setProperty. destruct (String.eqb_spec key k); [congruence | exact H].
Qed.

Lemma mergeDefaults_missing : forall defaults options key,
  options key = None ->
  mergeDefaults defaults options key = defaultOf defaults key.
Proof.
  induction defaults as [| [k d] rest IH]; intros options key H; [exact H |].
  cbn [mergeDefaults defaultOf].
  destruct (String.eqb_spec key k) as [E | N].
  - subst k. rewrite H. apply mergeDefaults_given.
    unfold setProperty. rewrite String.eqb_refl. reflexivity.
  - apply IH. destruct (options k); [exact H |].
    unfold setProperty. destruct (String.eqb_spec key k); [contradiction | exact H].
Qed.

(** X22.  The defaults fill the gaps and nothing else: a value that was
    given stays, also when it is falsy such as port 0 or an empty host; a
    key whose value is [undefined] receives its default when it is one of
    the eight connection keys and stays [undefined] otherwise; applying the
    defaults twice changes nothing. *)
Theorem applyDefaults_fills_only_the_gaps :
  forall options key,
    applyDefaults options key
    = match options key with
      | Some v => Some v
      | None => defaultOf defaultOptions key
      end /\
    applyDefaults (applyDefaults options) key = applyDefaults options key.
Proof.
  intros options key.
  assert (P : forall opts k,
             applyDefaults opts k
             = match opts k with
               | Some v => Some v
               | None => defaultOf defaultOptions k
               end).
  { intros opts k. unfold applyDefaults. destruct (opts k) as [v |] eqn:O.
    - apply mergeDefaults_given. exact O.
    - apply mergeDefaults_missing. exact O. }
  split; [apply P |].
  rewrite (P (applyDefaults options) key), (P options key).
  destruct (options key); [reflexivity |].
  destruct (defaultOf defaultOptions key); reflexivity.
Qed.

(** * The process: the watchdog and the late events *)

Lemma firstExit_after handler : forall evs,
  firstExit handler evs = None ->
  firstExit handler (afterSettlement handler evs) = None.
Proof.
  induction evs as [| ev evs IH]; simpl; [reflexivity |].
  destruct (handler ev); auto; discriminate.
Qed.

Lemma lateExit_none handler evs :
  firstExit handler evs = None -> lateExit handler evs = None.
Proof.
  intros H. unfold lateExit.
  destruct (settle handler evs); auto using firstExit_after.
Qed.




Lemma armed_none : forall h, no_exit_event h = true -> armed h = None.
Proof.
  induction h as [| a h IH]; intros H; [reflexivity |].
  cbn [no_exit_event forallb] in H. apply andb_prop in H. destruct H as [Ha H].
  destruct a; simpl; auto.
  destruct (firstExit (handlers fn file) events) eqn:F; [discriminate |].
  rewrite (lateExit_none _ _ F). auto.
Qed.

Lemma armed_prefix t pre post :
  no_exit_event t = true -> t = pre ++ post -> armed pre = None.
Proof.
  intros H E. subst t. unfold no_exit_event in H. rewrite forallb_app in H.
  apply andb_prop in H. apply armed_none, H.
Qed.


Lemma in_time_prefix w t pre post :
  in_time w t = true -> t = pre ++ post -> (elapsed w pre < TIMEOUT)%Z.
Proof.
  intros H E. unfold in_time in H. rewrite forallb_forall in H.
  specialize (H (List.length pre)).
  assert (F : firstn (List.length pre) t = pre).
  { subst t. rewrite firstn_app, firstn_all, Nat.sub_diag. simpl. apply app_nil_r. }
  rewrite F in H. apply Z.ltb_lt, H. apply in_seq. subst t.
  rewrite length_app. lia.
Qed.

Lemma interrupt_none w late h a :
  (awaits a = true ->
   (elapsed w h < TIMEOUT)%Z /\ (elapsed w (h ++ [a]) < TIMEOUT)%Z) ->
  armed h = None ->
  interrupt w late h a = None.
Proof.
  intros T A. unfold interrupt. rewrite A.
  destruct (awaits a); simpl.
  - destruct (T eq_refl) as [T1 T2].
    replace (TIMEOUT <=? elapsed w h)%Z with false by (symmetry; apply Z.leb_gt; exact T1).
    replace (TIMEOUT <=? elapsed w (h ++ [a]))%Z with false
      by (symmetry; apply Z.leb_gt; exact T2).
    destruct (late h); reflexivity.
  - destruct (endsWithUpload h && late h); reflexivity.
Qed.



Section Cut.

Variable w : World.
Variable late : Trace -> bool.

Lemma cut_undisturbed : forall t h,
  (forall pre a post, t = pre ++ a :: post -> interrupt w late (h ++ pre) a = None) ->
  cut w late h t = (t, None).
Proof.
  induction t as [| a t IH]; intros h H; [reflexivity |].
  cbn [cut]. pose proof (H [] a t eq_refl) as I0. rewrite app_nil_r in I0.
  rewrite I0, IH; [reflexivity |].
  intros pre b post E. rewrite <- app_assoc. apply (H (a :: pre) b post).
  rewrite E. reflexivity.
Qed.

Lemma cut_spec : forall t h done i,
  cut w late h t = (done, i) ->
  exists rest,
    t = done ++ rest /\
    (i = None -> rest = []) /\
    (forall x, i = Some x ->
               exists a rest', rest = a :: rest' /\
                               interrupt w late (h ++ done) a = Some x).
Proof.
  induction t as [| a t IH]; intros h done i C; cbn [cut] in C.
  - injection C as C1 C2. subst. exists []. repeat split; auto. discriminate.
  - destruct (interrupt w late h a) as [y |] eqn:I.
    + injection C as C1 C2. subst. exists (a :: t).
      split; [reflexivity |]. split; [discriminate |].
      intros x E. injection E as E. subst. exists a, t. rewrite app_nil_r. auto.
    + destruct (cut w late (h ++ [a]) t) as [d j] eqn:R.
      injection C as C1 C2. subst.
      destruct (IH _ _ _ R) as [rest [E [N S]]].
      exists rest. split; [rewrite E; reflexivity |]. split; [exact N |].
      intros x Ex. destruct (S x Ex) as [b [rest' [Er Ib]]].
      exists b, rest'. split; [exact Er |].
      rewrite <- app_assoc in Ib. exact Ib.
Qed.



End Cut.

(** The process is the run of the generator when nothing reaches it from
    outside. *)
Lemma process_undisturbed w late o :
  no_exit_event (snd (run w o)) = true ->
  in_time w (snd (run w o)) = true ->
  process w late o = run w o.
Proof.
  intros N T. unfold process. rewrite cut_undisturbed; [reflexivity |].
  intros pre a post E. cbn [app]. apply interrupt_none.
  - intros _. split.
    + exact (in_time_prefix w _ pre (a :: post) T E).
    + apply (in_time_prefix w _ (pre ++ [a]) post T).
      rewrite <- app_assoc. exact E.
  - exact (armed_prefix _ pre (a :: post) N E).
Qed.


(** C1, as amended.  When the bootstrap and the pruning return, every
    attempt is settled by its events, no event of any attempt is an error
    with status code 507 and the watchdog of 12 hours is not due at any
    point of the run, the process exits with code 0 whether or not the
    backup stages succeeded: a stage that uses up its retries is printed as
    a warning and changes nothing; and every configured stage runs to its
    end, whatever happened to the stages before it. *)
Theorem exit_code_0_whatever_the_stages_did :
  forall w late o c t1 t2,
    hasTargets o = true ->
    bootstrap w o [] = (Ret c, t1) ->
    prune w o c t1 = (Ret tt, t2) ->
    always_settles w o ->
    no_exit_event (snd (run w o)) = true ->
    in_time w (snd (run w o)) = true ->
    fst (process w late o) = 0%Z /\
    (hasDirs o = true ->
     In (ConsoleLog "Directory dump completed") (snd (process w late o)) /\
     exists file evs, In (Upload Tar file evs) (snd (process w late o))) /\
    (truthy (mysqlDb o) = true ->
     In (ConsoleLog "MySQL dump completed") (snd (process w late o)) /\
     exists file evs, In (Upload Mysql file evs) (snd (process w late o))) /\
    (truthy (mongoDb o) = true ->
     In (ConsoleLog "MongoDB dump completed") (snd (process w late o)) /\
     exists file evs, In (Upload Mongo file evs) (snd (process w late o))).
Proof.
  intros w late o c t1 t2 T B P S N I.
  rewrite (process_undisturbed w late o N I).
  exact (stages_do_not_change_the_exit_code w o c t1 t2 T B P S).
Qed.

(** C1 on a store that answers every upload with status 500: both attempts
    of the archive fail and the exit code is 0. *)
Lemma exit_code_0_with_failing_uploads :
  fst (process failing_uploads_world at_once sample_options) = 0%Z /\
  In (ConsoleLog "Directory dump completed")
     (snd (process failing_uploads_world at_once sample_options)).
Proof.
  destruct (exit_code_0_whatever_the_stages_did failing_uploads_world at_once
              sample_options (Some [])
              [GetDirectoryContents "/" (DavOk []);
               GetDirectoryContents "/backup" (DavOk [])] []
              eq_refl eq_refl eq_refl) as [E [D _]].
  - intros h fn file. right. destruct fn; vm_compute; eexists; reflexivity.
  - reflexivity.
  - reflexivity.
  - split; [exact E | exact (proj1 (D eq_refl))].
Defined.



(** X11.  A job that nothing from outside cuts short (neither the
    watchdog nor a late 507 ends the process while the job runs) and whose
    attempts are all rejected makes exactly [retries + 1] attempts (one when
    [retries] is not positive), waits 10000 ms before each attempt but the
    first, and returns normally. *)
Theorem backup_uses_the_whole_budget :
  forall w late o fn h done,
    cut w late h (snd (backup w o fn 0 h)) = (done, None) ->
    (forall file evs,
       In (Upload fn file evs) done ->
       exists err, settle (handlers fn file) evs = Rejected err) ->
    attempts done = (Z.to_nat (retries o) + 1)%nat /\
    delays done = repeat 10000%Z (Z.to_nat (retries o)) /\
    fst (backup w o fn 0 h) = Ret tt.
Proof.
  intros w late o fn h done C R.
  destruct (cut_spec w late _ _ _ _ C) as [rest [E [N _]]].
  rewrite (N eq_refl), app_nil_r in E. subst done.
  pose proof (backupTrace_all_rejected o fn 0 _ _ (backup_conforms w o fn 0 h) R) as X.
  rewrite Z.sub_0_r in X. exact X.
Qed.

(** X11 on a store that answers every upload with status 500. *)
Lemma backup_uses_the_whole_budget_sample :
  attempts (snd (backup failing_uploads_world sample_options Tar 0 [])) = 2%nat /\
  delays (snd (backup failing_uploads_world sample_options Tar 0 [])) = [10000%Z] /\
  fst (backup failing_uploads_world sample_options Tar 0 []) = Ret tt.
Proof.
  apply (backup_uses_the_whole_budget failing_uploads_world at_once sample_options
           Tar [] (snd (backup failing_uploads_world sample_options Tar 0 []))).
  - reflexivity.
  - intros file evs I. vm_compute in I.
    repeat match type of I with
           | _ \/ _ => destruct I as [I | I]
           | False => contradiction
           | _ = _ => try discriminate I
           end;
      injection I as I1 I2; subst; eexists; vm_compute; reflexivity.
Defined.



